(** * Multi-shell multi-tissue CSD ([dipy/reconst/mcsd.py]): model and properties

    The development embeds [dipy.reconst.mcsd] function by function.

    - numpy [float64] values are idealised as real numbers ([R]); rounding
      and [inf] are not modelled.  A [nan] is modelled where [mcsd.py]
      makes one out of a value that is no float (the [None] that
      [Problem.solve()] may return): the array that receives it has
      entries of type [nanfloat].  Real numbers cannot follow a [nan]
      through float arithmetic; a run that carries one there ends in
      the outcome [BeyondReals].
    - A 1-D array is a [list]; a 2-D array is an [ndarray2], a shape and a
      cell function.
    - Python exceptions are values of [exn]; a computation that may raise
      has type [result A].
    - Code living outside [mcsd.py] (geometry helpers, spherical-harmonic
      helpers, [numpy.linalg.svd], the [cvxpy] solver) is an interface,
      the class [Collaborators]; every definition and theorem is
      parametric in it. *)

From Stdlib Require Import String Reals Lra ZArith Lia Bool Arith List.
Import ListNotations.
Open Scope string_scope.
Open Scope list_scope.
Open Scope R_scope.

(* ================================================================== *)
(** * Exceptions *)
(* ================================================================== *)

(** [ValueError] and [AssertionError] are the exceptions raised by
    statements of [mcsd.py] itself ([raise ValueError(msg)], [assert]).
    Any exception raised inside numpy, cvxpy or another dipy module and
    propagated through [mcsd.py] is a [LibraryError], tagged with its
    origin. *)
Inductive exn : Type :=
| ValueError (msg : string)
| AssertionError
| LibraryError (origin : string).

(** The outcome of a computation: it returns [a], it raises [e], or
    ([BeyondReals]) it goes on with a [nan] inside a float array, where
    this model stops following it.  [BeyondReals] is no behaviour of the
    code; it says that the code's behaviour from there on is not
    described. *)
Inductive result (A : Type) : Type :=
| Ok (a : A)
| Raise (e : exn)
| BeyondReals.

Arguments Ok {A} a.
Arguments Raise {A} e.
Arguments BeyondReals {A}.

Definition bind {A B : Type} (c : result A) (k : A -> result B) : result B :=
  match c with
  | Ok a => k a
  | Raise e => Raise e
  | BeyondReals => BeyondReals
  end.

Notation "x <- c ;; k" := (bind c (fun x => k))
  (at level 61, c at next level, right associativity).
Notation "' p <- c ;; k" := (bind c (fun x => let p := x in k))
  (at level 61, p pattern, c at next level, right associativity).

(** An optional value of a collaborator, turned into an exception that
    names the collaborator. *)
Definition from_library {A : Type} (origin : string) (o : option A) : result A :=
  match o with
  | Some a => Ok a
  | None => Raise (LibraryError origin)
  end.

(* ================================================================== *)
(** * Arrays *)
(* ================================================================== *)

(** Comparisons of reals as booleans. *)
Definition Rltb (x y : R) : bool := if Rlt_dec x y then true else false.
Definition Rgtb (x y : R) : bool := Rltb y x.

(** A 2-D numpy array: [shape = (nrows, ncols)], entries [cell i j] for
    [i < nrows] and [j < ncols]. *)
Record ndarray2 : Type := mk_ndarray2 {
  nrows : nat;
  ncols : nat;
  cell : nat -> nat -> R
}.

(** The array with the given rows, each read up to [c] columns. *)
Definition of_rows (c : nat) (rows : list (list R)) : ndarray2 :=
  {| nrows := length rows;
     ncols := c;
     cell := fun i j => nth j (nth i rows []) 0 |}.

(** [sum_upto k f] is [f 0 + ... + f (k-1)]. *)
Definition sum_upto (k : nat) (f : nat -> R) : R :=
  fold_right (fun i acc => f i + acc) 0 (seq 0 k).

(** [A.T] *)
Definition transpose (A : ndarray2) : ndarray2 :=
  {| nrows := ncols A; ncols := nrows A; cell := fun i j => cell A j i |}.

(** [-A] *)
Definition neg (A : ndarray2) : ndarray2 :=
  {| nrows := nrows A; ncols := ncols A; cell := fun i j => - cell A i j |}.

(** [np.full((r, c), v)] *)
Definition full (r c : nat) (v : R) : ndarray2 :=
  {| nrows := r; ncols := c; cell := fun _ _ => v |}.

(** [np.dot(A, B)] for 2-D [A] and [B]. *)
Definition dot (A B : ndarray2) : result ndarray2 :=
  if Nat.eqb (ncols A) (nrows B)
  then Ok {| nrows := nrows A; ncols := ncols B;
             cell := fun i j => sum_upto (ncols A) (fun k => cell A i k * cell B k j) |}
  else Raise (LibraryError "numpy.dot: shapes not aligned").

(** [np.dot(A, v)] for 2-D [A] and 1-D [v]. *)
Definition dot_mv (A : ndarray2) (v : list R) : result (list R) :=
  if Nat.eqb (ncols A) (length v)
  then Ok (map (fun i => sum_upto (ncols A) (fun k => cell A i k * nth k v 0))
               (seq 0 (nrows A)))
  else Raise (LibraryError "numpy.dot: shapes not aligned").

(** [np.dot(v, A)] for 1-D [v] and 2-D [A]. *)
Definition dot_vm (v : list R) (A : ndarray2) : result (list R) :=
  if Nat.eqb (length v) (nrows A)
  then Ok (map (fun j => sum_upto (nrows A) (fun k => nth k v 0 * cell A k j))
               (seq 0 (ncols A)))
  else Raise (LibraryError "numpy.dot: shapes not aligned").

(** Broadcasting of one axis: two lengths are compatible when they are
    equal or one of them is 1. *)
Definition broadcast_len (a b : nat) : option nat :=
  if Nat.eqb a b then Some a
  else if Nat.eqb a 1 then Some b
  else if Nat.eqb b 1 then Some a
  else None.

(** The index read along an axis of length [a] for position [i] of the
    broadcast result. *)
Definition broadcast_ix (a i : nat) : nat := if Nat.eqb a 1 then 0%nat else i.

(** An elementwise binary operator on two 2-D arrays, with broadcasting. *)
Definition broadcast2 (f : R -> R -> R) (A B : ndarray2) : result ndarray2 :=
  match broadcast_len (nrows A) (nrows B), broadcast_len (ncols A) (ncols B) with
  | Some r, Some c =>
      Ok {| nrows := r; ncols := c;
            cell := fun i j =>
              f (cell A (broadcast_ix (nrows A) i) (broadcast_ix (ncols A) j))
                (cell B (broadcast_ix (nrows B) i) (broadcast_ix (ncols B) j)) |}
  | _, _ => Raise (LibraryError "numpy: operands could not be broadcast together")
  end.

(** A 1-D array seen as a 2-D array of one row (how numpy aligns it
    against a 2-D operand). *)
Definition as_row (v : list R) : ndarray2 :=
  {| nrows := 1; ncols := length v; cell := fun _ j => nth j v 0 |}.

(** [np.concatenate([A, B], axis=1)] *)
Definition concatenate_axis1 (A B : ndarray2) : result ndarray2 :=
  if Nat.eqb (nrows A) (nrows B)
  then Ok {| nrows := nrows A; ncols := (ncols A + ncols B)%nat;
             cell := fun i j =>
               if Nat.ltb j (ncols A) then cell A i j else cell B i (j - ncols A)%nat |}
  else Raise (LibraryError "numpy.concatenate: dimensions must match").

(** A Python index into an axis of length [len]: negative indices count
    from the end; anything else out of range is an [IndexError]. *)
Definition py_index (len : nat) (k : Z) : option nat :=
  if ((0 <=? k) && (k <? Z.of_nat len))%Z then Some (Z.to_nat k)
  else if ((k <? 0) && (- Z.of_nat len <=? k))%Z then Some (Z.to_nat (Z.of_nat len + k))
  else None.

(** All Python indices of a list, resolved against an axis. *)
Fixpoint py_indices (len : nat) (ks : list Z) : option (list nat) :=
  match ks with
  | [] => Some []
  | k :: ks' =>
      match py_index len k, py_indices len ks' with
      | Some i, Some is' => Some (i :: is')
      | _, _ => None
      end
  end.

(** [A[np.ix_(rows, cols)]] for integer index arrays.  The two index
    arrays are broadcast to the shape [(len(rows), len(cols))]; numpy
    checks the indices against the axes only when that shape has an
    entry, so an empty selection is returned whatever the indices are. *)
Definition ix_ (A : ndarray2) (rows cols : list Z) : result ndarray2 :=
  if Nat.eqb (length rows * length cols) 0
  then Ok {| nrows := length rows; ncols := length cols; cell := fun _ _ => 0 |}
  else
    match py_indices (nrows A) rows, py_indices (ncols A) cols with
    | Some rs, Some cs =>
        Ok {| nrows := length rs; ncols := length cs;
              cell := fun i j => cell A (nth i rs 0%nat) (nth j cs 0%nat) |}
    | _, _ => Raise (LibraryError "numpy: index out of bounds")
    end.

(** [A[np.ix_(row_mask, col_mask)] = v] for boolean masks that are as long
    as the axes they index. *)
Definition assign_ix_mask (A : ndarray2) (row_mask col_mask : list bool) (v : R) : ndarray2 :=
  {| nrows := nrows A; ncols := ncols A;
     cell := fun i j => if nth i row_mask false && nth j col_mask false then v else cell A i j |}.

(** [a.argmin()] of a 1-D array: the index of the first occurrence of
    the minimum.  [argmin_from bi b i l] scans [l], whose
    first element has index [i], with [b] at index [bi] the least value
    seen so far. *)
Fixpoint argmin_from (bi : nat) (b : R) (i : nat) (l : list R) : nat :=
  match l with
  | [] => bi
  | x :: l' => if Rltb x b then argmin_from i x (S i) l' else argmin_from bi b (S i) l'
  end.

Definition argmin (l : list R) : nat :=
  match l with
  | [] => 0%nat   (* numpy raises here; callers rule the empty array out first *)
  | x :: l' => argmin_from 0 x 1 l'
  end.

(** Python slices [a[k:]] and [a[:k]] of a 1-D array. *)
Definition slice_from {A : Type} (k : Z) (l : list A) : list A :=
  if (0 <=? k)%Z then skipn (Z.to_nat k) l
  else skipn (Z.to_nat (Z.of_nat (length l) + k)) l.

Definition slice_to {A : Type} (k : Z) (l : list A) : list A :=
  if (0 <=? k)%Z then firstn (Z.to_nat k) l
  else firstn (Z.to_nat (Z.of_nat (length l) + k)) l.

(* ================================================================== *)
(** * Module-level constant *)
(* ================================================================== *)

(** [SH_CONST = .5 / np.sqrt(np.pi)] *)
Definition SH_CONST : R := 0.5 / sqrt PI.

(* ================================================================== *)
(** * Floats that may be nan *)
(* ================================================================== *)

(** An entry of a float array that may hold [nan]. *)
Inductive nanfloat : Type :=
| Num (r : R)
| Nan.

(** What numpy stores in a float array for an assigned Python value that
    is a number or [None]: [None] becomes [nan]. *)
Definition float_of_value (v : option R) : nanfloat :=
  match v with
  | Some r => Num r
  | None => Nan
  end.

(** The entries of a float array as real numbers, for the code that
    goes on computing with them; with a [nan] among them the run is not
    followed. *)
Fixpoint real_entries (l : list nanfloat) : result (list R) :=
  match l with
  | [] => Ok []
  | Num r :: l' => rs <- real_entries l' ;; Ok (r :: rs)
  | Nan :: _ => BeyondReals
  end.

(* ================================================================== *)
(** * Input data (external types) *)
(* ================================================================== *)

Definition vec3 : Type := (R * R * R)%type.

(** One measurement of a gradient table: its gradient vector, its
    b-value and whether it is flagged as a b0 measurement. *)
Record gradient : Type := mk_gradient {
  direction : vec3;
  bval : R;
  is_b0 : bool
}.

(** [GradientTable]: its arrays [gradients], [bvals] and [b0s_mask] have
    one entry per measurement, so the table is kept as the list of its
    measurements and the three arrays are read off it. *)
Definition GradientTable : Type := list gradient.

Definition gradients (gtab : GradientTable) : list vec3 := map direction gtab.
Definition bvals (gtab : GradientTable) : list R := map bval gtab.
Definition b0s_mask (gtab : GradientTable) : list bool := map is_b0 gtab.

(** [Sphere]: only its [vertices] are read. *)
Record Sphere : Type := mk_Sphere {
  vertices : list vec3
}.

(* ================================================================== *)
(** * The cvxpy interface *)
(* ================================================================== *)

(** Expressions as [mcsd.py] builds them with cvxpy's constructors and
    overloaded operators. *)
Inductive cvx_expr : Type :=
| CvxVariable (dim : nat)             (* cvx.Variable(dim) *)
| CvxConstant (A : ndarray2)          (* cvx.Constant(A), or a 2-D numpy array *)
| CvxParameter (A : ndarray2)         (* cvx.Parameter(A.shape) with value A *)
| CvxVector (v : list R)              (* a 1-D numpy array *)
| CvxScalar (c : R)                   (* a Python or numpy scalar *)
| CvxMul (a b : cvx_expr)             (* a * b *)
| CvxAdd (a b : cvx_expr)             (* a + b *)
| CvxQuadForm (x P : cvx_expr)        (* cvx.quad_form(x, P) *)
| CvxSum (a : cvx_expr).              (* cvx.sum(a) *)

Inductive cvx_objective : Type :=
| Minimize (e : cvx_expr)
| Maximize (e : cvx_expr).

(** [lhs <= rhs] *)
Inductive cvx_constraint : Type :=
| CvxLe (lhs rhs : cvx_expr).

(** [cvx.Problem(objective, constraints)] *)
Record Problem : Type := mk_Problem {
  objective : cvx_objective;
  constraints : list cvx_constraint
}.

(** What [Problem.solve()] leaves behind: the value it returns, which is
    the optimal objective value or [None] when the program has none
    (an infeasible program without variables), and the [value] of the
    decision variable, [None] when the solver found no optimum. *)
Record Solution : Type := mk_Solution {
  value : option R;
  primal : option (list R)
}.

(** The decision variables an expression mentions, by dimension. *)
Fixpoint expr_variables (e : cvx_expr) : list nat :=
  match e with
  | CvxVariable d => [d]
  | CvxMul a b => expr_variables a ++ expr_variables b
  | CvxAdd a b => expr_variables a ++ expr_variables b
  | CvxQuadForm x P => expr_variables x ++ expr_variables P
  | CvxSum a => expr_variables a
  | CvxConstant _ | CvxParameter _ | CvxVector _ | CvxScalar _ => []
  end.

Definition objective_expr (o : cvx_objective) : cvx_expr :=
  match o with
  | Minimize e => e
  | Maximize e => e
  end.

Definition constraint_variables (c : cvx_constraint) : list nat :=
  match c with
  | CvxLe lhs rhs => expr_variables lhs ++ expr_variables rhs
  end.

(** [Problem.variables()] *)
Definition problem_variables (p : Problem) : list nat :=
  expr_variables (objective_expr (objective p))
  ++ flat_map constraint_variables (constraints p).

(* ================================================================== *)
(** * Collaborators *)
(* ================================================================== *)

(** Functions and data [mcsd.py] imports.  An [option] result is [None]
    when the collaborator raises. *)
Class Collaborators : Type := {
  (** [geo.cart2sphere(x, y, z)] at one point: [(r, theta, phi)] *)
  cart2sphere : R -> R -> R -> R * R * R;
  (** [geo.sphere2cart(r, theta, phi)] at one point: [(x, y, z)] *)
  sphere2cart : R -> R -> R -> R * R * R;
  (** [geo.vec2vec_rotmat(u, v)]: the three rows of a 3x3 matrix *)
  vec2vec_rotmat : vec3 -> vec3 -> vec3 * vec3 * vec3;
  (** [shm.sph_harm_ind_list(sh_order)]: the index arrays [m] and [n]
      have one entry per basis function and are kept as one list of
      [(m, n)] pairs *)
  sph_harm_ind_list : Z -> option (list (Z * Z));
  (** [shm.real_sph_harm(m, n, theta, phi)] at one point *)
  real_sph_harm : Z -> Z -> R -> R -> R;
  (** [shm.gen_dirac(m, n, theta, phi)] *)
  gen_dirac : list Z -> list Z -> R -> R -> list R;
  (** [shm.real_sym_sh_basis(sh_order, theta, phi)[0]] *)
  real_sym_sh_basis : Z -> list R -> list R -> option ndarray2;
  (** [dipy.data.default_sphere] *)
  default_sphere : Sphere;
  (** [la.svd(A, False, False)]: the singular values of [A] *)
  la_svd : ndarray2 -> option (list R);
  (** [Problem.solve()] *)
  cvx_solve : Problem -> option Solution
}.

Section Basis.
Context {C : Collaborators}.

(** [geo.cart2sphere] applied to the columns of an array of points:
    for each point, its angles [(theta, phi)]. *)
Definition angles_of (points : list vec3) : list (R * R) :=
  map (fun v : vec3 =>
         let '(x, y, z) := v in
         let '(_, theta, phi) := cart2sphere x y z in
         (theta, phi)) points.

(** [shm.real_sph_harm(m, n, theta[:, None], phi[:, None])]: one row per
    point, one column per [(m, n)] pair. *)
Definition real_sph_harm_grid (mn : list (Z * Z)) (angles : list (R * R)) : ndarray2 :=
  {| nrows := length angles;
     ncols := length mn;
     cell := fun i j =>
       let '(m, n) := nth j mn (0%Z, 0%Z) in
       let '(theta, phi) := nth i angles (0, 0) in
       real_sph_harm m n theta phi |}.

(** [multi_tissue_basis(gtab, sh_order, iso_comp)] *)
Definition multi_tissue_basis (gtab : GradientTable) (sh_order iso_comp : Z)
  : result (ndarray2 * list Z * list Z) :=
  if (iso_comp <? 1)%Z
  then Raise (ValueError "Multi-tissue CSD requires at least 2 tissue compartments")
  else
    let angles := angles_of (gradients gtab) in
    mn <- from_library "shm.sph_harm_ind_list" (sph_harm_ind_list sh_order) ;;
    let m := map fst mn in
    let n := map snd mn in
    let B := real_sph_harm_grid mn angles in
    let B := assign_ix_mask B (b0s_mask gtab) (map (fun v => (0 <? v)%Z) n) 0 in
    let iso := full (nrows B) (Z.to_nat iso_comp) SH_CONST in
    B <- concatenate_axis1 iso B ;;
    Ok (B, m, n).

End Basis.

(* ================================================================== *)
(** * [MultiShellResponse] *)
(* ================================================================== *)

(** [np.arange(0, stop, 2)] *)
Definition arange_step2 (stop : Z) : list Z :=
  map (fun k => (2 * Z.of_nat k)%Z) (seq 0 (Z.to_nat ((stop + 1) / 2))).

Module MultiShellResponse.

Record t : Type := mk {
  response : ndarray2;
  sh_order : Z;
  n : list Z;
  m : list Z;
  shells : list R
}.

(** The property [iso]. *)
Definition iso (self : t) : Z :=
  (Z.of_nat (ncols (response self)) - sh_order self / 2 - 1)%Z.

Definition __init__ (response : ndarray2) (sh_order : Z) (shells : list R) : result t :=
  let n := arange_step2 (sh_order + 1) in
  let self := {| response := response; sh_order := sh_order;
                 n := n; m := map (fun _ => 0%Z) n; shells := shells |} in
  if (iso self <? 1)%Z
  then Raise (ValueError "sh_order and shape of response do not agree")
  else Ok self.

End MultiShellResponse.

(* ================================================================== *)
(** * Response inflation *)
(* ================================================================== *)

(** [closest(haystack, needle)]: for each needle, [argmin] down the
    column of [abs(haystack[:, None] - needle)].  [argmin] raises on an
    empty haystack. *)
Definition closest (haystack needle : list R) : result (list nat) :=
  match haystack with
  | [] => Raise (LibraryError "numpy.argmin: attempt to get argmin of an empty sequence")
  | _ :: _ => Ok (map (fun b => argmin (map (fun h => Rabs (h - b)) haystack)) needle)
  end.

(** [n.max()] *)
Definition max_list (l : list Z) : option Z :=
  match l with
  | [] => None
  | x :: l' => Some (fold_left Z.max l' x)
  end.

(** The guard of [_inflate_response]:
    [any((n % 2) != 0) or (n.max() // 2) >= response.sh_order];
    [or] does not evaluate [n.max()] when its left operand is true. *)
Definition mismatch (n : list Z) (sh_order : Z) : result bool :=
  if existsb (fun v => negb (v mod 2 =? 0)%Z) n then Ok true
  else
    mx <- from_library "numpy.max: zero-size array" (max_list n) ;;
    Ok (sh_order <=? mx / 2)%Z.

(** The column map [n_idx] of [_inflate_response]:
    [n_idx[:iso] = np.arange(0, iso)] and [n_idx[iso:] = n // 2 + iso],
    for [iso >= 0]. *)
Definition n_idx (iso : Z) (n : list Z) : list Z :=
  map Z.of_nat (seq 0 (Z.to_nat iso)) ++ map (fun v => (v / 2 + iso)%Z) n.

(** [_inflate_response(response, gtab, n, delta)], for a response built
    by [MultiShellResponse.__init__] (so that [response.iso >= 1]). *)
Definition _inflate_response (response : MultiShellResponse.t) (gtab : GradientTable)
  (n : list Z) (delta : list R) : result ndarray2 :=
  bad <- mismatch n (MultiShellResponse.sh_order response) ;;
  if bad then Raise (ValueError "Response and n do not match")
  else
    let iso := MultiShellResponse.iso response in
    b_idx <- closest (MultiShellResponse.shells response) (bvals gtab) ;;
    kernal <- broadcast2 Rdiv (MultiShellResponse.response response) (as_row delta) ;;
    ix_ kernal (map Z.of_nat b_idx) (n_idx iso n).

(* ================================================================== *)
(** * Delta kernels *)
(* ================================================================== *)

(** [out[mask] = v] for a 1-D array and a boolean mask; numpy raises when
    the mask and the array differ in length. *)
Definition assign_mask {A : Type} (out : list A) (mask : list bool) (v : A) : result (list A) :=
  if Nat.eqb (length mask) (length out)
  then Ok (map (fun ob : A * bool => if snd ob then v else fst ob) (combine out mask))
  else Raise (LibraryError "numpy: boolean index did not match indexed array").

(** The positions at which a boolean mask holds. *)
Definition nonzero (mask : list bool) : list nat :=
  filter (fun j => nth j mask false) (seq 0 (length mask)).

(** [B[:, mask]] for a boolean mask over the columns. *)
Definition select_columns (B : ndarray2) (mask : list bool) : result ndarray2 :=
  if Nat.eqb (length mask) (ncols B)
  then
    let cols := nonzero mask in
    Ok {| nrows := nrows B; ncols := length cols;
          cell := fun i k => cell B i (nth k cols 0%nat) |}
  else Raise (LibraryError "numpy: boolean index did not match indexed array").

(** How numpy broadcasts the index arrays [m] and [n] into the columns of
    a basis that is then indexed by a mask as long as [n]: they have the
    same length, or [m] has a single entry. *)
Definition broadcast_orders (m n : list Z) : option (list (Z * Z)) :=
  if Nat.eqb (length m) (length n) then Some (combine m n)
  else
    match m with
    | [m0] => Some (map (fun nj => (m0, nj)) n)
    | _ => None
    end.

Definition dot3 (u v : vec3) : R :=
  let '(u1, u2, u3) := u in
  let '(v1, v2, v3) := v in
  u1 * v1 + u2 * v2 + u3 * v3.

(** A row of [np.dot(vertices, M.T)]. *)
Definition rotate (M : vec3 * vec3 * vec3) (v : vec3) : vec3 :=
  let '(r1, r2, r3) := M in (dot3 r1 v, dot3 r2 v, dot3 r3 v).

Section Delta.
Context {C : Collaborators}.

(** [_basic_delta(iso, m, n, theta, phi)] *)
Definition _basic_delta (iso : Z) (m n : list Z) (theta phi : R) : result (list R) :=
  let wm_d := gen_dirac m n theta phi in
  let iso_d := repeat SH_CONST (Z.to_nat iso) in
  Ok (iso_d ++ wm_d).

(** The arrays [_pos_constrained_delta] computes before it states its
    linear program: [x], [B], [G_temp] and [c_temp]. *)
Definition lp_data (m n : list Z) (theta phi : R) (reg_sphere : Sphere)
  : result (R * ndarray2 * ndarray2 * ndarray2) :=
  let '(x, y, z) := sphere2cart 1 theta phi in
  v0 <- from_library "IndexError: reg_sphere.vertices[0]"
          (nth_error (vertices reg_sphere) 0) ;;
  let M := vec2vec_rotmat v0 (x, y, z) in
  let new_vertices := map (rotate M) (vertices reg_sphere) in
  let tp := angles_of new_vertices in
  mn <- from_library "numpy: shapes of m and n do not match"
          (broadcast_orders m n) ;;
  let B := real_sph_harm_grid mn tp in
  G_temp <- select_columns B (map (fun v => negb (v =? 0)%Z) n) ;;
  if Nat.eqb (nrows G_temp) 0 then Raise (LibraryError "IndexError: G_temp[0]")
  else
    let c_temp := {| nrows := ncols G_temp; ncols := 1;
                     cell := fun i _ => cell G_temp 0 i |} in
    Ok (x, B, G_temp, c_temp).

(** [lp_prob], the problem handed to the solver. *)
Definition lp_prob (x : R) (G_temp c_temp : ndarray2) : Problem :=
  let a_temp := nrows G_temp in
  let b_temp := ncols G_temp in
  let c_int := CvxParameter (neg c_temp) in
  let G := CvxParameter (neg G_temp) in
  let h_temp := full a_temp b_temp (SH_CONST ^ 2) in
  let h := CvxParameter h_temp in
  {| objective := Maximize (CvxSum (CvxConstant c_temp));
     constraints := [CvxLe (CvxMul G (CvxScalar x)) h] |}.

(** [_pos_constrained_delta(iso, m, n, theta, phi, reg_sphere)].
    [cvx.Parameter((c_temp.shape[0], 1))] is rejected by cvxpy when
    [c_temp] has no row, that is when no degree differs from 0.  The
    value [r] that [solve()] returns is a number or [None], and
    [out[n != 0] = r] stores [nan] for [None]: the kernel is returned
    in both cases. *)
Definition _pos_constrained_delta (iso : Z) (m n : list Z) (theta phi : R)
  (reg_sphere : Sphere) : result (list nanfloat) :=
  '(x, B, G_temp, c_temp) <- lp_data m n theta phi reg_sphere ;;
  if Nat.eqb (nrows c_temp) 0
  then Raise (LibraryError "cvxpy.Parameter: invalid dimensions")
  else
    sol <- from_library "cvxpy: Problem.solve" (cvx_solve (lp_prob x G_temp c_temp)) ;;
    let r := value sol in
    let out := repeat (Num 0) (ncols B) in
    out <- assign_mask out (map (fun v => (v =? 0)%Z) n) (Num SH_CONST) ;;
    out <- assign_mask out (map (fun v => negb (v =? 0)%Z) n) (float_of_value r) ;;
    let iso_d := repeat (Num SH_CONST) (Z.to_nat iso) in
    Ok (iso_d ++ out).

(** [delta_functions]; the positivity-constrained kernel is called
    without [reg_sphere] and so uses [default_sphere].  The table is
    read by the model constructor, which divides by the kernel and
    multiplies with the quotient: its entry for the
    positivity-constrained kernel hands on the kernel's numbers, and a
    kernel that holds [nan] ends the followed run ([BeyondReals]; the
    code goes on from there, with [nan] in its arrays). *)
Definition delta_functions (delta_form : string)
  : option (Z -> list Z -> list Z -> R -> R -> result (list R)) :=
  if String.eqb delta_form "basic" then Some _basic_delta
  else if String.eqb delta_form "positivity_constrained"
       then Some (fun iso m n theta phi =>
                    kernel <- _pos_constrained_delta iso m n theta phi default_sphere ;;
                    real_entries kernel)
       else None.

End Delta.

(* ================================================================== *)
(** * The QP fitter *)
(* ================================================================== *)

Section Fitter.
Context {C : Collaborators}.

(** [_rank(A, tol)] *)
Definition _rank (A : ndarray2) (tol : R) : result nat :=
  s <- from_library "numpy.linalg.svd" (la_svd A) ;;
  match s with
  | [] => Raise (LibraryError "IndexError: s[0]")
  | s0 :: _ =>
      let threshold := s0 * tol in
      let rnk := length (filter (fun x => Rgtb x threshold) s) in
      Ok rnk
  end.

(** The problem [quadprog(P, Q, G, H)] states. *)
Definition quadprog_problem (P : ndarray2) (Q : list R) (G : ndarray2) (H : list R) : Problem :=
  let x := CvxVariable (length Q) in
  let P := CvxConstant P in
  {| objective := Minimize (CvxAdd (CvxMul (CvxScalar 0.5) (CvxQuadForm x P))
                                   (CvxMul (CvxVector Q) x));
     constraints := [CvxLe (CvxMul (CvxConstant G) x) (CvxVector H)] |}.

(** [quadprog(P, Q, G, H)]: solve and read [x.value], reshaped to
    [(Q.shape[0],)].  A missing value cannot be reshaped into a vector of
    numbers. *)
Definition quadprog (P : ndarray2) (Q : list R) (G : ndarray2) (H : list R) : result (list R) :=
  sol <- from_library "cvxpy: Problem.solve" (cvx_solve (quadprog_problem P Q G H)) ;;
  match primal sol with
  | Some opt =>
      if Nat.eqb (length opt) (length Q) then Ok opt
      else Raise (LibraryError "numpy.reshape: size mismatch")
  | None => Raise (LibraryError "numpy.reshape: x.value is None")
  end.

End Fitter.

Module QpFitter.
Section Methods.
Context {C : Collaborators}.

Record t : Type := mk {
  _P : ndarray2;
  _X : ndarray2;
  _reg : ndarray2;
  _P_mat : ndarray2;
  _reg_mat : ndarray2;
  _h_mat : list R
}.

Definition __init__ (X reg : ndarray2) : result t :=
  P <- dot (transpose X) X ;;
  rnk <- _rank P 1e-8 ;;
  (* No super res for now. *)
  if Nat.eqb rnk (nrows P)
  then Ok {| _P := P; _X := X; _reg := reg;
             _P_mat := P; _reg_mat := neg reg; _h_mat := [0] |}
  else Raise AssertionError.

Definition __call__ (self : t) (signal : list R) : result (list R) :=
  Q <- dot_mv (transpose (_X self)) signal ;;
  let Q_mat := map Ropp Q in
  quadprog (_P_mat self) Q_mat (_reg_mat self) (_h_mat self).

End Methods.
End QpFitter.

(* ================================================================== *)
(** * [MultiShellDeconvModel] and [MSDeconvFit] *)
(* ================================================================== *)

(** The argument [S0] of [predict]: "ndarray or float". *)
Inductive S0_value : Type :=
| S0_float (v : R)
| S0_array (v : list R).

(** [reg = np.zeros([i + iso for i in odf_reg.shape])],
    [reg[:iso, :iso] = np.eye(iso)], [reg[iso:, iso:] = odf_reg],
    for [iso >= 0]. *)
Definition reg_matrix (iso : nat) (odf_reg : ndarray2) : ndarray2 :=
  {| nrows := (nrows odf_reg + iso)%nat;
     ncols := (ncols odf_reg + iso)%nat;
     cell := fun i j =>
       if Nat.ltb i iso && Nat.ltb j iso then (if Nat.eqb i j then 1 else 0)
       else if Nat.leb iso i && Nat.leb iso j then cell odf_reg (i - iso)%nat (j - iso)%nat
       else 0 |}.

Module MultiShellDeconvModel.
Section Methods.
Context {C : Collaborators}.

Record t : Type := mk {
  gtab : GradientTable;
  fitter : QpFitter.t;
  sh_order : Z;
  _X : ndarray2;
  sphere : Sphere;
  response : MultiShellResponse.t;
  B_dwi : ndarray2;
  m : list Z;
  n : list Z;
  delta : list R
}.

(** [__init__(gtab, response, reg_sphere, iso, delta_form)] *)
Definition __init__ (gtab : GradientTable) (response : MultiShellResponse.t)
  (reg_sphere : Sphere) (iso : Z) (delta_form : string) : result t :=
  let sh_order := MultiShellResponse.sh_order response in
  '(B, m, n) <- multi_tissue_basis gtab sh_order iso ;;
  delta_f <- from_library "KeyError: delta_functions" (delta_functions delta_form) ;;
  delta <- delta_f (MultiShellResponse.iso response) (MultiShellResponse.m response)
             (MultiShellResponse.n response) 0 0 ;;
  multiplier_matrix <- _inflate_response response gtab n delta ;;
  let angles := angles_of (vertices reg_sphere) in
  odf_reg <- from_library "shm.real_sym_sh_basis"
               (real_sym_sh_basis sh_order (map fst angles) (map snd angles)) ;;
  let reg := reg_matrix (Z.to_nat iso) odf_reg in
  X <- broadcast2 Rmult B multiplier_matrix ;;
  fitter <- QpFitter.__init__ X reg ;;
  Ok {| gtab := gtab; fitter := fitter; sh_order := sh_order; _X := X;
        sphere := reg_sphere; response := response; B_dwi := B;
        m := m; n := n; delta := delta |}.

(** [predict(params, gtab=None, S0=None)], for a 1-D [params]. *)
Definition predict (self : t) (params : list R) (gtab : option GradientTable)
  (S0 : option S0_value) : result (list R) :=
  X <- match gtab with
       | None => Ok (_X self)
       | Some gtab =>
           let iso := MultiShellResponse.iso (response self) in
           '(B, m, n) <- multi_tissue_basis gtab (sh_order self) iso ;;
           multiplier_matrix <- _inflate_response (response self) gtab n (delta self) ;;
           broadcast2 Rmult B multiplier_matrix
       end ;;
  dot_vm params (transpose X).

End Methods.
End MultiShellDeconvModel.

Module MSDeconvFit.
Section Methods.
Context {C : Collaborators}.

Record t : Type := mk {
  _shm_coef : list R;
  mask : option (list bool);
  model : MultiShellDeconvModel.t
}.

Definition __init__ (model : MultiShellDeconvModel.t) (coeff : list R)
  (mask : option (list bool)) : t :=
  {| _shm_coef := coeff; mask := mask; model := model |}.

(** The property [shm_coeff]: [self._shm_coef[..., iso:]] *)
Definition shm_coeff (self : t) : list R :=
  slice_from (MultiShellResponse.iso (MultiShellDeconvModel.response (model self)))
             (_shm_coef self).

(** The property [volume_fractions]:
    [self._shm_coef[..., :tissue_classes] / SH_CONST] *)
Definition volume_fractions (self : t) : list R :=
  let tissue_classes := (MultiShellResponse.iso (MultiShellDeconvModel.response (model self)) + 1)%Z in
  map (fun c => c / SH_CONST) (slice_to tissue_classes (_shm_coef self)).

(** [MultiShellDeconvModel.fit(data)] on the signal of one voxel. *)
Definition fit (self : MultiShellDeconvModel.t) (data : list R) : result t :=
  coeff <- QpFitter.__call__ (MultiShellDeconvModel.fitter self) data ;;
  Ok (__init__ self coeff None).

End Methods.
End MSDeconvFit.

(* ================================================================== *)
(** * Predicates used in the statements *)
(* ================================================================== *)

(** [i] is the index [argmin] documents for [l]: a least element,
    and none before it is as small. *)
Definition first_minimum (l : list R) (i : nat) : Prop :=
  (i < length l)%nat /\
  (forall k, (k < length l)%nat -> nth i l 0 <= nth k l 0) /\
  (forall k, (k < i)%nat -> nth i l 0 < nth k l 0).

(** The shell [closest] picks for b-value [b]: index [i] is nearest to
    [b] in absolute difference, and every earlier shell is strictly
    farther. *)
Definition nearest_shell (shells : list R) (b : R) (i : nat) : Prop :=
  (i < length shells)%nat /\
  (forall k, (k < length shells)%nat ->
             Rabs (nth i shells 0 - b) <= Rabs (nth k shells 0 - b)) /\
  (forall k, (k < i)%nat -> Rabs (nth i shells 0 - b) < Rabs (nth k shells 0 - b)).

(** [mx] is the largest element of [l]. *)
Definition is_max (l : list Z) (mx : Z) : Prop :=
  In mx l /\ forall v, In v l -> (v <= mx)%Z.

(** The condition under which the guard fires: a target degree is odd,
    or half the largest target degree reaches the response's order. *)
Definition degrees_mismatch (n : list Z) (sh_order : Z) : Prop :=
  (exists v, In v n /\ (v mod 2 <> 0)%Z) \/
  (exists mx, is_max n mx /\ (sh_order <= mx / 2)%Z).

(** The Gram matrix [X^T X]. *)
Definition gram (X : ndarray2) : ndarray2 :=
  {| nrows := ncols X; ncols := ncols X;
     cell := fun i j => sum_upto (nrows X) (fun k => cell X k i * cell X k j) |}.

(* ================================================================== *)
(** * Sample data *)
(* ================================================================== *)

(** A response with three shells, one isotropic compartment and the
    degrees 0 and 2 ([sh_order = 2]). *)
Definition sample_response_array : ndarray2 :=
  of_rows 3 [[1; 2; 3]; [4; 5; 6]; [7; 8; 9]].

Definition sample_shells : list R := [0; 1000; 2000].

Definition sample_response : MultiShellResponse.t :=
  {| MultiShellResponse.response := sample_response_array;
     MultiShellResponse.sh_order := 2;
     MultiShellResponse.n := [0; 2]%Z;
     MultiShellResponse.m := [0; 0]%Z;
     MultiShellResponse.shells := sample_shells |}.

(** One b0 measurement and one measurement at b = 1490. *)
Definition sample_b0 : gradient :=
  {| direction := (0, 0, 0); bval := 0; is_b0 := true |}.

Definition sample_dwi : gradient :=
  {| direction := (0, 0, 1); bval := 1490; is_b0 := false |}.

Definition sample_gtab : GradientTable := [sample_b0; sample_dwi].

(* ================================================================== *)
(** * The quadratic program of [quadprog]'s docstring *)
(* ================================================================== *)

(** "minimize 1/2 x' P x + Q' x subject to G x <= H" *)

Definition dot_vv (u v : list R) : R :=
  sum_upto (length u) (fun i => nth i u 0 * nth i v 0).

(** [x' P x] *)
Definition quad_form (x : list R) (P : ndarray2) : R :=
  sum_upto (length x) (fun i =>
    sum_upto (length x) (fun j => nth i x 0 * cell P i j * nth j x 0)).

Definition qp_objective (P : ndarray2) (Q : list R) (x : list R) : R :=
  0.5 * quad_form x P + dot_vv Q x.

(** [G x <= H], row by row, [H] broadcast against [G x]. *)
Definition qp_feasible (G : ndarray2) (H : list R) (x : list R) : Prop :=
  forall i, (i < nrows G)%nat ->
    sum_upto (ncols G) (fun k => cell G i k * nth k x 0)
    <= nth (broadcast_ix (length H) i) H 0.

Definition qp_minimizer (P : ndarray2) (Q : list R) (G : ndarray2) (H : list R)
  (x : list R) : Prop :=
  length x = length Q /\
  qp_feasible G H x /\
  forall y, length y = length Q -> qp_feasible G H y ->
            qp_objective P Q x <= qp_objective P Q y.

Section SolverSoundness.
Context {C : Collaborators}.

(** The solver answers the quadratic program of [quadprog]'s docstring
    for the data [P], [Q], [G], [H]. *)
Definition solver_sound_on (P : ndarray2) (Q : list R) (G : ndarray2) (H : list R) : Prop :=
  forall sol xs,
    cvx_solve (quadprog_problem P Q G H) = Some sol ->
    primal sol = Some xs ->
    qp_minimizer P Q G H xs.

End SolverSoundness.

(* ================================================================== *)
(** * Sample collaborators *)
(* ================================================================== *)

(** One instance of [Collaborators], used to run the model on concrete
    inputs.  The index list is the one of [sh_order] 0 and 2; the
    singular values are those of a symmetric positive semi-definite
    matrix of size 1 or 2; the solver answers the one-dimensional
    quadratic program with constraint [-x <= h] and the variable-free
    linear program, for which it returns the constant objective when
    the constraint holds in every cell and [None] when it does not; the
    remaining functions are stand-ins of the right type. *)

Definition sample_sph_harm_ind_list (sh_order : Z) : option (list (Z * Z)) :=
  if (sh_order =? 0)%Z then Some [(0, 0)%Z]
  else if (sh_order =? 2)%Z
       then Some [(0, 0); (-2, 2); (-1, 2); (0, 2); (1, 2); (2, 2)]%Z
       else None.

Definition sample_real_sph_harm (m n : Z) (theta phi : R) : R :=
  if (n =? 0)%Z then SH_CONST else cos theta + IZR m * sin phi.

Definition sample_svd (A : ndarray2) : option (list R) :=
  if Nat.eqb (nrows A) 1 then Some [Rabs (cell A 0 0)]
  else if Nat.eqb (nrows A) 2
       then
         let half_trace := (cell A 0 0 + cell A 1 1) / 2 in
         let radius := sqrt (((cell A 0 0 - cell A 1 1) / 2) ^ 2 + cell A 0 1 ^ 2) in
         Some [half_trace + radius; half_trace - radius]
       else None.

Definition Req_bool (x y : R) : bool := if Req_dec_T x y then true else false.

Definition forall_cells (r c : nat) (p : nat -> nat -> bool) : bool :=
  forallb (fun i => forallb (fun j => p i j) (seq 0 c)) (seq 0 r).

Definition sample_solve (p : Problem) : option Solution :=
  match objective p, constraints p with
  | Minimize (CvxAdd (CvxMul (CvxScalar c) (CvxQuadForm (CvxVariable 1) (CvxConstant P)))
                     (CvxMul (CvxVector [q]) (CvxVariable 1))),
    [CvxLe (CvxMul (CvxConstant G) (CvxVariable 1)) (CvxVector [h])] =>
      if Rltb 0 (c * cell P 0 0) && Req_bool c 0.5 && Req_bool (cell G 0 0) (- 1)
         && Nat.eqb (nrows G) 1 && Nat.eqb (ncols G) 1
      then
        let x := Rmax (- h) (- q / cell P 0 0) in
        Some {| value := Some (0.5 * (x * cell P 0 0 * x) + q * x); primal := Some [x] |}
      else None
  | Maximize (CvxSum (CvxConstant c)),
    [CvxLe (CvxMul (CvxParameter G) (CvxScalar x)) (CvxParameter h)] =>
      if forall_cells (nrows G) (ncols G)
           (fun i j => negb (Rltb (cell h i j) (cell G i j * x)))
      then
        Some {| value := Some (sum_upto (nrows c)
                                 (fun i => sum_upto (ncols c) (fun j => cell c i j)));
                primal := None |}
      else Some {| value := None; primal := None |}
  | _, _ => None
  end.

Definition sample_collaborators : Collaborators :=
  {| cart2sphere := fun x y z => (sqrt (x * x + y * y + z * z), z, y);
     sphere2cart := fun r theta phi =>
       (r * sin theta * cos phi, r * sin theta * sin phi, r * cos theta);
     vec2vec_rotmat := fun _ _ => ((1, 0, 0), (0, 1, 0), (0, 0, 1));
     sph_harm_ind_list := sample_sph_harm_ind_list;
     real_sph_harm := sample_real_sph_harm;
     gen_dirac := fun m n theta phi => map (fun _ => 1) n;
     real_sym_sh_basis := fun sh_order theta phi =>
       match sample_sph_harm_ind_list sh_order with
       | Some mn =>
           Some {| nrows := length theta; ncols := length mn;
                   cell := fun i j =>
                     sample_real_sph_harm (fst (nth j mn (0, 0)%Z)) (snd (nth j mn (0, 0)%Z))
                                          (nth i theta 0) (nth i phi 0) |}
       | None => None
       end;
     default_sphere := {| vertices := [(0, 0, 1)] |};
     la_svd := sample_svd;
     cvx_solve := sample_solve |}.

(** A forward operator with one column, and one whose two columns are
    equal (so that its Gram matrix is rank-deficient). *)
Definition sample_X : ndarray2 := of_rows 1 [[1]].
Definition sample_reg : ndarray2 := of_rows 1 [[1]].
Definition sample_X_duplicate_columns : ndarray2 := of_rows 2 [[1; 1]].
Definition sample_reg2 : ndarray2 := of_rows 2 [[1; 0]; [0; 1]].

(** The fitter [QpFitter(sample_X, sample_reg)]. *)
Definition sample_fitter : QpFitter.t :=
  {| QpFitter._P := gram sample_X; QpFitter._X := sample_X; QpFitter._reg := sample_reg;
     QpFitter._P_mat := gram sample_X; QpFitter._reg_mat := neg sample_reg;
     QpFitter._h_mat := [0] |}.

(** A model object around [sample_response] and a fit with five raw
    coefficients. *)
Definition sample_model : MultiShellDeconvModel.t :=
  {| MultiShellDeconvModel.gtab := sample_gtab;
     MultiShellDeconvModel.fitter := sample_fitter;
     MultiShellDeconvModel.sh_order := 2;
     MultiShellDeconvModel._X := sample_X;
     MultiShellDeconvModel.sphere := {| vertices := [(0, 0, 1)] |};
     MultiShellDeconvModel.response := sample_response;
     MultiShellDeconvModel.B_dwi := sample_X;
     MultiShellDeconvModel.m := [0]%Z;
     MultiShellDeconvModel.n := [0]%Z;
     MultiShellDeconvModel.delta := [1; 1; 1] |}.

Definition sample_fit : MSDeconvFit.t :=
  MSDeconvFit.__init__ sample_model [10; 20; 30; 40; 50] None.

(* ================================================================== *)
(** * A second sample: the whole pipeline *)
(* ================================================================== *)

(** Collaborators with a basis truncated to degree 0, whose single
    harmonic is the constant [SH_CONST]. *)
Definition pipeline_collaborators : Collaborators :=
  {| cart2sphere := fun x y z => (sqrt (x * x + y * y + z * z), z, y);
     sphere2cart := fun r theta phi =>
       (r * sin theta * cos phi, r * sin theta * sin phi, r * cos theta);
     vec2vec_rotmat := fun _ _ => ((1, 0, 0), (0, 1, 0), (0, 0, 1));
     sph_harm_ind_list := fun _ => Some [(0, 0)%Z];
     real_sph_harm := sample_real_sph_harm;
     gen_dirac := fun m n theta phi => map (fun _ => SH_CONST) n;
     real_sym_sh_basis := fun sh_order theta phi =>
       Some {| nrows := length theta; ncols := 1; cell := fun _ _ => SH_CONST |};
     default_sphere := {| vertices := [(0, 0, 1)] |};
     la_svd := sample_svd;
     cvx_solve := sample_solve |}.

(** Two shells, one isotropic compartment, degrees 0 and 2; the first
    shell answers only in the isotropic column, the second only in the
    column of degree 0. *)
Definition pipeline_response_array : ndarray2 :=
  of_rows 3 [[1; 0; 0]; [0; 1; 0]].

Definition pipeline_shells : list R := [0; 1000].

Definition pipeline_response : MultiShellResponse.t :=
  {| MultiShellResponse.response := pipeline_response_array;
     MultiShellResponse.sh_order := 2;
     MultiShellResponse.n := [0; 2]%Z;
     MultiShellResponse.m := [0; 0]%Z;
     MultiShellResponse.shells := pipeline_shells |}.

Definition pipeline_gtab : GradientTable :=
  [ {| direction := (0, 0, 0); bval := 0; is_b0 := true |};
    {| direction := (0, 0, 1); bval := 1000; is_b0 := false |} ].

Definition pipeline_sphere : Sphere := {| vertices := [(0, 0, 1)] |}.

Definition other_sphere : Sphere := {| vertices := [(1, 0, 0)] |}.

(* ================================================================== *)
(** * Vector operations used in the statements *)
(* ================================================================== *)

(** [c * u + v], entry by entry, for 1-D arrays of one length. *)
Definition axpy (c : R) (u v : list R) : list R :=
  map (fun ab : R * R => c * fst ab + snd ab) (combine u v).

(** The squared residual [|X x - signal|^2]. *)
Definition residual2 (X : ndarray2) (signal x : list R) : R :=
  sum_upto (nrows X) (fun i =>
    (sum_upto (ncols X) (fun j => cell X i j * nth j x 0) - nth i signal 0) ^ 2).

(** [reg . x >= 0], row by row. *)
Definition nonneg_on (reg : ndarray2) (x : list R) : Prop :=
  forall i, (i < nrows reg)%nat ->
    0 <= sum_upto (ncols reg) (fun k => cell reg i k * nth k x 0).

(* ================================================================== *)
(** * Properties *)
(* ================================================================== *)

(** ** Reasoning about [result] *)

Lemma bind_Ok_inv {A B : Type} (c : result A) (k : A -> result B) (b : B) :
  bind c k = Ok b -> exists a, c = Ok a /\ k a = Ok b.
Proof.
  destruct c as [a|e|]; simpl; intros H.
  - exists a; split; [reflexivity | exact H].
  - discriminate H.
  - discriminate H.
Qed.

Lemma bind_Raise_inv {A B : Type} (c : result A) (k : A -> result B) (e : exn) :
  bind c k = Raise e -> c = Raise e \/ exists a, c = Ok a /\ k a = Raise e.
Proof.
  destruct c as [a|e'|]; simpl; intros H.
  - right; exists a; split; [reflexivity | exact H].
  - left; inversion H; reflexivity.
  - discriminate H.
Qed.

Lemma from_library_Ok_inv {A : Type} (origin : string) (o : option A) (a : A) :
  from_library origin o = Ok a -> o = Some a.
Proof. destruct o; simpl; intros H; inversion H; reflexivity. Qed.

Lemma from_library_Raise_inv {A : Type} (origin : string) (o : option A) (e : exn) :
  from_library origin o = Raise e -> e = LibraryError origin.
Proof. destruct o; simpl; intros H; inversion H; reflexivity. Qed.

(** Splits a hypothesis [bind c k = Ok b] into its two steps. *)
Ltac bind_ok H x Hx :=
  apply bind_Ok_inv in H; destruct H as [x [Hx H]].

(** Decides a comparison of two real numerals inside [Rltb]. *)
Ltac Rltb_decide :=
  repeat match goal with
         | |- context [Rltb ?x ?y] =>
             unfold Rltb at 1; destruct (Rlt_dec x y); [ try (exfalso; lra) | try (exfalso; lra) ]
         end.

(** Evaluates [Rabs] of a numeral. *)
Ltac Rabs_decide :=
  repeat match goal with
         | |- context [Rabs ?x] =>
             first [ replace (Rabs x) with x by (symmetry; apply Rabs_pos_eq; lra)
                   | replace (Rabs x) with (- x) by (symmetry; apply Rabs_left; lra) ]
         end.

(** ** [argmin]: first occurrence of the minimum *)

Lemma argmin_from_first_minimum :
  forall (l pre : list R) (bi : nat) (b : R),
    (bi < length pre)%nat ->
    nth bi pre 0 = b ->
    (forall k, (k < length pre)%nat -> b <= nth k pre 0) ->
    (forall k, (k < bi)%nat -> b < nth k pre 0) ->
    first_minimum (pre ++ l) (argmin_from bi b (length pre) l).
Proof.
  induction l as [|x l IH]; intros pre bi b Hbi Hb Hmin Hfirst.
  - simpl. rewrite app_nil_r. unfold first_minimum. rewrite Hb. auto.
  - simpl.
    replace (pre ++ x :: l) with ((pre ++ [x]) ++ l)
      by (rewrite <- app_assoc; reflexivity).
    replace (S (length pre)) with (length (pre ++ [x]))
      by (rewrite length_app; simpl; lia).
    unfold Rltb. destruct (Rlt_dec x b) as [Hlt|Hge].
    + replace (length pre) with (length (pre ++ [x]) - 1)%nat at 1
        by (rewrite length_app; simpl; lia).
      apply IH.
      * rewrite length_app; simpl; lia.
      * rewrite length_app; simpl.
        replace (length pre + 1 - 1)%nat with (length pre) by lia.
        rewrite app_nth2 by lia. rewrite Nat.sub_diag. reflexivity.
      * intros k Hk. rewrite length_app in Hk; simpl in Hk.
        destruct (Nat.lt_ge_cases k (length pre)) as [Hk'|Hk'].
        -- rewrite app_nth1 by exact Hk'. specialize (Hmin k Hk'). lra.
        -- rewrite app_nth2 by exact Hk'.
           replace (k - length pre)%nat with 0%nat by lia. simpl. lra.
      * intros k Hk. rewrite length_app in Hk; simpl in Hk.
        rewrite app_nth1 by lia.
        assert (Hk' : (k < length pre)%nat) by lia.
        specialize (Hmin k Hk'). lra.
    + apply IH.
      * rewrite length_app; simpl; lia.
      * rewrite app_nth1 by exact Hbi. exact Hb.
      * intros k Hk. rewrite length_app in Hk; simpl in Hk.
        destruct (Nat.lt_ge_cases k (length pre)) as [Hk'|Hk'].
        -- rewrite app_nth1 by exact Hk'. apply Hmin; exact Hk'.
        -- rewrite app_nth2 by exact Hk'.
           replace (k - length pre)%nat with 0%nat by lia. simpl. lra.
      * intros k Hk. rewrite app_nth1 by lia. apply Hfirst; exact Hk.
Qed.

Lemma argmin_first_minimum (l : list R) :
  l <> [] -> first_minimum l (argmin l).
Proof.
  destruct l as [|x l]; intros Hne; [congruence|].
  unfold argmin.
  change (x :: l) with ([x] ++ l).
  change 1%nat with (length [x]).
  apply argmin_from_first_minimum; simpl.
  - lia.
  - reflexivity.
  - intros k Hk. assert (k = 0%nat) by lia. subst. lra.
  - intros k Hk. lia.
Qed.

Lemma first_minimum_nearest_shell (shells : list R) (b : R) (i : nat) :
  first_minimum (map (fun h => Rabs (h - b)) shells) i -> nearest_shell shells b i.
Proof.
  unfold first_minimum, nearest_shell. rewrite length_map.
  intros [Hi [Hmin Hfirst]].
  assert (Hnth : forall k, (k < length shells)%nat ->
            nth k (map (fun h => Rabs (h - b)) shells) 0 = Rabs (nth k shells 0 - b)).
  { intros k Hk.
    rewrite (nth_indep _ 0 (Rabs (0 - b))) by (rewrite length_map; exact Hk).
    apply (map_nth (fun h => Rabs (h - b))). }
  split; [exact Hi|]. split.
  - intros k Hk. rewrite <- (Hnth i Hi), <- (Hnth k Hk). apply Hmin; exact Hk.
  - intros k Hk. rewrite <- (Hnth i Hi), <- (Hnth k) by lia. apply Hfirst; exact Hk.
Qed.

Lemma closest_Ok_inv (haystack needle : list R) (idx : list nat) :
  closest haystack needle = Ok idx ->
  haystack <> [] /\
  idx = map (fun b => argmin (map (fun h => Rabs (h - b)) haystack)) needle.
Proof.
  unfold closest. destruct haystack as [|h0 hs]; intros H; [discriminate H|].
  inversion H. split; [discriminate | reflexivity].
Qed.

Lemma closest_nearest_shell (shells bvals : list R) (idx : list nat) (j : nat) (b : R) :
  closest shells bvals = Ok idx ->
  nth_error bvals j = Some b ->
  exists i, nth_error idx j = Some i /\ nearest_shell shells b i.
Proof.
  intros Hc Hb. apply closest_Ok_inv in Hc. destruct Hc as [Hne ->].
  exists (argmin (map (fun h => Rabs (h - b)) shells)). split.
  - rewrite nth_error_map, Hb. reflexivity.
  - apply first_minimum_nearest_shell. apply argmin_first_minimum.
    destruct shells; [congruence | discriminate].
Qed.

Lemma closest_example : closest [0; 1000; 2000] [1490] = Ok [1%nat].
Proof.
  unfold closest, argmin. simpl.
  replace (0 - 1490) with (- 1490) by lra.
  replace (1000 - 1490) with (- 490) by lra.
  replace (2000 - 1490) with 510 by lra.
  Rabs_decide. Rltb_decide. reflexivity.
Qed.

(** A tie: 1500 is as far from 1000 as from 2000, and the lower index
    is returned. *)
Lemma closest_tie_example : closest [0; 1000; 2000] [1500] = Ok [1%nat].
Proof.
  unfold closest, argmin. simpl.
  replace (0 - 1500) with (- 1500) by lra.
  replace (1000 - 1500) with (- 500) by lra.
  replace (2000 - 1500) with 500 by lra.
  Rabs_decide. Rltb_decide. reflexivity.
Qed.

(** ** Python indices *)

Lemma py_index_of_nat (len k : nat) :
  (k < len)%nat -> py_index len (Z.of_nat k) = Some k.
Proof.
  intros Hk. unfold py_index.
  replace ((0 <=? Z.of_nat k)%Z) with true by (symmetry; apply Z.leb_le; lia).
  replace ((Z.of_nat k <? Z.of_nat len)%Z) with true by (symmetry; apply Z.ltb_lt; lia).
  simpl. rewrite Nat2Z.id. reflexivity.
Qed.

Lemma py_index_of_nat_inv (len k i : nat) :
  py_index len (Z.of_nat k) = Some i -> i = k /\ (k < len)%nat.
Proof.
  unfold py_index.
  replace ((Z.of_nat k <? 0)%Z) with false by (symmetry; apply Z.ltb_ge; lia).
  replace ((0 <=? Z.of_nat k)%Z) with true by (symmetry; apply Z.leb_le; lia).
  simpl. destruct (Z.ltb_spec (Z.of_nat k) (Z.of_nat len)) as [Hlt|Hge]; intros H.
  - inversion H. rewrite Nat2Z.id. split; [reflexivity | lia].
  - discriminate H.
Qed.

Lemma py_indices_of_nat_inv (len : nat) (l rs : list nat) :
  py_indices len (map Z.of_nat l) = Some rs -> rs = l.
Proof.
  revert rs. induction l as [|k l IH]; intros rs H; simpl in H.
  - inversion H; reflexivity.
  - destruct (py_index len (Z.of_nat k)) as [i|] eqn:Hi; [|discriminate H].
    destruct (py_indices len (map Z.of_nat l)) as [is'|] eqn:His; [|discriminate H].
    inversion H; subst. apply py_index_of_nat_inv in Hi. destruct Hi as [-> _].
    f_equal. apply IH. reflexivity.
Qed.

Lemma py_indices_length (len : nat) (ks : list Z) (rs : list nat) :
  py_indices len ks = Some rs -> length rs = length ks.
Proof.
  revert rs. induction ks as [|k ks IH]; intros rs H; simpl in H.
  - inversion H; reflexivity.
  - destruct (py_index len k); [|discriminate H].
    destruct (py_indices len ks) as [is'|]; [|discriminate H].
    inversion H; subst. simpl. f_equal. apply IH. reflexivity.
Qed.

(** ** [MultiShellResponse] *)

Lemma MultiShellResponse_init_inv (resp : ndarray2) (so : Z) (shells : list R)
  (self : MultiShellResponse.t) :
  MultiShellResponse.__init__ resp so shells = Ok self ->
  MultiShellResponse.response self = resp /\
  MultiShellResponse.sh_order self = so /\
  MultiShellResponse.shells self = shells /\
  MultiShellResponse.n self = arange_step2 (so + 1) /\
  MultiShellResponse.m self = map (fun _ => 0%Z) (arange_step2 (so + 1)) /\
  (1 <= MultiShellResponse.iso self)%Z.
Proof.
  unfold MultiShellResponse.__init__.
  destruct (Z.ltb_spec
    (MultiShellResponse.iso
       {| MultiShellResponse.response := resp; MultiShellResponse.sh_order := so;
          MultiShellResponse.n := arange_step2 (so + 1);
          MultiShellResponse.m := map (fun _ => 0%Z) (arange_step2 (so + 1));
          MultiShellResponse.shells := shells |}) 1) as [Hlt|Hge]; intros H.
  - discriminate H.
  - inversion H; subst; simpl. repeat split; try reflexivity. exact Hge.
Qed.

(** ** The guard of [_inflate_response] *)

Lemma fold_left_max_spec (l : list Z) (x : Z) :
  (In (fold_left Z.max l x) (x :: l)) /\
  (forall v, In v (x :: l) -> (v <= fold_left Z.max l x)%Z).
Proof.
  revert x. induction l as [|y l IH]; intros x; simpl.
  - split; [left; reflexivity|]. intros v [->|[]]. lia.
  - destruct (IH (Z.max x y)) as [Hin Hle]. split.
    + destruct Hin as [Heq|Hin].
      * rewrite <- Heq. destruct (Z.max_spec x y) as [[_ ->]|[_ ->]]; auto.
      * right; right; exact Hin.
    + intros v Hv.
      assert (Hxy : (x <= Z.max x y)%Z /\ (y <= Z.max x y)%Z) by lia.
      destruct Hv as [Hv|[Hv|Hv]].
      * transitivity (Z.max x y); [lia|]. apply Hle. left; reflexivity.
      * transitivity (Z.max x y); [lia|]. apply Hle. left; reflexivity.
      * apply Hle. right; exact Hv.
Qed.

Lemma max_list_is_max (l : list Z) (mx : Z) :
  max_list l = Some mx <-> is_max l mx.
Proof.
  unfold max_list, is_max. destruct l as [|x l].
  - split; [discriminate | intros [[] _]].
  - destruct (fold_left_max_spec l x) as [Hin Hle]. split.
    + intros H; inversion H; subst. split; assumption.
    + intros [Hin' Hle']. f_equal.
      apply Z.le_antisymm; [apply Hle'; exact Hin | apply Hle; exact Hin'].
Qed.

Lemma existsb_odd (n : list Z) :
  existsb (fun v => negb (v mod 2 =? 0)%Z) n = true <->
  exists v, In v n /\ (v mod 2 <> 0)%Z.
Proof.
  rewrite existsb_exists. split; intros [v [Hin Hv]]; exists v; split; try exact Hin.
  - apply negb_true_iff in Hv. apply Z.eqb_neq in Hv. exact Hv.
  - apply negb_true_iff. apply Z.eqb_neq. exact Hv.
Qed.

Lemma mismatch_true_iff (n : list Z) (sh_order : Z) :
  mismatch n sh_order = Ok true <-> degrees_mismatch n sh_order.
Proof.
  unfold mismatch, degrees_mismatch.
  destruct (existsb (fun v => negb (v mod 2 =? 0)%Z) n) eqn:Hodd.
  - split; [intros _; left; apply existsb_odd; exact Hodd | reflexivity].
  - assert (Hno : ~ exists v, In v n /\ (v mod 2 <> 0)%Z).
    { intros H. apply existsb_odd in H. congruence. }
    destruct (max_list n) as [mx|] eqn:Hmax; simpl.
    + apply max_list_is_max in Hmax. split.
      * intros H. inversion H as [Hle]. right. exists mx. split; [exact Hmax|].
        apply Z.leb_le. exact Hle.
      * intros [H|[mx' [Hmax' Hle]]]; [contradiction|].
        assert (mx' = mx).
        { destruct Hmax as [Hin Hub], Hmax' as [Hin' Hub'].
          apply Z.le_antisymm; [apply Hub | apply Hub']; assumption. }
        subst. f_equal. apply Z.leb_le. exact Hle.
    + split; [discriminate|]. intros [H|[mx [Hmax' _]]]; [contradiction|].
      apply max_list_is_max in Hmax'. congruence.
Qed.

(** With no odd degree, halving the largest degree is exact:
    [mx // 2 >= sh_order] says [mx / 2 >= sh_order]. *)
Lemma degrees_mismatch_exact_half (n : list Z) (sh_order : Z) :
  degrees_mismatch n sh_order <->
  (exists v, In v n /\ (v mod 2 <> 0)%Z) \/
  (exists mx, is_max n mx /\ (2 * sh_order <= mx)%Z).
Proof.
  unfold degrees_mismatch. split; intros [H|[mx [Hmax Hle]]]; try (left; exact H).
  - right. exists mx. split; [exact Hmax|].
    pose proof (Z.mul_div_le mx 2 ltac:(lia)). lia.
  - destruct (Z.eq_dec (mx mod 2) 0) as [Heven|Hodd].
    + right. exists mx. split; [exact Hmax|].
      apply Z.div_le_lower_bound; lia.
    + left. exists mx. split; [apply Hmax | exact Hodd].
Qed.

Lemma mismatch_false_nonempty (n : list Z) (sh_order : Z) :
  mismatch n sh_order = Ok false -> n <> [].
Proof.
  unfold mismatch. destruct n as [|v n]; [simpl; discriminate | discriminate].
Qed.

Lemma inflate_response_Ok_inv (response : MultiShellResponse.t) (gtab : GradientTable)
  (n : list Z) (delta : list R) (M : ndarray2) :
  _inflate_response response gtab n delta = Ok M ->
  mismatch n (MultiShellResponse.sh_order response) = Ok false /\
  exists b_idx kernal,
    closest (MultiShellResponse.shells response) (bvals gtab) = Ok b_idx /\
    broadcast2 Rdiv (MultiShellResponse.response response) (as_row delta) = Ok kernal /\
    nrows M = length b_idx /\
    ncols M = length (n_idx (MultiShellResponse.iso response) n) /\
    (gtab <> [] ->
     exists cols,
       py_indices (nrows kernal) (map Z.of_nat b_idx) = Some b_idx /\
       py_indices (ncols kernal) (n_idx (MultiShellResponse.iso response) n) = Some cols /\
       forall i j, cell M i j = cell kernal (nth i b_idx 0%nat) (nth j cols 0%nat)).
Proof.
  unfold _inflate_response. intros H.
  bind_ok H bad Hbad. destruct bad; [discriminate H|].
  split; [exact Hbad|].
  bind_ok H b_idx Hb. bind_ok H kernal Hk.
  exists b_idx, kernal. split; [exact Hb|]. split; [exact Hk|].
  assert (Hlen : length b_idx = length gtab).
  { apply closest_Ok_inv in Hb. destruct Hb as [_ ->].
    unfold bvals. rewrite !length_map. reflexivity. }
  unfold ix_ in H. rewrite length_map in H.
  destruct (Nat.eqb_spec (length b_idx * length (n_idx (MultiShellResponse.iso response) n)) 0)
    as [Hz|Hnz].
  - inversion H; subst M; simpl. split; [reflexivity|]. split; [reflexivity|].
    intros Hne. exfalso.
    apply mismatch_false_nonempty in Hbad.
    unfold n_idx in Hz. rewrite length_app, !length_map in Hz.
    destruct gtab; [congruence|]. destruct n; [congruence|].
    simpl in Hlen, Hz. rewrite Hlen in Hz. simpl in Hz. lia.
  - destruct (py_indices (nrows kernal) (map Z.of_nat b_idx)) as [rs|] eqn:Hrs;
      [|discriminate H].
    destruct (py_indices (ncols kernal) _) as [cs|] eqn:Hcs; [|discriminate H].
    pose proof (py_indices_of_nat_inv _ _ _ Hrs) as Hrs'. subst rs.
    pose proof (py_indices_length _ _ _ Hcs) as Hcl.
    inversion H; subst M; simpl.
    split; [reflexivity|]. split; [exact Hcl|].
    intros _. exists cs. repeat split; auto.
Qed.

Lemma inflate_response_mismatch (response : MultiShellResponse.t) (gtab : GradientTable)
  (n : list Z) (delta : list R) :
  _inflate_response response gtab n delta = Raise (ValueError "Response and n do not match")
  <-> mismatch n (MultiShellResponse.sh_order response) = Ok true.
Proof.
  unfold _inflate_response. split.
  - intros H. apply bind_Raise_inv in H. destruct H as [H|[bad [Hbad H]]].
    + unfold mismatch in H.
      destruct (existsb _ n); [discriminate H|].
      apply bind_Raise_inv in H. destruct H as [H|[mx [_ H]]]; [|discriminate H].
      apply from_library_Raise_inv in H. discriminate H.
    + destruct bad; [exact Hbad|]. exfalso.
      apply bind_Raise_inv in H. destruct H as [H|[b_idx [_ H]]].
      { unfold closest in H. destruct (MultiShellResponse.shells response); discriminate H. }
      apply bind_Raise_inv in H. destruct H as [H|[kernal [_ H]]].
      { unfold broadcast2 in H.
        destruct (broadcast_len _ _); [destruct (broadcast_len _ _)|]; discriminate H. }
      unfold ix_ in H. destruct (Nat.eqb _ 0); [discriminate H|].
      destruct (py_indices (nrows kernal) _); [destruct (py_indices (ncols kernal) _)|];
        discriminate H.
  - intros H. rewrite H. reflexivity.
Qed.

(** ** Nearest-shell matching *)

Lemma sample_response_init :
  MultiShellResponse.__init__ sample_response_array 2 sample_shells = Ok sample_response.
Proof. reflexivity. Qed.

Lemma closest_sample : closest sample_shells (bvals sample_gtab) = Ok [0%nat; 1%nat].
Proof.
  unfold closest, argmin, sample_shells, sample_gtab. simpl.
  replace (0 - 0) with 0 by lra.
  replace (1000 - 0) with 1000 by lra.
  replace (2000 - 0) with 2000 by lra.
  replace (0 - 1490) with (- 1490) by lra.
  replace (1000 - 1490) with (- 490) by lra.
  replace (2000 - 1490) with 510 by lra.
  Rabs_decide. Rltb_decide. reflexivity.
Qed.

(** C4. For a response built by the constructor and every measurement
    [g] (row [j]) of the gradient table, the row of the inflated response
    is read from the kernel row [i] of the shell nearest to [g]'s b-value
    in absolute difference, the lowest index winning ties ([nearest_shell]);
    and for the shells [0, 1000, 2000] the b-value 1490 selects index 1. *)
Theorem inflate_response_selects_nearest_shell :
  (forall (resp : ndarray2) (so : Z) (shells : list R) (response : MultiShellResponse.t)
          (gtab : GradientTable) (n : list Z) (delta : list R) (M : ndarray2)
          (j : nat) (g : gradient),
      MultiShellResponse.__init__ resp so shells = Ok response ->
      _inflate_response response gtab n delta = Ok M ->
      nth_error gtab j = Some g ->
      exists (i : nat) (kernal : ndarray2) (cols : list nat),
        nearest_shell shells (bval g) i /\
        broadcast2 Rdiv resp (as_row delta) = Ok kernal /\
        py_indices (ncols kernal) (n_idx (MultiShellResponse.iso response) n) = Some cols /\
        nrows M = length gtab /\
        forall c, cell M j c = cell kernal i (nth c cols 0%nat))
  /\ closest [0; 1000; 2000] [1490] = Ok [1%nat].
Proof.
  split; [|exact closest_example].
  intros resp so shells response gtab n delta M j g Hinit Hinf Hg.
  apply MultiShellResponse_init_inv in Hinit.
  destruct Hinit as [Hresp [_ [Hshells _]]].
  apply inflate_response_Ok_inv in Hinf.
  destruct Hinf as [_ [b_idx [kernal [Hc [Hk [Hrows [_ Hsel]]]]]]].
  assert (Hne : gtab <> []) by (destruct gtab; [destruct j; discriminate Hg | discriminate]).
  destruct (Hsel Hne) as [cols [_ [Hcols Hcell]]].
  rewrite Hshells in Hc. rewrite Hresp in Hk.
  assert (Hb : nth_error (bvals gtab) j = Some (bval g)).
  { unfold bvals. rewrite nth_error_map, Hg. reflexivity. }
  destruct (closest_nearest_shell _ _ _ j _ Hc Hb) as [i [Hi Hnear]].
  exists i, kernal, cols. repeat split; try assumption; try apply Hnear.
  - rewrite Hrows. apply closest_Ok_inv in Hc. destruct Hc as [_ ->].
    unfold bvals. rewrite !length_map. reflexivity.
  - intros c. rewrite Hcell. f_equal. apply nth_error_nth. exact Hi.
Qed.

Lemma sample_inflate :
  exists M, _inflate_response sample_response sample_gtab [0%Z] [1; 1; 1] = Ok M.
Proof.
  unfold _inflate_response.
  change (mismatch [0%Z] (MultiShellResponse.sh_order sample_response))
    with (@Ok bool false).
  cbv beta iota delta [bind].
  change (MultiShellResponse.shells sample_response) with sample_shells.
  rewrite closest_sample.
  eexists. reflexivity.
Qed.

Lemma inflate_response_selects_nearest_shell_witness :
  MultiShellResponse.__init__ sample_response_array 2 sample_shells = Ok sample_response /\
  nth_error sample_gtab 1 = Some sample_dwi /\
  exists M, _inflate_response sample_response sample_gtab [0%Z] [1; 1; 1] = Ok M /\
    exists (i : nat) (kernal : ndarray2) (cols : list nat),
      nearest_shell sample_shells (bval sample_dwi) i /\
      broadcast2 Rdiv sample_response_array (as_row [1; 1; 1]) = Ok kernal /\
      py_indices (ncols kernal) (n_idx (MultiShellResponse.iso sample_response) [0%Z]) = Some cols /\
      nrows M = length sample_gtab /\
      forall c, cell M 1 c = cell kernal i (nth c cols 0%nat).
Proof.
  split; [reflexivity|]. split; [reflexivity|].
  destruct sample_inflate as [M HM]. exists M. split; [exact HM|].
  apply (proj1 inflate_response_selects_nearest_shell
           sample_response_array 2%Z sample_shells sample_response
           sample_gtab [0%Z] [1; 1; 1] M 1%nat sample_dwi).
  - reflexivity.
  - exact HM.
  - reflexivity.
Defined.

(** ** The shape-mismatch guard *)

(** C6. For a response built by the constructor, response inflation fails
    with the error "Response and n do not match" exactly when some target
    degree is odd or half the largest target degree is at least the
    response's [sh_order] ([degrees_mismatch], also with the exact half);
    otherwise it does not raise that error. *)
Theorem inflate_response_shape_mismatch
  (resp : ndarray2) (so : Z) (shells : list R) (response : MultiShellResponse.t)
  (gtab : GradientTable) (n : list Z) (delta : list R) :
  MultiShellResponse.__init__ resp so shells = Ok response ->
  (_inflate_response response gtab n delta = Raise (ValueError "Response and n do not match")
   <-> degrees_mismatch n so) /\
  (_inflate_response response gtab n delta = Raise (ValueError "Response and n do not match")
   <-> (exists v, In v n /\ (v mod 2 <> 0)%Z) \/
       (exists mx, is_max n mx /\ (2 * so <= mx)%Z)).
Proof.
  intros Hinit. apply MultiShellResponse_init_inv in Hinit.
  destruct Hinit as [_ [Hso _]].
  assert (H : _inflate_response response gtab n delta
              = Raise (ValueError "Response and n do not match")
              <-> degrees_mismatch n so).
  { rewrite inflate_response_mismatch, Hso. apply mismatch_true_iff. }
  split; [exact H|]. rewrite H. apply degrees_mismatch_exact_half.
Qed.

(** The guard on the sample response ([sh_order = 2]): degree 4 is too
    large, degree 1 is odd. *)
Lemma sample_inflate_mismatch :
  _inflate_response sample_response sample_gtab [0; 2; 4]%Z [1; 1; 1]
  = Raise (ValueError "Response and n do not match") /\
  _inflate_response sample_response sample_gtab [0; 1]%Z [1; 1; 1]
  = Raise (ValueError "Response and n do not match").
Proof. split; reflexivity. Qed.

Lemma inflate_response_shape_mismatch_witness :
  MultiShellResponse.__init__ sample_response_array 2 sample_shells = Ok sample_response /\
  ((_inflate_response sample_response sample_gtab [0; 2; 4]%Z [1; 1; 1]
    = Raise (ValueError "Response and n do not match")
    <-> degrees_mismatch [0; 2; 4]%Z 2) /\
   (_inflate_response sample_response sample_gtab [0; 2; 4]%Z [1; 1; 1]
    = Raise (ValueError "Response and n do not match")
    <-> (exists v, In v [0; 2; 4]%Z /\ (v mod 2 <> 0)%Z) \/
        (exists mx, is_max [0; 2; 4]%Z mx /\ (2 * 2 <= mx)%Z))).
Proof.
  split; [reflexivity|].
  apply (inflate_response_shape_mismatch sample_response_array 2%Z sample_shells
           sample_response sample_gtab [0; 2; 4]%Z [1; 1; 1]).
  reflexivity.
Defined.

(** ** The multi-tissue basis *)

Section BasisProperties.
Context {C : Collaborators}.

(** The basis before the isotropic columns are prepended: spherical
    harmonics, zeroed on b0 rows for degrees [n > 0]. *)
Lemma multi_tissue_basis_returns (gtab : GradientTable) (sh_order iso_comp : Z)
  (mn : list (Z * Z)) :
  (1 <= iso_comp)%Z ->
  sph_harm_ind_list sh_order = Some mn ->
  multi_tissue_basis gtab sh_order iso_comp =
  Ok ({| nrows := length gtab;
         ncols := (Z.to_nat iso_comp + length mn)%nat;
         cell := fun i j =>
           if Nat.ltb j (Z.to_nat iso_comp) then SH_CONST
           else cell (assign_ix_mask
                        (real_sph_harm_grid mn (angles_of (gradients gtab)))
                        (b0s_mask gtab)
                        (map (fun v => (0 <? v)%Z) (map snd mn)) 0)
                     i (j - Z.to_nat iso_comp)%nat |},
      map fst mn, map snd mn).
Proof.
  intros Hiso Hmn. unfold multi_tissue_basis.
  destruct (Z.ltb_spec iso_comp 1) as [Hlt|_]; [lia|].
  rewrite Hmn. simpl.
  unfold concatenate_axis1. simpl. rewrite Nat.eqb_refl.
  unfold angles_of, gradients. rewrite !length_map. reflexivity.
Qed.

Lemma multi_tissue_basis_Raise_inv (gtab : GradientTable) (sh_order iso_comp : Z) (e : exn) :
  multi_tissue_basis gtab sh_order iso_comp = Raise e ->
  ((iso_comp < 1)%Z /\
   e = ValueError "Multi-tissue CSD requires at least 2 tissue compartments") \/
  ((1 <= iso_comp)%Z /\ e = LibraryError "shm.sph_harm_ind_list").
Proof.
  unfold multi_tissue_basis.
  destruct (Z.ltb_spec iso_comp 1) as [Hlt|Hge]; intros H.
  - left. inversion H. split; [exact Hlt | reflexivity].
  - right. split; [exact Hge|].
    destruct (sph_harm_ind_list sh_order) as [mn|]; simpl in H.
    + unfold concatenate_axis1 in H. simpl in H. rewrite Nat.eqb_refl in H.
      discriminate H.
    + inversion H. reflexivity.
Qed.

(** C5. For every gradient table, SH order with index pairs [mn] and
    [iso_comp >= 1], the basis is returned; on every row flagged b0 each
    spherical-harmonic column of degree [n > 0] is exactly zero; the first
    [iso_comp] columns of every row equal [SH_CONST = 0.5/sqrt(pi)]; the
    other spherical-harmonic entries are the harmonic's values. *)
Theorem multi_tissue_basis_b0_rows_and_iso_columns
  (gtab : GradientTable) (sh_order iso_comp : Z) (mn : list (Z * Z)) :
  (1 <= iso_comp)%Z ->
  sph_harm_ind_list sh_order = Some mn ->
  exists B : ndarray2,
    multi_tissue_basis gtab sh_order iso_comp = Ok (B, map fst mn, map snd mn) /\
    nrows B = length gtab /\
    ncols B = (Z.to_nat iso_comp + length mn)%nat /\
    (forall i j g m n,
        nth_error gtab i = Some g -> is_b0 g = true ->
        nth_error mn j = Some (m, n) -> (0 < n)%Z ->
        cell B i (Z.to_nat iso_comp + j) = 0) /\
    (forall i j,
        (i < length gtab)%nat -> (j < Z.to_nat iso_comp)%nat ->
        cell B i j = SH_CONST) /\
    (forall i j g m n theta phi,
        nth_error gtab i = Some g ->
        nth_error mn j = Some (m, n) ->
        is_b0 g = false \/ (n <= 0)%Z ->
        nth_error (angles_of (gradients gtab)) i = Some (theta, phi) ->
        cell B i (Z.to_nat iso_comp + j) = real_sph_harm m n theta phi).
Proof.
  intros Hiso Hmn. eexists. split; [apply multi_tissue_basis_returns; assumption|].
  simpl. split; [reflexivity|]. split; [reflexivity|].
  assert (Hshift : forall j, Nat.ltb (Z.to_nat iso_comp + j) (Z.to_nat iso_comp) = false).
  { intros j. apply Nat.ltb_ge. lia. }
  assert (Hsub : forall j, (Z.to_nat iso_comp + j - Z.to_nat iso_comp)%nat = j) by (intros; lia).
  split; [|split].
  - intros i j g m n Hg Hb0 Hj Hn. rewrite Hshift, Hsub.
    assert (Hrow : nth i (b0s_mask gtab) false = true).
    { unfold b0s_mask. apply nth_error_nth. rewrite nth_error_map, Hg. simpl. f_equal. exact Hb0. }
    assert (Hcol : nth j (map (fun v => (0 <? v)%Z) (map snd mn)) false = true).
    { apply nth_error_nth. rewrite !nth_error_map, Hj. simpl. f_equal.
      apply Z.ltb_lt. exact Hn. }
    rewrite Hrow, Hcol. reflexivity.
  - intros i j _ Hj.
    replace (Nat.ltb j (Z.to_nat iso_comp)) with true
      by (symmetry; apply Nat.ltb_lt; exact Hj).
    reflexivity.
  - intros i j g m n theta phi Hg Hj Hfree Hang. rewrite Hshift, Hsub.
    assert (Hmask : nth i (b0s_mask gtab) false
                    && nth j (map (fun v => (0 <? v)%Z) (map snd mn)) false = false).
    { destruct Hfree as [Hb0|Hn].
      - replace (nth i (b0s_mask gtab) false) with false; [reflexivity|].
        symmetry. unfold b0s_mask. apply nth_error_nth.
        rewrite nth_error_map, Hg. simpl. f_equal. exact Hb0.
      - replace (nth j (map (fun v => (0 <? v)%Z) (map snd mn)) false) with false;
          [apply andb_false_r|].
        symmetry. apply nth_error_nth. rewrite !nth_error_map, Hj. simpl. f_equal.
        apply Z.ltb_ge. exact Hn. }
    rewrite Hmask.
    rewrite (nth_error_nth _ _ (0%Z, 0%Z) Hj).
    rewrite (nth_error_nth _ _ (0, 0) Hang). reflexivity.
Qed.

(** C7. Building the multi-tissue basis raises "Multi-tissue CSD requires
    at least 2 tissue compartments" exactly when [iso_comp < 1]; building
    a [MultiShellResponse] raises "sh_order and shape of response do not
    agree" exactly when [columns - sh_order // 2 - 1 < 1], and otherwise
    returns the response, whose [iso] is that number. *)
Theorem iso_compartments_validation :
  (forall (gtab : GradientTable) (sh_order iso_comp : Z),
      multi_tissue_basis gtab sh_order iso_comp
      = Raise (ValueError "Multi-tissue CSD requires at least 2 tissue compartments")
      <-> (iso_comp < 1)%Z) /\
  (forall (resp : ndarray2) (sh_order : Z) (shells : list R),
      MultiShellResponse.__init__ resp sh_order shells
      = Raise (ValueError "sh_order and shape of response do not agree")
      <-> (Z.of_nat (ncols resp) - sh_order / 2 - 1 < 1)%Z) /\
  (forall (resp : ndarray2) (sh_order : Z) (shells : list R),
      (exists self,
          MultiShellResponse.__init__ resp sh_order shells = Ok self /\
          MultiShellResponse.iso self = (Z.of_nat (ncols resp) - sh_order / 2 - 1)%Z)
      <-> (1 <= Z.of_nat (ncols resp) - sh_order / 2 - 1)%Z).
Proof.
  split; [|split].
  - intros gtab sh_order iso_comp. split.
    + intros H. apply multi_tissue_basis_Raise_inv in H.
      destruct H as [[Hlt _]|[_ He]]; [exact Hlt | discriminate He].
    + intros Hlt. unfold multi_tissue_basis.
      destruct (Z.ltb_spec iso_comp 1) as [_|Hge]; [reflexivity | lia].
  - intros resp sh_order shells. unfold MultiShellResponse.__init__, MultiShellResponse.iso.
    simpl. destruct (Z.ltb_spec (Z.of_nat (ncols resp) - sh_order / 2 - 1) 1) as [Hlt|Hge].
    + split; [intros _; exact Hlt | reflexivity].
    + split; [discriminate | lia].
  - intros resp sh_order shells. unfold MultiShellResponse.__init__, MultiShellResponse.iso.
    simpl. destruct (Z.ltb_spec (Z.of_nat (ncols resp) - sh_order / 2 - 1) 1) as [Hlt|Hge].
    + split; [intros [self [H _]]; discriminate H | lia].
    + split; [intros _; exact Hge|]. intros _. eexists. split; reflexivity.
Qed.

End BasisProperties.

(** Both guards on concrete inputs: no isotropic compartment asked of the
    basis; a response with three columns and [sh_order = 4], whose [iso]
    would be [3 - 2 - 1 = 0]. *)
Lemma iso_compartments_rejected :
  @multi_tissue_basis sample_collaborators sample_gtab 2 0
  = Raise (ValueError "Multi-tissue CSD requires at least 2 tissue compartments") /\
  MultiShellResponse.__init__ sample_response_array 4 sample_shells
  = Raise (ValueError "sh_order and shape of response do not agree").
Proof. split; reflexivity. Qed.

(** ** The fit result *)

Section FitProperties.
Context {C : Collaborators}.



(** The sample fit: one isotropic compartment, so [shm_coeff] drops one
    coefficient and [volume_fractions] keeps two. *)
Lemma sample_fit_partition :
  MSDeconvFit.shm_coeff sample_fit = [20; 30; 40; 50] /\
  MSDeconvFit.volume_fractions sample_fit = [10 / SH_CONST; 20 / SH_CONST].
Proof. split; reflexivity. Qed.

(** C9. [predict] returns the same result whatever [S0] is given; with
    the model's own gradient table that result is [params . X^T]. *)
Theorem predict_ignores_S0
  (self : MultiShellDeconvModel.t) (params : list R) (gtab : option GradientTable)
  (S0 S0' : option S0_value) :
  MultiShellDeconvModel.predict self params gtab S0
  = MultiShellDeconvModel.predict self params gtab S0' /\
  MultiShellDeconvModel.predict self params None S0
  = dot_vm params (transpose (MultiShellDeconvModel._X self)).
Proof.
  unfold MultiShellDeconvModel.predict. split.
  - destruct gtab as [g|]; reflexivity.
  - reflexivity.
Qed.

End FitProperties.

(** ** The positivity-constrained delta kernel *)

Lemma assign_mask_map {A : Type} (n : list Z) (f : Z -> A) (p : Z -> bool) (v : A) :
  assign_mask (map f n) (map p n) v = Ok (map (fun z => if p z then v else f z) n).
Proof.
  unfold assign_mask. rewrite !length_map, Nat.eqb_refl. f_equal.
  induction n as [|z n IH]; simpl; [reflexivity|].
  rewrite IH. reflexivity.
Qed.

Lemma repeat_as_map {A : Type} (n : list Z) (c : A) :
  repeat c (length n) = map (fun _ => c) n.
Proof. induction n as [|z n IH]; simpl; [reflexivity | rewrite IH; reflexivity]. Qed.

Lemma broadcast_orders_length (m n : list Z) (mn : list (Z * Z)) :
  broadcast_orders m n = Some mn -> length mn = length n.
Proof.
  unfold broadcast_orders. destruct (Nat.eqb_spec (length m) (length n)) as [Heq|Hne].
  - intros H; inversion H. rewrite length_combine, Heq. apply Nat.min_id.
  - destruct m as [|m0 [|m1 m']]; intros H; try discriminate H.
    inversion H. apply length_map.
Qed.

Section DeltaProperties.
Context {C : Collaborators}.

Lemma lp_data_Ok_inv (m n : list Z) (theta phi : R) (reg_sphere : Sphere)
  (x : R) (B G_temp c_temp : ndarray2) :
  lp_data m n theta phi reg_sphere = Ok (x, B, G_temp, c_temp) ->
  x = fst (fst (sphere2cart 1 theta phi)) /\
  ncols B = length n /\
  select_columns B (map (fun v => negb (v =? 0)%Z) n) = Ok G_temp /\
  nrows c_temp = ncols G_temp /\ ncols c_temp = 1%nat /\
  (forall i j, cell c_temp i j = cell G_temp 0 i).
Proof.
  unfold lp_data. destruct (sphere2cart 1 theta phi) as [[x0 y0] z0]. simpl.
  intros H. bind_ok H v0 Hv0. bind_ok H mn Hmn. bind_ok H G HG.
  destruct (Nat.eqb (nrows G) 0); [discriminate H|].
  inversion H; subst; simpl.
  apply from_library_Ok_inv in Hmn. apply broadcast_orders_length in Hmn.
  repeat split; auto.
Qed.

(** The kernel, once its steps that may raise have succeeded: the
    isotropic constants, then per coefficient [SH_CONST] where [n = 0]
    and elsewhere the float stored for what the solver returned. *)
Lemma pos_constrained_delta_returns (iso : Z) (m n : list Z) (theta phi : R)
  (reg_sphere : Sphere) (x : R) (B G_temp c_temp : ndarray2) (sol : Solution) :
  lp_data m n theta phi reg_sphere = Ok (x, B, G_temp, c_temp) ->
  nrows c_temp <> 0%nat ->
  cvx_solve (lp_prob x G_temp c_temp) = Some sol ->
  _pos_constrained_delta iso m n theta phi reg_sphere
  = Ok (repeat (Num SH_CONST) (Z.to_nat iso)
        ++ map (fun v => if (v =? 0)%Z then Num SH_CONST else float_of_value (value sol)) n).
Proof.
  intros Hdata Hrows Hsol. unfold _pos_constrained_delta. rewrite Hdata. simpl.
  destruct (Nat.eqb_spec (nrows c_temp) 0) as [Hz|_]; [contradiction|].
  rewrite Hsol. simpl.
  apply lp_data_Ok_inv in Hdata. destruct Hdata as [_ [Hcols _]].
  rewrite Hcols, repeat_as_map, assign_mask_map. simpl.
  rewrite assign_mask_map. simpl. do 2 f_equal.
  apply map_ext. intros v. destruct (v =? 0)%Z; reflexivity.
Qed.

Lemma pos_constrained_delta_Ok_inv (iso : Z) (m n : list Z) (theta phi : R)
  (reg_sphere : Sphere) (out : list nanfloat) :
  _pos_constrained_delta iso m n theta phi reg_sphere = Ok out ->
  exists x B G_temp c_temp sol,
    lp_data m n theta phi reg_sphere = Ok (x, B, G_temp, c_temp) /\
    nrows c_temp <> 0%nat /\
    cvx_solve (lp_prob x G_temp c_temp) = Some sol /\
    out = repeat (Num SH_CONST) (Z.to_nat iso)
          ++ map (fun v => if (v =? 0)%Z then Num SH_CONST
                           else float_of_value (value sol)) n.
Proof.
  intros H. pose proof H as H0. unfold _pos_constrained_delta in H.
  bind_ok H data Hdata. destruct data as [[[x B] G_temp] c_temp].
  destruct (Nat.eqb_spec (nrows c_temp) 0) as [Hz|Hnz]; [discriminate H|].
  bind_ok H sol Hsol. apply from_library_Ok_inv in Hsol.
  exists x, B, G_temp, c_temp, sol. split; [exact Hdata|]. split; [exact Hnz|].
  split; [exact Hsol|].
  rewrite (pos_constrained_delta_returns iso _ _ _ _ _ _ _ _ _ _ Hdata Hnz Hsol) in H0.
  inversion H0. reflexivity.
Qed.




(** C2 (what the code does). The linear program the
    positivity-constrained kernel hands to the solver mentions no
    decision variable: its objective is the constant [sum(c_temp)], the
    sum of the basis values at the first rotated vertex, and its single
    constraint compares [-G_temp], scaled by the Cartesian x-coordinate
    of the delta orientation, with [SH_CONST ^ 2]; the degree-0 entries
    of the output are [SH_CONST]. *)
Theorem pos_constrained_delta_lp_has_no_variable
  (iso : Z) (m n : list Z) (theta phi : R) (reg_sphere : Sphere) (out : list nanfloat) :
  _pos_constrained_delta iso m n theta phi reg_sphere = Ok out ->
  exists (x : R) (B G_temp c_temp : ndarray2) (sol : Solution),
    lp_data m n theta phi reg_sphere = Ok (x, B, G_temp, c_temp) /\
    cvx_solve (lp_prob x G_temp c_temp) = Some sol /\
    x = fst (fst (sphere2cart 1 theta phi)) /\
    problem_variables (lp_prob x G_temp c_temp) = [] /\
    objective (lp_prob x G_temp c_temp) = Maximize (CvxSum (CvxConstant c_temp)) /\
    constraints (lp_prob x G_temp c_temp)
    = [CvxLe (CvxMul (CvxParameter (neg G_temp)) (CvxScalar x))
             (CvxParameter (full (nrows G_temp) (ncols G_temp) (SH_CONST ^ 2)))] /\
    (forall j, nth_error n j = Some 0%Z ->
               nth_error out (Z.to_nat iso + j) = Some (Num SH_CONST)).
Proof.
  intros H. apply pos_constrained_delta_Ok_inv in H.
  destruct H as [x [B [G_temp [c_temp [sol [Hdata [_ [Hsol ->]]]]]]]].
  exists x, B, G_temp, c_temp, sol. split; [exact Hdata|]. split; [exact Hsol|].
  split; [apply (lp_data_Ok_inv _ _ _ _ _ _ _ _ _ Hdata)|].
  split; [reflexivity|]. split; [reflexivity|]. split; [reflexivity|].
  intros j Hj.
  rewrite nth_error_app2 by (rewrite repeat_length; lia).
  rewrite repeat_length.
  replace (Z.to_nat iso + j - Z.to_nat iso)%nat with j by lia.
  rewrite nth_error_map, Hj. reflexivity.
Qed.

End DeltaProperties.

(** ** The QP fitter *)

Lemma Rltb_true_iff (x y : R) : Rltb x y = true <-> x < y.
Proof. unfold Rltb. destruct (Rlt_dec x y); split; auto; discriminate. Qed.

Lemma Rgtb_true_iff (x y : R) : Rgtb x y = true <-> x > y.
Proof. unfold Rgtb. apply Rltb_true_iff. Qed.

Lemma dot_transpose_gram (X : ndarray2) : dot (transpose X) X = Ok (gram X).
Proof. unfold dot. simpl. rewrite Nat.eqb_refl. reflexivity. Qed.

Section FitterProperties.
Context {C : Collaborators}.

Lemma rank_Raise_inv (A : ndarray2) (tol : R) (e : exn) :
  _rank A tol = Raise e -> exists origin, e = LibraryError origin.
Proof.
  unfold _rank. destruct (la_svd A) as [[|s0 s]|]; simpl; intros H; inversion H; eauto.
Qed.

Lemma QpFitter_init_Ok_inv (X reg : ndarray2) (fitter : QpFitter.t) :
  QpFitter.__init__ X reg = Ok fitter ->
  _rank (gram X) 1e-8 = Ok (ncols X) /\
  fitter = {| QpFitter._P := gram X; QpFitter._X := X; QpFitter._reg := reg;
              QpFitter._P_mat := gram X; QpFitter._reg_mat := neg reg;
              QpFitter._h_mat := [0] |}.
Proof.
  unfold QpFitter.__init__. rewrite dot_transpose_gram. simpl.
  intros H. bind_ok H rnk Hr.
  destruct (Nat.eqb_spec rnk (ncols X)) as [->|Hne]; [|discriminate H].
  inversion H. split; [exact Hr | reflexivity].
Qed.

(** C3. [P = X^T X] has [P.shape[0] = X.shape[1]]; its rank is the number
    of singular values strictly above [1e-8] times the first singular
    value [s[0]], which is the largest one when [svd] returns them in
    descending order; building the fitter fails with the assertion error
    of the rank check exactly when that rank differs from [P.shape[0]],
    and succeeds exactly when they are equal. *)
Theorem QpFitter_init_rank_check (X reg : ndarray2) :
  dot (transpose X) X = Ok (gram X) /\
  nrows (gram X) = ncols X /\
  (forall s0 s, la_svd (gram X) = Some (s0 :: s) ->
     _rank (gram X) 1e-8
     = Ok (length (filter (fun sv => Rgtb sv (s0 * 1e-8)) (s0 :: s))) /\
     forall sv, Rgtb sv (s0 * 1e-8) = true <-> sv > 1e-8 * s0) /\
  (forall s0 s largest, la_svd (gram X) = Some (s0 :: s) ->
     (forall sv, In sv s -> sv <= s0) ->
     In largest (s0 :: s) -> (forall sv, In sv (s0 :: s) -> sv <= largest) ->
     _rank (gram X) 1e-8
     = Ok (length (filter (fun sv => Rgtb sv (largest * 1e-8)) (s0 :: s)))) /\
  (QpFitter.__init__ X reg = Raise AssertionError
   <-> exists r, _rank (gram X) 1e-8 = Ok r /\ r <> nrows (gram X)) /\
  ((exists fitter, QpFitter.__init__ X reg = Ok fitter)
   <-> _rank (gram X) 1e-8 = Ok (nrows (gram X))).
Proof.
  split; [apply dot_transpose_gram|]. split; [reflexivity|]. split; [|split; [|split]].
  - intros s0 s Hs. split.
    + unfold _rank. rewrite Hs. reflexivity.
    + intros sv. rewrite Rgtb_true_iff. split; intros H; lra.
  - intros s0 s largest Hs Hdesc Hin Hub.
    assert (Heq : largest = s0).
    { apply Rle_antisym.
      - destruct Hin as [Hin|Hin]; [rewrite Hin; lra | apply Hdesc; exact Hin].
      - apply Hub. left; reflexivity. }
    subst largest. unfold _rank. rewrite Hs. reflexivity.
  - unfold QpFitter.__init__. rewrite dot_transpose_gram. simpl.
    destruct (_rank (gram X) 1e-8) as [r|e|] eqn:Hr; simpl.
    + destruct (Nat.eqb_spec r (ncols X)) as [Heq|Hne].
      * split; [discriminate|]. intros [r' [Hr' Hne]]. inversion Hr'. congruence.
      * split; [|reflexivity]. intros _. exists r. split; [reflexivity | exact Hne].
    + split.
      * intros H. inversion H; subst. apply rank_Raise_inv in Hr.
        destruct Hr as [origin Hr]. discriminate Hr.
      * intros [r [Hr' _]]. discriminate Hr'.
    + split.
      * intros H. discriminate H.
      * intros [r [Hr' _]]. discriminate Hr'.
  - split.
    + intros [fitter H]. apply QpFitter_init_Ok_inv in H. apply H.
    + intros Hr. unfold QpFitter.__init__. rewrite dot_transpose_gram. simpl.
      rewrite Hr. simpl. rewrite Nat.eqb_refl. eexists. reflexivity.
Qed.

(** [X^T . signal], entry by entry. *)
Lemma dot_mv_transpose (X : ndarray2) (signal : list R) :
  length signal = nrows X ->
  dot_mv (transpose X) signal
  = Ok (map (fun j => sum_upto (nrows X) (fun i => cell X i j * nth i signal 0))
            (seq 0 (ncols X))).
Proof.
  intros Hlen. unfold dot_mv. simpl. rewrite Hlen, Nat.eqb_refl. reflexivity.
Qed.

Lemma quadprog_Ok_inv (P : ndarray2) (Q : list R) (G : ndarray2) (H : list R) (xs : list R) :
  quadprog P Q G H = Ok xs ->
  exists sol, cvx_solve (quadprog_problem P Q G H) = Some sol /\ primal sol = Some xs.
Proof.
  unfold quadprog. intros H0. bind_ok H0 sol Hsol.
  apply from_library_Ok_inv in Hsol. exists sol. split; [exact Hsol|].
  destruct (primal sol) as [opt|]; [|discriminate H0].
  destruct (Nat.eqb (length opt) (length Q)); [|discriminate H0].
  inversion H0. reflexivity.
Qed.

(** C1 (as the code has it). For a fitter built from [X] and [reg] and a
    signal with one entry per row of [X]: the fit computes
    [Q = X^T . signal] and hands the solver the program
    minimize [0.5 x^T P x + (-Q)^T x] subject to [(-reg) x <= 0], with
    [P = X^T X]: the linear coefficient vector is [-(X^T . signal)]; what
    it returns is the solver's answer to that program, a minimizer of it
    whenever the solver is sound on it. *)
Theorem QpFitter_call_linear_term
  (X reg : ndarray2) (fitter : QpFitter.t) (signal : list R) :
  QpFitter.__init__ X reg = Ok fitter ->
  length signal = nrows X ->
  exists Q : list R,
    dot_mv (transpose X) signal = Ok Q /\
    length Q = ncols X /\
    (forall j, (j < ncols X)%nat ->
               nth j Q 0 = sum_upto (nrows X) (fun i => cell X i j * nth i signal 0)) /\
    QpFitter.__call__ fitter signal = quadprog (gram X) (map Ropp Q) (neg reg) [0] /\
    quadprog_problem (gram X) (map Ropp Q) (neg reg) [0]
    = {| objective :=
           Minimize (CvxAdd (CvxMul (CvxScalar 0.5)
                                    (CvxQuadForm (CvxVariable (ncols X)) (CvxConstant (gram X))))
                            (CvxMul (CvxVector (map Ropp Q)) (CvxVariable (ncols X))));
         constraints :=
           [CvxLe (CvxMul (CvxConstant (neg reg)) (CvxVariable (ncols X))) (CvxVector [0])] |} /\
    (forall xs,
        QpFitter.__call__ fitter signal = Ok xs ->
        solver_sound_on (gram X) (map Ropp Q) (neg reg) [0] ->
        qp_minimizer (gram X) (map Ropp Q) (neg reg) [0] xs).
Proof.
  intros Hinit Hlen. apply QpFitter_init_Ok_inv in Hinit. destruct Hinit as [_ ->].
  eexists. split; [apply dot_mv_transpose; exact Hlen|].
  assert (HlenQ : length (map (fun j => sum_upto (nrows X)
                                 (fun i => cell X i j * nth i signal 0))
                              (seq 0 (ncols X))) = ncols X).
  { rewrite length_map, length_seq. reflexivity. }
  assert (Hcall : QpFitter.__call__
            {| QpFitter._P := gram X; QpFitter._X := X; QpFitter._reg := reg;
               QpFitter._P_mat := gram X; QpFitter._reg_mat := neg reg;
               QpFitter._h_mat := [0] |} signal
          = quadprog (gram X)
              (map Ropp (map (fun j => sum_upto (nrows X)
                                (fun i => cell X i j * nth i signal 0))
                             (seq 0 (ncols X))))
              (neg reg) [0]).
  { unfold QpFitter.__call__. simpl. rewrite (dot_mv_transpose X signal Hlen). reflexivity. }
  split; [exact HlenQ|]. split; [|split; [exact Hcall|split]].
  - intros j Hj.
    rewrite (nth_indep _ 0 (sum_upto (nrows X) (fun i => cell X i 0%nat * nth i signal 0)))
      by (rewrite HlenQ; exact Hj).
    rewrite (map_nth (fun j => sum_upto (nrows X) (fun i => cell X i j * nth i signal 0))).
    rewrite seq_nth by exact Hj. reflexivity.
  - unfold quadprog_problem. rewrite length_map, HlenQ. reflexivity.
  - intros xs Hxs Hsound. rewrite Hcall in Hxs.
    apply quadprog_Ok_inv in Hxs. destruct Hxs as [sol [Hsol Hprimal]].
    exact (Hsound sol xs Hsol Hprimal).
Qed.

End FitterProperties.

(** ** The sample collaborators at work *)

(** Reduces array cells and finite sums on concrete data. *)
Ltac reduce_arrays := repeat (progress (simpl; unfold sum_upto)).
Ltac reduce_arrays_in H := repeat (progress (simpl in H; unfold sum_upto in H)).

Lemma Rltb_true (x y : R) : x < y -> Rltb x y = true.
Proof. apply Rltb_true_iff. Qed.

Lemma Rltb_false (x y : R) : ~ x < y -> Rltb x y = false.
Proof. unfold Rltb. destruct (Rlt_dec x y); [contradiction | reflexivity]. Qed.

Lemma Req_bool_true (x y : R) : x = y -> Req_bool x y = true.
Proof. unfold Req_bool. destruct (Req_dec_T x y); [reflexivity | contradiction]. Qed.

Lemma sample_svd_duplicate_columns :
  sample_svd (gram sample_X_duplicate_columns) = Some [2; 0].
Proof.
  unfold sample_svd, gram, sample_X_duplicate_columns, sum_upto. simpl.
  match goal with |- context [sqrt ?a] => replace a with 1 by lra end.
  rewrite sqrt_1. do 2 f_equal; [lra | f_equal; lra].
Qed.

Lemma sample_rank_duplicate_columns :
  @_rank sample_collaborators (gram sample_X_duplicate_columns) 1e-8 = Ok 1%nat.
Proof.
  unfold _rank. simpl la_svd. rewrite sample_svd_duplicate_columns. simpl.
  unfold Rgtb. rewrite (Rltb_true (2 * 1e-8) 2) by lra.
  rewrite (Rltb_false (2 * 1e-8) 0) by lra. reflexivity.
Qed.

Lemma sample_rank_one_column :
  @_rank sample_collaborators (gram sample_X) 1e-8 = Ok 1%nat.
Proof.
  unfold _rank. simpl la_svd. unfold sample_svd, gram, sample_X, sum_upto. simpl.
  replace (1 * 1 + 0) with 1 by lra. rewrite Rabs_R1.
  unfold Rgtb. rewrite (Rltb_true (1 * 1e-8) 1) by lra. reflexivity.
Qed.

Lemma sample_fitter_init :
  @QpFitter.__init__ sample_collaborators sample_X sample_reg = Ok sample_fitter.
Proof.
  unfold QpFitter.__init__. rewrite dot_transpose_gram.
  cbv beta iota delta [bind]. rewrite sample_rank_one_column. reflexivity.
Qed.

Lemma QpFitter_init_rank_check_witness :
  @QpFitter.__init__ sample_collaborators sample_X_duplicate_columns sample_reg2
  = Raise AssertionError /\
  exists fitter, @QpFitter.__init__ sample_collaborators sample_X sample_reg = Ok fitter.
Proof.
  split.
  - apply (proj1 (proj2 (proj2 (proj2 (proj2
             (@QpFitter_init_rank_check sample_collaborators
                sample_X_duplicate_columns sample_reg2)))))).
    exists 1%nat. split; [exact sample_rank_duplicate_columns | discriminate].
  - apply (proj2 (proj2 (proj2 (proj2 (proj2
             (@QpFitter_init_rank_check sample_collaborators sample_X sample_reg)))))).
    exact sample_rank_one_column.
Defined.

Lemma sample_solve_qp (P : ndarray2) (q : R) (G : ndarray2) (h : R) :
  0 < cell P 0 0 -> cell G 0 0 = - 1 -> nrows G = 1%nat -> ncols G = 1%nat ->
  sample_solve (quadprog_problem P [q] G [h])
  = Some {| value := Some (0.5 * (Rmax (- h) (- q / cell P 0 0) * cell P 0 0
                                  * Rmax (- h) (- q / cell P 0 0))
                           + q * Rmax (- h) (- q / cell P 0 0));
            primal := Some [Rmax (- h) (- q / cell P 0 0)] |}.
Proof.
  intros HP HG Hr Hc. unfold sample_solve, quadprog_problem. simpl.
  rewrite (Rltb_true 0 (0.5 * cell P 0 0)) by lra.
  rewrite (Req_bool_true 0.5 0.5) by reflexivity.
  rewrite (Req_bool_true _ _ HG). rewrite Hr, Hc. reflexivity.
Qed.

Lemma sample_Q : dot_mv (transpose sample_X) [1] = Ok [1 * 1 + 0].
Proof. reflexivity. Qed.

Lemma sample_call :
  @QpFitter.__call__ sample_collaborators sample_fitter [1] = Ok [1].
Proof.
  unfold QpFitter.__call__. simpl QpFitter._X. rewrite sample_Q.
  cbv beta iota delta [bind]. simpl map. unfold quadprog. simpl cvx_solve.
  rewrite sample_solve_qp; reduce_arrays; try reflexivity; try lra.
  do 2 f_equal. rewrite Rmax_right; [field | ].
  replace (- - (1 * 1 + 0) / (1 * 1 + 0)) with 1 by field. lra.
Qed.

Lemma sample_quadprog_unnegated :
  @quadprog sample_collaborators (gram sample_X) [1 * 1 + 0] (neg sample_reg) [0] = Ok [0].
Proof.
  unfold quadprog. simpl cvx_solve.
  rewrite sample_solve_qp; reduce_arrays; try reflexivity; try lra.
  do 2 f_equal. rewrite Rmax_left; [lra | ].
  replace (- (1 * 1 + 0) / (1 * 1 + 0)) with (- 1) by field. lra.
Qed.

Lemma QpFitter_call_unnegated_counterexample :
  exists (fitter : QpFitter.t) (Q : list R),
    @QpFitter.__init__ sample_collaborators sample_X sample_reg = Ok fitter /\
    dot_mv (transpose sample_X) [1] = Ok Q /\
    (forall j, (j < ncols sample_X)%nat ->
               nth j Q 0 = sum_upto (nrows sample_X) (fun i => cell sample_X i j * nth i [1] 0)) /\
    @QpFitter.__call__ sample_collaborators fitter [1] = Ok [1] /\
    @quadprog sample_collaborators (gram sample_X) Q (neg sample_reg) [0] = Ok [0] /\
    @QpFitter.__call__ sample_collaborators fitter [1]
    <> @quadprog sample_collaborators (gram sample_X) Q (neg sample_reg) [0] /\
    quadprog_problem (QpFitter._P_mat fitter) (map Ropp Q)
                     (QpFitter._reg_mat fitter) (QpFitter._h_mat fitter)
    <> quadprog_problem (gram sample_X) Q (neg sample_reg) [0] /\
    ~ qp_minimizer (gram sample_X) Q (neg sample_reg) [0] [1].
Proof.
  exists sample_fitter, [1 * 1 + 0].
  split; [exact sample_fitter_init|]. split; [exact sample_Q|].
  split.
  { intros j Hj. simpl in Hj. assert (j = 0%nat) by lia. subst. reflexivity. }
  split; [exact sample_call|]. split; [exact sample_quadprog_unnegated|].
  split; [|split].
  - rewrite sample_call, sample_quadprog_unnegated. intros H. inversion H. lra.
  - unfold quadprog_problem. simpl. intros H. inversion H. lra.
  - intros [_ [_ Hmin]].
    specialize (Hmin [0] eq_refl).
    assert (Hfeas : qp_feasible (neg sample_reg) [0] [0]).
    { intros i Hi. simpl in Hi. assert (i = 0%nat) by lia. subst.
      unfold sum_upto. simpl. lra. }
    specialize (Hmin Hfeas).
    unfold qp_objective, quad_form, dot_vv in Hmin. reduce_arrays_in Hmin. lra.
Qed.

Lemma sample_solver_sound :
  @solver_sound_on sample_collaborators (gram sample_X) [- (1 * 1 + 0)] (neg sample_reg) [0].
Proof.
  intros sol xs Hsol Hprimal. simpl cvx_solve in Hsol.
  rewrite sample_solve_qp in Hsol; reduce_arrays; try reflexivity; try lra.
  inversion Hsol; subst sol. simpl in Hprimal. inversion Hprimal; subst xs. clear Hsol Hprimal.
  reduce_arrays.
  replace (Rmax (- 0) (- - (1 * 1 + 0) / (1 * 1 + 0))) with 1.
  2:{ rewrite Rmax_right; [field|]. replace (- - (1 * 1 + 0) / (1 * 1 + 0)) with 1 by field. lra. }
  split; [reflexivity|]. split.
  - intros i Hi. simpl in Hi. assert (i = 0%nat) by lia. subst.
    unfold sum_upto. simpl. lra.
  - intros y Hy _. destruct y as [|y0 [|y1 y]]; try discriminate Hy.
    unfold qp_objective, quad_form, dot_vv. reduce_arrays.
    pose proof (Rle_0_sqr (y0 - 1)) as Hsq. unfold Rsqr in Hsq. lra.
Qed.

Lemma QpFitter_call_linear_term_witness :
  @QpFitter.__init__ sample_collaborators sample_X sample_reg = Ok sample_fitter /\
  length [1] = nrows sample_X /\
  exists Q : list R,
    dot_mv (transpose sample_X) [1] = Ok Q /\
    length Q = ncols sample_X /\
    (forall j, (j < ncols sample_X)%nat ->
               nth j Q 0 = sum_upto (nrows sample_X) (fun i => cell sample_X i j * nth i [1] 0)) /\
    @QpFitter.__call__ sample_collaborators sample_fitter [1]
    = @quadprog sample_collaborators (gram sample_X) (map Ropp Q) (neg sample_reg) [0] /\
    @quadprog_problem (gram sample_X) (map Ropp Q) (neg sample_reg) [0]
    = {| objective :=
           Minimize (CvxAdd (CvxMul (CvxScalar 0.5)
                                    (CvxQuadForm (CvxVariable (ncols sample_X))
                                                 (CvxConstant (gram sample_X))))
                            (CvxMul (CvxVector (map Ropp Q)) (CvxVariable (ncols sample_X))));
         constraints :=
           [CvxLe (CvxMul (CvxConstant (neg sample_reg)) (CvxVariable (ncols sample_X)))
                  (CvxVector [0])] |} /\
    (forall xs,
        @QpFitter.__call__ sample_collaborators sample_fitter [1] = Ok xs ->
        @solver_sound_on sample_collaborators (gram sample_X) (map Ropp Q) (neg sample_reg) [0] ->
        qp_minimizer (gram sample_X) (map Ropp Q) (neg sample_reg) [0] xs).
Proof.
  split; [exact sample_fitter_init|]. split; [reflexivity|].
  apply (@QpFitter_call_linear_term sample_collaborators sample_X sample_reg sample_fitter [1]).
  - exact sample_fitter_init.
  - reflexivity.
Defined.

Lemma SH_CONST_pos : 0 < SH_CONST.
Proof.
  unfold SH_CONST. apply Rdiv_lt_0_compat; [lra|].
  apply sqrt_lt_R0. exact PI_RGT_0.
Qed.

Lemma SH_CONST_neq_0 : SH_CONST <> 0.
Proof. pose proof SH_CONST_pos. lra. Qed.


Lemma sample_lp_data :
  exists (x : R) (B G_temp c_temp : ndarray2),
    @lp_data sample_collaborators [0; 0]%Z [0; 2]%Z 0 0 (@default_sphere sample_collaborators)
    = Ok (x, B, G_temp, c_temp) /\
    x = 1 * sin 0 * cos 0 /\ nrows G_temp = 1%nat /\ ncols G_temp = 1%nat /\
    nrows c_temp = 1%nat.
Proof.
  unfold lp_data. simpl. do 4 eexists. split; [reflexivity|].
  split; [reflexivity|]. split; [reflexivity|]. split; reflexivity.
Qed.

Lemma sample_pos_constrained_delta :
  exists out : list nanfloat,
    @_pos_constrained_delta sample_collaborators 1 [0; 0]%Z [0; 2]%Z 0 0
      (@default_sphere sample_collaborators) = Ok out.
Proof.
  destruct sample_lp_data as [x [B [G_temp [c_temp [Hdata [Hx [Hr [Hc Hcr]]]]]]]].
  assert (Hsol : exists sol, @cvx_solve sample_collaborators (lp_prob x G_temp c_temp) = Some sol).
  { simpl cvx_solve. unfold sample_solve, lp_prob. simpl. rewrite Hr, Hc.
    unfold forall_cells. simpl.
    rewrite Rltb_false; [simpl; eexists; reflexivity|].
    rewrite Hx, sin_0.
    replace (- cell G_temp 0 0 * (1 * 0 * cos 0)) with 0 by ring.
    pose proof (pow2_ge_0 SH_CONST) as Hsq. simpl in Hsq. lra. }
  destruct Hsol as [sol Hsol]. eexists.
  apply (pos_constrained_delta_returns 1 _ _ _ _ _ _ _ _ _ sol Hdata); [lia | exact Hsol].
Qed.

(** On the sample input the kernel is [SH_CONST] for the isotropic
    compartment, [SH_CONST] for degree 0 and the float stored for the
    solver's value for degree 2. *)
Lemma sample_pos_constrained_delta_output :
  exists r : nanfloat,
    @_pos_constrained_delta sample_collaborators 1 [0; 0]%Z [0; 2]%Z 0 0
      (@default_sphere sample_collaborators) = Ok [Num SH_CONST; Num SH_CONST; r].
Proof.
  destruct sample_pos_constrained_delta as [out Hout].
  destruct (@pos_constrained_delta_Ok_inv sample_collaborators _ _ _ _ _ _ _ Hout)
    as [x [B [G_temp [c_temp [sol [_ [_ [_ Heq]]]]]]]].
  exists (float_of_value (value sol)). rewrite Hout, Heq. reflexivity.
Qed.




Lemma pos_constrained_delta_lp_has_no_variable_witness :
  exists out : list nanfloat,
    @_pos_constrained_delta sample_collaborators 1 [0; 0]%Z [0; 2]%Z 0 0
      (@default_sphere sample_collaborators) = Ok out /\
    exists (x : R) (B G_temp c_temp : ndarray2) (sol : Solution),
      @lp_data sample_collaborators [0; 0]%Z [0; 2]%Z 0 0
        (@default_sphere sample_collaborators) = Ok (x, B, G_temp, c_temp) /\
      @cvx_solve sample_collaborators (lp_prob x G_temp c_temp) = Some sol /\
      x = fst (fst (@sphere2cart sample_collaborators 1 0 0)) /\
      problem_variables (lp_prob x G_temp c_temp) = [] /\
      objective (lp_prob x G_temp c_temp) = Maximize (CvxSum (CvxConstant c_temp)) /\
      constraints (lp_prob x G_temp c_temp)
      = [CvxLe (CvxMul (CvxParameter (neg G_temp)) (CvxScalar x))
               (CvxParameter (full (nrows G_temp) (ncols G_temp) (SH_CONST ^ 2)))] /\
      (forall j, nth_error [0; 2]%Z j = Some 0%Z ->
                 nth_error out (Z.to_nat 1 + j) = Some (Num SH_CONST)).
Proof.
  destruct sample_pos_constrained_delta as [out Hout]. exists out.
  split; [exact Hout|].
  exact (@pos_constrained_delta_lp_has_no_variable sample_collaborators
           1%Z [0; 0]%Z [0; 2]%Z 0 0 (@default_sphere sample_collaborators) out Hout).
Defined.

(** The sample table with [sh_order = 2] and two isotropic compartments:
    on the b0 row the column of [(m, n) = (-2, 2)] is zero, on the other
    row it holds the harmonic's value. *)
Lemma sample_basis_cells :
  exists B : ndarray2,
    @multi_tissue_basis sample_collaborators sample_gtab 2 2
    = Ok (B, [0; -2; -1; 0; 1; 2]%Z, [0; 2; 2; 2; 2; 2]%Z) /\
    cell B 0 0 = SH_CONST /\ cell B 0 1 = SH_CONST /\
    cell B 0 2 = SH_CONST /\ cell B 0 3 = 0 /\
    cell B 1 3 = cos 1 + -2 * sin 0.
Proof.
  eexists. split.
  - apply (@multi_tissue_basis_returns sample_collaborators sample_gtab 2%Z 2%Z
             [(0, 0); (-2, 2); (-1, 2); (0, 2); (1, 2); (2, 2)]%Z); [lia | reflexivity].
  - simpl. unfold sample_real_sph_harm. simpl. repeat split; reflexivity.
Qed.

Lemma multi_tissue_basis_b0_rows_and_iso_columns_witness :
  (1 <= 2)%Z /\
  @sph_harm_ind_list sample_collaborators 2
  = Some [(0, 0); (-2, 2); (-1, 2); (0, 2); (1, 2); (2, 2)]%Z /\
  exists B : ndarray2,
    @multi_tissue_basis sample_collaborators sample_gtab 2 2
    = Ok (B, [0; -2; -1; 0; 1; 2]%Z, [0; 2; 2; 2; 2; 2]%Z) /\
    nrows B = 2%nat /\
    ncols B = 8%nat /\
    (forall i j g m n,
        nth_error sample_gtab i = Some g -> is_b0 g = true ->
        nth_error [(0, 0); (-2, 2); (-1, 2); (0, 2); (1, 2); (2, 2)]%Z j = Some (m, n) ->
        (0 < n)%Z ->
        cell B i (2 + j) = 0) /\
    (forall i j, (i < 2)%nat -> (j < 2)%nat -> cell B i j = SH_CONST) /\
    (forall i j g m n theta phi,
        nth_error sample_gtab i = Some g ->
        nth_error [(0, 0); (-2, 2); (-1, 2); (0, 2); (1, 2); (2, 2)]%Z j = Some (m, n) ->
        is_b0 g = false \/ (n <= 0)%Z ->
        nth_error (@angles_of sample_collaborators (gradients sample_gtab)) i = Some (theta, phi) ->
        cell B i (2 + j) = @real_sph_harm sample_collaborators m n theta phi).
Proof.
  split; [lia|]. split; [reflexivity|].
  apply (@multi_tissue_basis_b0_rows_and_iso_columns sample_collaborators
           sample_gtab 2%Z 2%Z [(0, 0); (-2, 2); (-1, 2); (0, 2); (1, 2); (2, 2)]%Z).
  - lia.
  - reflexivity.
Defined.

(** ** The program of the fit is least squares *)

Lemma sum_upto_S (k : nat) (f : nat -> R) :
  sum_upto (S k) f = sum_upto k f + f k.
Proof.
  unfold sum_upto. rewrite seq_S, fold_right_app. simpl.
  generalize (seq 0 k). intros l. induction l as [|i l IH]; simpl; [lra|].
  rewrite IH. lra.
Qed.

Lemma sum_upto_ext (k : nat) (f g : nat -> R) :
  (forall i, (i < k)%nat -> f i = g i) -> sum_upto k f = sum_upto k g.
Proof.
  induction k as [|k IH]; intros H; [reflexivity|].
  rewrite !sum_upto_S, IH, (H k) by auto with arith. reflexivity.
Qed.

Lemma sum_upto_plus (k : nat) (f g : nat -> R) :
  sum_upto k (fun i => f i + g i) = sum_upto k f + sum_upto k g.
Proof.
  induction k as [|k IH]; [unfold sum_upto; simpl; lra|].
  rewrite !sum_upto_S, IH. lra.
Qed.

Lemma sum_upto_scal (k : nat) (c : R) (f : nat -> R) :
  sum_upto k (fun i => c * f i) = c * sum_upto k f.
Proof.
  induction k as [|k IH]; [unfold sum_upto; simpl; lra|].
  rewrite !sum_upto_S, IH. lra.
Qed.

Lemma sum_upto_swap (k l : nat) (f : nat -> nat -> R) :
  sum_upto k (fun i => sum_upto l (fun j => f i j))
  = sum_upto l (fun j => sum_upto k (fun i => f i j)).
Proof.
  induction k as [|k IH].
  - transitivity (sum_upto l (fun _ => 0 * 0)).
    + rewrite sum_upto_scal. unfold sum_upto at 1. simpl. lra.
    + apply sum_upto_ext. intros j _. unfold sum_upto. simpl. lra.
  - rewrite sum_upto_S, IH, <- sum_upto_plus.
    apply sum_upto_ext. intros j _. rewrite sum_upto_S. reflexivity.
Qed.

(** [x^T (X^T X) x = |X x|^2] *)
Lemma quad_form_gram (X : ndarray2) (x : list R) :
  length x = ncols X ->
  quad_form x (gram X)
  = sum_upto (nrows X) (fun i =>
      sum_upto (ncols X) (fun j => cell X i j * nth j x 0)
      * sum_upto (ncols X) (fun j => cell X i j * nth j x 0)).
Proof.
  intros Hx. unfold quad_form. rewrite Hx. unfold gram. simpl.
  set (N := nrows X). set (n := ncols X).
  set (r := fun i => sum_upto n (fun j => cell X i j * nth j x 0)).
  transitivity (sum_upto n (fun a => sum_upto N (fun i => (cell X i a * nth a x 0) * r i))).
  - apply sum_upto_ext. intros a _.
    transitivity (sum_upto n (fun b => sum_upto N (fun i =>
                    (cell X i a * nth a x 0) * (cell X i b * nth b x 0)))).
    + apply sum_upto_ext. intros b _.
      rewrite (sum_upto_ext N
                 (fun i => cell X i a * nth a x 0 * (cell X i b * nth b x 0))
                 (fun i => (nth a x 0 * nth b x 0) * (cell X i a * cell X i b)))
        by (intros; ring).
      rewrite sum_upto_scal. ring.
    + rewrite sum_upto_swap. apply sum_upto_ext. intros i _.
      unfold r. rewrite sum_upto_scal. reflexivity.
  - rewrite sum_upto_swap. apply sum_upto_ext. intros i _.
    rewrite (sum_upto_ext n (fun a => cell X i a * nth a x 0 * r i)
               (fun a => r i * (cell X i a * nth a x 0)))
      by (intros; ring).
    rewrite sum_upto_scal. reflexivity.
Qed.

(** [(X^T s)^T x = s^T (X x)] *)
Lemma dot_transpose_adjoint (X : ndarray2) (signal x : list R) :
  sum_upto (ncols X) (fun j =>
    sum_upto (nrows X) (fun i => cell X i j * nth i signal 0) * nth j x 0)
  = sum_upto (nrows X) (fun i =>
      sum_upto (ncols X) (fun j => cell X i j * nth j x 0) * nth i signal 0).
Proof.
  transitivity (sum_upto (ncols X) (fun j => sum_upto (nrows X) (fun i =>
                  nth j x 0 * (cell X i j * nth i signal 0)))).
  - apply sum_upto_ext. intros j _. rewrite sum_upto_scal. ring.
  - rewrite sum_upto_swap. apply sum_upto_ext. intros i _.
    rewrite (sum_upto_ext (ncols X)
               (fun j => nth j x 0 * (cell X i j * nth i signal 0))
               (fun j => nth i signal 0 * (cell X i j * nth j x 0)))
      by (intros; ring).
    rewrite sum_upto_scal. ring.
Qed.

(** With [Q = X^T . signal], the objective [0.5 x^T P x + (-Q)^T x] that
    the fit hands to the solver is, up to the constant
    [0.5 |signal|^2], half the squared residual [|X x - signal|^2]. *)
Lemma fit_objective_is_least_squares (X : ndarray2) (signal x Q : list R) :
  length signal = nrows X ->
  length x = ncols X ->
  dot_mv (transpose X) signal = Ok Q ->
  qp_objective (gram X) (map Ropp Q) x
  = 0.5 * sum_upto (nrows X) (fun i =>
            (sum_upto (ncols X) (fun j => cell X i j * nth j x 0) - nth i signal 0) ^ 2)
    - 0.5 * sum_upto (nrows X) (fun i => nth i signal 0 ^ 2).
Proof.
  intros Hs Hx HQ. rewrite (dot_mv_transpose X signal Hs) in HQ.
  inversion HQ as [HQ']. clear HQ HQ'.
  unfold qp_objective. rewrite (quad_form_gram X x Hx).
  unfold dot_vv. rewrite !length_map, length_seq.
  set (r := fun i => sum_upto (ncols X) (fun j => cell X i j * nth j x 0)).
  assert (Hlin :
    sum_upto (ncols X) (fun j =>
      nth j (map Ropp (map (fun j => sum_upto (nrows X)
                              (fun i => cell X i j * nth i signal 0))
                           (seq 0 (ncols X)))) 0 * nth j x 0)
    = - sum_upto (nrows X) (fun i => r i * nth i signal 0)).
  { unfold r. rewrite <- dot_transpose_adjoint.
    transitivity (sum_upto (ncols X) (fun j =>
                    (-1) * (sum_upto (nrows X) (fun i => cell X i j * nth i signal 0)
                            * nth j x 0))).
    - apply sum_upto_ext. intros j Hj.
      rewrite map_map.
      rewrite (nth_indep _ 0 (- sum_upto (nrows X) (fun i => cell X i 0%nat * nth i signal 0)))
        by (rewrite length_map, length_seq; exact Hj).
      rewrite (map_nth (fun j => - sum_upto (nrows X) (fun i => cell X i j * nth i signal 0))).
      rewrite seq_nth by exact Hj. simpl. ring.
    - rewrite sum_upto_scal. ring. }
  rewrite Hlin.
  assert (Hsq : sum_upto (nrows X) (fun i => (r i - nth i signal 0) ^ 2)
                = sum_upto (nrows X) (fun i => r i * r i)
                  + (-2) * sum_upto (nrows X) (fun i => r i * nth i signal 0)
                  + sum_upto (nrows X) (fun i => nth i signal 0 ^ 2)).
  { rewrite <- sum_upto_scal, <- !sum_upto_plus.
    apply sum_upto_ext. intros i _. ring. }
  unfold r in Hsq. cbv beta in Hsq. rewrite Hsq. unfold r. lra.
Qed.

(* ================================================================== *)
(** * Further properties *)
(* ================================================================== *)


(** ** [closest]: shape, bounds and exact matches *)

(** X1. [closest] raises exactly on an empty haystack; otherwise
    it returns one index per needle, each a valid position of the
    haystack, and a needle that equals some haystack value is matched to
    the first position holding that value. *)
Theorem closest_in_range_and_exact (haystack needle : list R) :
  (haystack = [] ->
   closest haystack needle
   = Raise (LibraryError "numpy.argmin: attempt to get argmin of an empty sequence")) /\
  (haystack <> [] ->
   exists idx,
     closest haystack needle = Ok idx /\
     length idx = length needle /\
     (forall j i, nth_error idx j = Some i -> (i < length haystack)%nat) /\
     (forall j b i,
         nth_error needle j = Some b ->
         nth_error haystack i = Some b ->
         (forall k, (k < i)%nat -> nth k haystack 0 <> b) ->
         nth_error idx j = Some i)).
Proof.
  split.
  - intros ->. reflexivity.
  - intros Hne.
    assert (Hc : closest haystack needle
                 = Ok (map (fun b => argmin (map (fun h => Rabs (h - b)) haystack)) needle)).
    { unfold closest. destruct haystack; [congruence | reflexivity]. }
    eexists. split; [exact Hc|]. split; [apply length_map|]. split.
    + intros j i Hi.
      assert (Hj : (j < length needle)%nat).
      { rewrite <- (length_map (fun b => argmin (map (fun h => Rabs (h - b)) haystack))).
        apply nth_error_Some. congruence. }
      destruct (nth_error needle j) as [b|] eqn:Hb;
        [|apply nth_error_None in Hb; lia].
      destruct (closest_nearest_shell _ _ _ j b Hc Hb) as [i' [Hi' [Hlt _]]].
      rewrite Hi in Hi'. inversion Hi'. subst. exact Hlt.
    + intros j b i Hb Hi Hfirst.
      destruct (closest_nearest_shell _ _ _ j b Hc Hb) as [i' [Hi' [Hlt [Hmin Hstrict]]]].
      rewrite Hi'. f_equal.
      assert (Hil : (i < length haystack)%nat) by (apply nth_error_Some; congruence).
      assert (Hval : nth i haystack 0 = b) by (apply nth_error_nth; exact Hi).
      assert (Hzero : Rabs (nth i haystack 0 - b) = 0).
      { rewrite Hval. replace (b - b) with 0 by lra. apply Rabs_R0. }
      assert (Hval' : nth i' haystack 0 = b).
      { specialize (Hmin i Hil). rewrite Hzero in Hmin.
        pose proof (Rabs_pos (nth i' haystack 0 - b)) as Hpos.
        assert (Hz : Rabs (nth i' haystack 0 - b) = 0) by lra.
        destruct (Req_dec (nth i' haystack 0 - b) 0) as [He|Hn]; [lra|].
        apply Rabs_no_R0 in Hn. contradiction. }
      destruct (Nat.lt_trichotomy i i') as [Hlt'|[Heq|Hgt]].
      * specialize (Hstrict i Hlt'). rewrite Hzero in Hstrict.
        pose proof (Rabs_pos (nth i' haystack 0 - b)). lra.
      * symmetry. exact Heq.
      * exfalso. exact (Hfirst i' Hgt Hval').
Qed.

Lemma closest_in_range_and_exact_witness :
  exists idx,
    closest sample_shells [1490; 2000] = Ok idx /\
    length idx = length [1490; 2000] /\
    (forall j i, nth_error idx j = Some i -> (i < length sample_shells)%nat) /\
    (forall j b i,
        nth_error [1490; 2000] j = Some b ->
        nth_error sample_shells i = Some b ->
        (forall k, (k < i)%nat -> nth k sample_shells 0 <> b) ->
        nth_error idx j = Some i).
Proof.
  apply (proj2 (closest_in_range_and_exact sample_shells [1490; 2000])).
  discriminate.
Defined.

(** ** [_rank]: bounds *)

Lemma filter_length_le {A : Type} (p : A -> bool) (l : list A) :
  (length (filter p l) <= length l)%nat.
Proof.
  induction l as [|a l IH]; simpl; [lia|]. destruct (p a); simpl; lia.
Qed.

Lemma filter_all_false {A : Type} (p : A -> bool) (l : list A) :
  (forall a, In a l -> p a = false) -> filter p l = [].
Proof.
  induction l as [|a l IH]; intros H; simpl; [reflexivity|].
  rewrite (H a) by (left; reflexivity). apply IH. intros b Hb. apply H. right; exact Hb.
Qed.

Section RankProperties.
Context {C : Collaborators}.

(** X2. When [svd] returns the singular values [s0 :: s] in
    descending order, [_rank] returns a number between 0 and their count;
    it is 0 exactly when the largest one is not positive, and it is the
    full count exactly when every singular value exceeds [1e-8 * s0]. *)
Theorem rank_bounds (A : ndarray2) (s0 : R) (s : list R) :
  la_svd A = Some (s0 :: s) ->
  (forall sv, In sv s -> sv <= s0) ->
  exists r : nat,
    _rank A 1e-8 = Ok r /\
    (r <= length (s0 :: s))%nat /\
    (r = 0%nat <-> s0 <= 0) /\
    (r = length (s0 :: s) <-> forall sv, In sv (s0 :: s) -> sv > 1e-8 * s0).
Proof.
  intros Hs Hdesc. unfold _rank. rewrite Hs. cbv beta iota zeta delta [bind from_library].
  eexists. split; [reflexivity|]. split; [apply filter_length_le|]. split.
  - split.
    + intros Hr. destruct (Rle_dec s0 0) as [Hle|Hgt]; [exact Hle|]. exfalso.
      simpl in Hr. rewrite (proj2 (Rgtb_true_iff s0 (s0 * 1e-8))) in Hr by lra.
      discriminate Hr.
    + intros Hle. rewrite filter_all_false; [reflexivity|].
      intros sv Hin.
      destruct (Rgtb sv (s0 * 1e-8)) eqn:Hg; [|reflexivity]. exfalso.
      apply Rgtb_true_iff in Hg.
      assert (sv <= s0) by (destruct Hin as [<-|Hin]; [lra | apply Hdesc; exact Hin]).
      lra.
  - split.
    + intros Hlen sv Hin.
      assert (Hall : forall l : list R,
                 length (filter (fun x => Rgtb x (s0 * 1e-8)) l) = length l ->
                 forall x, In x l -> Rgtb x (s0 * 1e-8) = true).
      { induction l as [|a l IH]; intros Hl x Hx; [destruct Hx|].
        simpl in Hl. destruct (Rgtb a (s0 * 1e-8)) eqn:Ha.
        - simpl in Hl. destruct Hx as [<-|Hx]; [exact Ha|]. apply IH; [lia | exact Hx].
        - pose proof (filter_length_le (fun x => Rgtb x (s0 * 1e-8)) l). simpl in Hl. lia. }
      specialize (Hall _ Hlen sv Hin). apply Rgtb_true_iff in Hall. lra.
    + intros Hall.
      assert (Hkeep : forall l : list R,
                 (forall x, In x l -> x > 1e-8 * s0) ->
                 length (filter (fun x => Rgtb x (s0 * 1e-8)) l) = length l).
      { induction l as [|a l IH]; intros Hl; [reflexivity|]. simpl.
        rewrite (proj2 (Rgtb_true_iff a (s0 * 1e-8)))
          by (specialize (Hl a (or_introl eq_refl)); lra).
        simpl. f_equal. apply IH. intros x Hx. apply Hl. right; exact Hx. }
      apply Hkeep. exact Hall.
Qed.

End RankProperties.

Lemma rank_bounds_witness :
  @la_svd sample_collaborators (gram sample_X_duplicate_columns) = Some [2; 0] /\
  (forall sv, In sv [0] -> sv <= 2) /\
  exists r : nat,
    @_rank sample_collaborators (gram sample_X_duplicate_columns) 1e-8 = Ok r /\
    (r <= length [2; 0])%nat /\
    (r = 0%nat <-> 2 <= 0) /\
    (r = length [2; 0] <-> forall sv, In sv [2; 0] -> sv > 1e-8 * 2).
Proof.
  assert (Hd : forall sv, In sv [0] -> sv <= 2).
  { intros sv [<-|[]]. lra. }
  split; [exact sample_svd_duplicate_columns|]. split; [exact Hd|].
  exact (@rank_bounds sample_collaborators (gram sample_X_duplicate_columns) 2 [0]
           sample_svd_duplicate_columns Hd).
Defined.

(** ** The fit as constrained least squares *)

Lemma qp_feasible_neg (reg : ndarray2) (x : list R) :
  qp_feasible (neg reg) [0] x <-> nonneg_on reg x.
Proof.
  unfold qp_feasible, nonneg_on. simpl.
  assert (Hsum : forall i,
             sum_upto (ncols reg) (fun k => - cell reg i k * nth k x 0)
             = - sum_upto (ncols reg) (fun k => cell reg i k * nth k x 0)).
  { intros i.
    rewrite (sum_upto_ext (ncols reg) _
               (fun k => (-1) * (cell reg i k * nth k x 0))) by (intros; ring).
    rewrite sum_upto_scal. ring. }
  split; intros H i Hi; specialize (H i Hi); rewrite Hsum in *; lra.
Qed.

Section LeastSquares.
Context {C : Collaborators}.

(** What a returning fit hands back, in the terms of the quadratic
    program it was built from. *)
Lemma QpFitter_call_minimizer
  (X reg : ndarray2) (fitter : QpFitter.t) (signal Q xs : list R) :
  QpFitter.__init__ X reg = Ok fitter ->
  dot_mv (transpose X) signal = Ok Q ->
  QpFitter.__call__ fitter signal = Ok xs ->
  solver_sound_on (gram X) (map Ropp Q) (neg reg) [0] ->
  length signal = nrows X /\ length Q = ncols X /\
  qp_minimizer (gram X) (map Ropp Q) (neg reg) [0] xs.
Proof.
  intros Hinit HQ Hcall Hsound.
  apply QpFitter_init_Ok_inv in Hinit. destruct Hinit as [_ ->].
  assert (Hlen : length signal = nrows X).
  { unfold dot_mv in HQ. simpl in HQ.
    destruct (Nat.eqb_spec (nrows X) (length signal)) as [He|]; [auto | discriminate HQ]. }
  assert (HlenQ : length Q = ncols X).
  { rewrite (dot_mv_transpose X signal Hlen) in HQ. inversion HQ.
    rewrite length_map, length_seq. reflexivity. }
  unfold QpFitter.__call__ in Hcall. simpl in Hcall. rewrite HQ in Hcall. simpl in Hcall.
  apply quadprog_Ok_inv in Hcall. destruct Hcall as [sol [Hsol Hprimal]].
  split; [exact Hlen|]. split; [exact HlenQ|].
  exact (Hsound sol xs Hsol Hprimal).
Qed.

(** X3. For a fitter built from [X] and [reg]: when the fit
    of a signal returns [xs] and the solver is sound on the program it
    was handed, [xs] has one entry per column of [X], satisfies
    [reg . xs >= 0] row by row, and its squared residual
    [|X xs - signal|^2] is the least among all vectors of that length
    with [reg . y >= 0]. *)
Theorem fit_is_constrained_least_squares
  (X reg : ndarray2) (fitter : QpFitter.t) (signal Q xs : list R) :
  QpFitter.__init__ X reg = Ok fitter ->
  dot_mv (transpose X) signal = Ok Q ->
  QpFitter.__call__ fitter signal = Ok xs ->
  solver_sound_on (gram X) (map Ropp Q) (neg reg) [0] ->
  length xs = ncols X /\
  nonneg_on reg xs /\
  forall y, length y = ncols X -> nonneg_on reg y ->
            residual2 X signal xs <= residual2 X signal y.
Proof.
  intros Hinit HQ Hcall Hsound.
  destruct (QpFitter_call_minimizer X reg fitter signal Q xs Hinit HQ Hcall Hsound)
    as [Hlen [HlenQ [Hxs [Hfeas Hmin]]]].
  rewrite length_map in Hxs, Hmin. rewrite HlenQ in Hxs, Hmin.
  split; [exact Hxs|]. split; [apply qp_feasible_neg; exact Hfeas|].
  intros y Hy Hynn.
  specialize (Hmin y Hy (proj2 (qp_feasible_neg reg y) Hynn)).
  rewrite (fit_objective_is_least_squares X signal xs Q Hlen Hxs HQ) in Hmin.
  rewrite (fit_objective_is_least_squares X signal y Q Hlen Hy HQ) in Hmin.
  unfold residual2. lra.
Qed.

(** X4. For a fitter built from [X] and [reg]: a signal whose
    length differs from the number of rows of [X] makes the fit raise
    numpy's shape error, whatever the solver; a fit that returns has a
    signal of that length and returns one coefficient per column of
    [X]. *)
Theorem QpFitter_call_shapes
  (X reg : ndarray2) (fitter : QpFitter.t) (signal : list R) :
  QpFitter.__init__ X reg = Ok fitter ->
  (length signal <> nrows X ->
   QpFitter.__call__ fitter signal = Raise (LibraryError "numpy.dot: shapes not aligned")) /\
  (forall xs, QpFitter.__call__ fitter signal = Ok xs ->
              length signal = nrows X /\ length xs = ncols X).
Proof.
  intros Hinit. apply QpFitter_init_Ok_inv in Hinit. destruct Hinit as [_ ->].
  unfold QpFitter.__call__. simpl. split.
  - intros Hne. unfold dot_mv. simpl.
    destruct (Nat.eqb_spec (nrows X) (length signal)) as [He|_]; [congruence | reflexivity].
  - intros xs H. bind_ok H Q HQ.
    assert (Hlen : length signal = nrows X).
    { unfold dot_mv in HQ. simpl in HQ.
      destruct (Nat.eqb_spec (nrows X) (length signal)) as [He|]; [auto | discriminate HQ]. }
    split; [exact Hlen|].
    rewrite (dot_mv_transpose X signal Hlen) in HQ. inversion HQ as [HQ']. clear HQ.
    unfold quadprog in H. bind_ok H sol Hsol.
    destruct (primal sol) as [opt|]; [|discriminate H].
    destruct (Nat.eqb_spec (length opt) (length (map Ropp Q))) as [He|]; [|discriminate H].
    inversion H; subst. rewrite He, !length_map, length_seq. reflexivity.
Qed.

End LeastSquares.

Lemma fit_is_constrained_least_squares_witness :
  @QpFitter.__init__ sample_collaborators sample_X sample_reg = Ok sample_fitter /\
  dot_mv (transpose sample_X) [1] = Ok [1 * 1 + 0] /\
  @QpFitter.__call__ sample_collaborators sample_fitter [1] = Ok [1] /\
  @solver_sound_on sample_collaborators (gram sample_X) (map Ropp [1 * 1 + 0])
     (neg sample_reg) [0] /\
  length [1] = ncols sample_X /\
  nonneg_on sample_reg [1] /\
  forall y, length y = ncols sample_X -> nonneg_on sample_reg y ->
            residual2 sample_X [1] [1] <= residual2 sample_X [1] y.
Proof.
  split; [exact sample_fitter_init|]. split; [exact sample_Q|].
  split; [exact sample_call|]. split; [exact sample_solver_sound|].
  exact (@fit_is_constrained_least_squares sample_collaborators sample_X sample_reg
           sample_fitter [1] [1 * 1 + 0] [1]
           sample_fitter_init sample_Q sample_call sample_solver_sound).
Defined.

Lemma QpFitter_call_shapes_witness :
  @QpFitter.__init__ sample_collaborators sample_X sample_reg = Ok sample_fitter /\
  (length [1; 2] <> nrows sample_X ->
   @QpFitter.__call__ sample_collaborators sample_fitter [1; 2]
   = Raise (LibraryError "numpy.dot: shapes not aligned")) /\
  (forall xs, @QpFitter.__call__ sample_collaborators sample_fitter [1; 2] = Ok xs ->
              length [1; 2] = nrows sample_X /\ length xs = ncols sample_X).
Proof.
  split; [exact sample_fitter_init|].
  exact (@QpFitter_call_shapes sample_collaborators sample_X sample_reg sample_fitter
           [1; 2] sample_fitter_init).
Defined.

(** ** Building the model *)

Section ModelConstruction.
Context {C : Collaborators}.

Lemma multi_tissue_basis_Ok_inv (gtab : GradientTable) (sh_order iso_comp : Z)
  (B : ndarray2) (m n : list Z) :
  multi_tissue_basis gtab sh_order iso_comp = Ok (B, m, n) ->
  (1 <= iso_comp)%Z /\
  exists mn,
    sph_harm_ind_list sh_order = Some mn /\
    m = map fst mn /\ n = map snd mn /\
    nrows B = length gtab /\
    ncols B = (Z.to_nat iso_comp + length mn)%nat /\
    (forall i j, (j < Z.to_nat iso_comp)%nat -> cell B i j = SH_CONST).
Proof.
  intros H.
  assert (Hiso : (1 <= iso_comp)%Z).
  { unfold multi_tissue_basis in H.
    destruct (Z.ltb_spec iso_comp 1) as [Hlt|Hge]; [discriminate H | exact Hge]. }
  split; [exact Hiso|].
  destruct (sph_harm_ind_list sh_order) as [mn|] eqn:Hmn.
  - rewrite (multi_tissue_basis_returns gtab sh_order iso_comp mn Hiso Hmn) in H.
    inversion H; subst. exists mn. simpl. repeat split; try reflexivity.
    intros i j Hj.
    replace (Nat.ltb j (Z.to_nat iso_comp)) with true
      by (symmetry; apply Nat.ltb_lt; exact Hj).
    reflexivity.
  - unfold multi_tissue_basis in H.
    destruct (Z.ltb_spec iso_comp 1) as [Hlt|Hge]; [discriminate H|].
    rewrite Hmn in H. discriminate H.
Qed.

Lemma real_entries_Ok_inv (l : list nanfloat) (d : list R) :
  real_entries l = Ok d -> l = map Num d.
Proof.
  revert d. induction l as [|[r|] l IH]; intros d H; simpl in H.
  - inversion H. reflexivity.
  - bind_ok H rs Hrs. inversion H; subst d. simpl. rewrite (IH rs Hrs). reflexivity.
  - discriminate H.
Qed.

Lemma real_entries_Raise_inv (l : list nanfloat) (e : exn) :
  real_entries l = Raise e -> False.
Proof.
  induction l as [|[r|] l IH]; intros H; simpl in H.
  - discriminate H.
  - apply bind_Raise_inv in H. destruct H as [H|[rs [_ H]]]; [auto | discriminate H].
  - discriminate H.
Qed.

Lemma map_Num_repeat (d : list R) (c : R) (k : nat) :
  map Num d = repeat (Num c) k -> d = repeat c k.
Proof.
  revert d. induction k as [|k IH]; intros [|r d] H; simpl in *;
    try discriminate H; [reflexivity|].
  inversion H. f_equal. apply IH. assumption.
Qed.

(** Both delta kernels start with [iso] copies of [SH_CONST]. *)
Lemma delta_functions_iso_prefix (delta_form : string)
  (delta_f : Z -> list Z -> list Z -> R -> R -> result (list R))
  (iso : Z) (m n : list Z) (theta phi : R) (delta : list R) :
  delta_functions delta_form = Some delta_f ->
  delta_f iso m n theta phi = Ok delta ->
  exists rest, delta = repeat SH_CONST (Z.to_nat iso) ++ rest.
Proof.
  unfold delta_functions.
  destruct (String.eqb delta_form "basic").
  - intros H Hd. inversion H; subst. unfold _basic_delta in Hd. inversion Hd.
    eexists. reflexivity.
  - destruct (String.eqb delta_form "positivity_constrained"); [|discriminate].
    intros H Hd. inversion H; subst.
    bind_ok Hd kernel Hk. apply real_entries_Ok_inv in Hd.
    apply pos_constrained_delta_Ok_inv in Hk.
    destruct Hk as [x [B [G [c [sol [_ [_ [_ Hk]]]]]]]]. rewrite Hk in Hd.
    symmetry in Hd. apply map_eq_app in Hd.
    destruct Hd as [d1 [d2 [-> [Hd1 _]]]].
    apply map_Num_repeat in Hd1. subst d1. eexists. reflexivity.
Qed.

Lemma MultiShellDeconvModel_init_Ok_inv
  (gtab : GradientTable) (response : MultiShellResponse.t) (reg_sphere : Sphere)
  (iso : Z) (delta_form : string) (model : MultiShellDeconvModel.t) :
  MultiShellDeconvModel.__init__ gtab response reg_sphere iso delta_form = Ok model ->
  exists B m n delta_f delta multiplier_matrix odf_reg X fitter,
    multi_tissue_basis gtab (MultiShellResponse.sh_order response) iso = Ok (B, m, n) /\
    delta_functions delta_form = Some delta_f /\
    delta_f (MultiShellResponse.iso response) (MultiShellResponse.m response)
            (MultiShellResponse.n response) 0 0 = Ok delta /\
    _inflate_response response gtab n delta = Ok multiplier_matrix /\
    real_sym_sh_basis (MultiShellResponse.sh_order response)
      (map fst (angles_of (vertices reg_sphere)))
      (map snd (angles_of (vertices reg_sphere))) = Some odf_reg /\
    broadcast2 Rmult B multiplier_matrix = Ok X /\
    QpFitter.__init__ X (reg_matrix (Z.to_nat iso) odf_reg) = Ok fitter /\
    model = {| MultiShellDeconvModel.gtab := gtab;
               MultiShellDeconvModel.fitter := fitter;
               MultiShellDeconvModel.sh_order := MultiShellResponse.sh_order response;
               MultiShellDeconvModel._X := X;
               MultiShellDeconvModel.sphere := reg_sphere;
               MultiShellDeconvModel.response := response;
               MultiShellDeconvModel.B_dwi := B;
               MultiShellDeconvModel.m := m;
               MultiShellDeconvModel.n := n;
               MultiShellDeconvModel.delta := delta |}.
Proof.
  unfold MultiShellDeconvModel.__init__. intros H.
  bind_ok H Bmn HB. destruct Bmn as [[B m] n]. simpl in H.
  bind_ok H delta_f Hf. apply from_library_Ok_inv in Hf.
  bind_ok H delta Hd. bind_ok H mmat Hm.
  bind_ok H odf_reg Ho. apply from_library_Ok_inv in Ho.
  bind_ok H X HX. bind_ok H fitter Hfit.
  inversion H; subst.
  exists B, m, n, delta_f, delta, mmat, odf_reg, X, fitter.
  repeat split; assumption.
Qed.

Lemma broadcast_len_ge_2 (a b c : nat) :
  (2 <= a)%nat -> (2 <= b)%nat -> broadcast_len a b = Some c -> a = b /\ c = a.
Proof.
  unfold broadcast_len. intros Ha Hb.
  destruct (Nat.eqb_spec a b) as [->|Hne].
  - intros H; inversion H; auto.
  - destruct (Nat.eqb_spec a 1) as [->|_]; [lia|].
    destruct (Nat.eqb_spec b 1) as [->|_]; [lia | discriminate].
Qed.

Lemma broadcast_len_same (a : nat) : broadcast_len a a = Some a.
Proof. unfold broadcast_len. rewrite Nat.eqb_refl. reflexivity. Qed.

Lemma broadcast_ix_in_range (a i : nat) : (i < a)%nat -> broadcast_ix a i = i.
Proof.
  unfold broadcast_ix. intros Hi.
  destruct (Nat.eqb_spec a 1) as [->|_]; [lia | reflexivity].
Qed.

(** The shape of an inflated response. *)
Lemma inflate_response_shape (response : MultiShellResponse.t) (gtab : GradientTable)
  (n : list Z) (delta : list R) (M : ndarray2) :
  _inflate_response response gtab n delta = Ok M ->
  n <> [] /\
  nrows M = length gtab /\
  ncols M = (Z.to_nat (MultiShellResponse.iso response) + length n)%nat.
Proof.
  intros H. apply inflate_response_Ok_inv in H.
  destruct H as [Hguard [b_idx [kernal [Hc [_ [Hr [Hcl _]]]]]]].
  split; [exact (mismatch_false_nonempty _ _ Hguard)|]. split.
  - rewrite Hr. apply closest_Ok_inv in Hc. destruct Hc as [_ ->].
    unfold bvals. rewrite !length_map. reflexivity.
  - rewrite Hcl. unfold n_idx.
    rewrite length_app, !length_map, length_seq. reflexivity.
Qed.

Lemma model_init_shapes
  (resp : ndarray2) (so : Z) (shells : list R)
  (gtab : GradientTable) (response : MultiShellResponse.t) (reg_sphere : Sphere)
  (iso : Z) (delta_form : string) (model : MultiShellDeconvModel.t) :
  MultiShellResponse.__init__ resp so shells = Ok response ->
  MultiShellDeconvModel.__init__ gtab response reg_sphere iso delta_form = Ok model ->
  iso = MultiShellResponse.iso response /\
  (1 <= iso)%Z /\
  MultiShellDeconvModel.n model <> [] /\
  nrows (MultiShellDeconvModel._X model) = length gtab /\
  ncols (MultiShellDeconvModel._X model)
  = (Z.to_nat iso + length (MultiShellDeconvModel.n model))%nat.
Proof.
  intros Hresp Hmodel.
  apply MultiShellResponse_init_inv in Hresp.
  destruct Hresp as [_ [Hso [_ [_ [_ Hriso]]]]].
  apply MultiShellDeconvModel_init_Ok_inv in Hmodel.
  destruct Hmodel as [B [m [n [delta_f [delta [mmat [odf [X [fitter
    [HB [_ [_ [Hm [_ [HX [Hfit ->]]]]]]]]]]]]]]]]. simpl.
  apply multi_tissue_basis_Ok_inv in HB.
  destruct HB as [Hiso [mn [_ [Hmm [Hnn [HBr [HBc _]]]]]]].
  apply inflate_response_shape in Hm. destruct Hm as [Hne [Hmr Hmc]].
  assert (Hlen : length mn = length n) by (rewrite Hnn, length_map; reflexivity).
  unfold broadcast2 in HX.
  destruct (broadcast_len (nrows B) (nrows mmat)) as [r|] eqn:Hr; [|discriminate HX].
  destruct (broadcast_len (ncols B) (ncols mmat)) as [c|] eqn:Hc; [|discriminate HX].
  rewrite HBr, Hmr, broadcast_len_same in Hr. inversion Hr; subst r.
  assert (Hn1 : (1 <= length n)%nat).
  { destruct n; [congruence | simpl; lia]. }
  apply broadcast_len_ge_2 in Hc; [|lia|lia].
  destruct Hc as [Hcols ->].
  assert (Heq : iso = MultiShellResponse.iso response) by lia.
  inversion HX; subst X. simpl in *.
  repeat split; try assumption. lia.
Qed.

(** X5. A model built from a response that the
    constructor returned keeps that response and its [sh_order]; its
    [iso] argument equals the response's [iso]; its forward operator [X]
    has one row per measurement and [iso + len(n)] columns, is the
    operator the fitter holds, and has a Gram matrix of full rank. *)
Theorem model_construction_invariants
  (resp : ndarray2) (so : Z) (shells : list R)
  (gtab : GradientTable) (response : MultiShellResponse.t) (reg_sphere : Sphere)
  (iso : Z) (delta_form : string) (model : MultiShellDeconvModel.t) :
  MultiShellResponse.__init__ resp so shells = Ok response ->
  MultiShellDeconvModel.__init__ gtab response reg_sphere iso delta_form = Ok model ->
  iso = MultiShellResponse.iso response /\
  (1 <= iso)%Z /\
  MultiShellDeconvModel.response model = response /\
  MultiShellDeconvModel.sh_order model = so /\
  MultiShellDeconvModel.gtab model = gtab /\
  MultiShellDeconvModel.n model <> [] /\
  length (MultiShellDeconvModel.m model) = length (MultiShellDeconvModel.n model) /\
  nrows (MultiShellDeconvModel._X model) = length gtab /\
  ncols (MultiShellDeconvModel._X model)
  = (Z.to_nat iso + length (MultiShellDeconvModel.n model))%nat /\
  QpFitter._X (MultiShellDeconvModel.fitter model) = MultiShellDeconvModel._X model /\
  _rank (gram (MultiShellDeconvModel._X model)) 1e-8
  = Ok (ncols (MultiShellDeconvModel._X model)).
Proof.
  intros Hresp Hmodel.
  destruct (model_init_shapes _ _ _ _ _ _ _ _ _ Hresp Hmodel)
    as [Hiso [Hge [Hne [Hr Hc]]]].
  apply MultiShellResponse_init_inv in Hresp.
  destruct Hresp as [_ [Hso _]].
  apply MultiShellDeconvModel_init_Ok_inv in Hmodel.
  destruct Hmodel as [B [m [n [delta_f [delta [mmat [odf [X [fitter
    [HB [_ [_ [_ [_ [_ [Hfit ->]]]]]]]]]]]]]]]]. simpl in *.
  apply multi_tissue_basis_Ok_inv in HB.
  destruct HB as [_ [mn [_ [Hmm [Hnn _]]]]].
  apply QpFitter_init_Ok_inv in Hfit. destruct Hfit as [Hrank ->]. simpl.
  repeat split; try assumption; try reflexivity.
  rewrite Hmm, Hnn, !length_map. reflexivity.
Qed.

End ModelConstruction.

(** ** The pipeline on the second sample *)

Lemma pipeline_response_init :
  MultiShellResponse.__init__ pipeline_response_array 2 pipeline_shells = Ok pipeline_response.
Proof. reflexivity. Qed.

Lemma closest_pipeline : closest pipeline_shells (bvals pipeline_gtab) = Ok [0%nat; 1%nat].
Proof.
  unfold closest, argmin, pipeline_shells, pipeline_gtab. simpl.
  replace (0 - 0) with 0 by lra.
  replace (1000 - 0) with 1000 by lra.
  replace (0 - 1000) with (- 1000) by lra.
  replace (1000 - 1000) with 0 by lra.
  rewrite Rabs_R0.
  Rabs_decide. Rltb_decide. reflexivity.
Qed.

Lemma pipeline_inflate :
  exists M,
    _inflate_response pipeline_response pipeline_gtab [0%Z]
      [SH_CONST; SH_CONST; SH_CONST] = Ok M /\
    nrows M = 2%nat /\ ncols M = 2%nat /\
    cell M 0 0 = 1 / SH_CONST /\ cell M 0 1 = 0 / SH_CONST /\
    cell M 1 0 = 0 / SH_CONST /\ cell M 1 1 = 1 / SH_CONST.
Proof.
  unfold _inflate_response.
  change (mismatch [0%Z] (MultiShellResponse.sh_order pipeline_response))
    with (@Ok bool false).
  cbv beta iota delta [bind].
  change (MultiShellResponse.shells pipeline_response) with pipeline_shells.
  rewrite closest_pipeline.
  eexists. split; [reflexivity|]. simpl. repeat split; reflexivity.
Qed.

Lemma sample_svd_2x2 (A : ndarray2) (a b d : R) :
  nrows A = 2%nat -> cell A 0 0 = a -> cell A 0 1 = b -> cell A 1 1 = d ->
  sample_svd A
  = Some [(a + d) / 2 + sqrt (((a - d) / 2) ^ 2 + b ^ 2);
          (a + d) / 2 - sqrt (((a - d) / 2) ^ 2 + b ^ 2)].
Proof.
  intros Hr Ha Hb Hd. unfold sample_svd. rewrite Hr, Ha, Hb, Hd. reflexivity.
Qed.

Lemma sample_rank_identity (A : ndarray2) :
  nrows A = 2%nat -> cell A 0 0 = 1 -> cell A 0 1 = 0 -> cell A 1 1 = 1 ->
  @_rank pipeline_collaborators A 1e-8 = Ok 2%nat.
Proof.
  intros Hr Ha Hb Hd. unfold _rank. simpl la_svd.
  rewrite (sample_svd_2x2 A 1 0 1 Hr Ha Hb Hd).
  replace (((1 - 1) / 2) ^ 2 + 0 ^ 2) with 0 by (simpl; lra).
  rewrite sqrt_0.
  cbv beta iota zeta delta [bind from_library]. simpl.
  unfold Rgtb.
  rewrite (Rltb_true (((1 + 1) / 2 + 0) * 1e-8) ((1 + 1) / 2 + 0)) by lra.
  rewrite (Rltb_true (((1 + 1) / 2 + 0) * 1e-8) ((1 + 1) / 2 - 0)) by lra.
  reflexivity.
Qed.

Lemma QpFitter_init_returns {C : Collaborators} (X reg : ndarray2) :
  _rank (gram X) 1e-8 = Ok (ncols X) ->
  QpFitter.__init__ X reg
  = Ok {| QpFitter._P := gram X; QpFitter._X := X; QpFitter._reg := reg;
          QpFitter._P_mat := gram X; QpFitter._reg_mat := neg reg;
          QpFitter._h_mat := [0] |}.
Proof.
  intros Hr. unfold QpFitter.__init__. rewrite dot_transpose_gram.
  cbv beta iota delta [bind]. rewrite Hr. simpl. rewrite Nat.eqb_refl. reflexivity.
Qed.

(** The model of the second sample is built, for any regularization
    sphere: its forward operator is the 2x2 identity. *)
Lemma pipeline_model_built (reg_sphere : Sphere) :
  exists model X,
    @MultiShellDeconvModel.__init__ pipeline_collaborators
      pipeline_gtab pipeline_response reg_sphere 1 "basic" = Ok model /\
    MultiShellDeconvModel._X model = X /\
    MultiShellDeconvModel.fitter model
    = {| QpFitter._P := gram X; QpFitter._X := X;
         QpFitter._reg :=
           reg_matrix 1 {| nrows := length (vertices reg_sphere); ncols := 1;
                           cell := fun _ _ => SH_CONST |};
         QpFitter._P_mat := gram X;
         QpFitter._reg_mat :=
           neg (reg_matrix 1 {| nrows := length (vertices reg_sphere); ncols := 1;
                                cell := fun _ _ => SH_CONST |});
         QpFitter._h_mat := [0] |} /\
    nrows X = 2%nat /\ ncols X = 2%nat /\
    cell X 0 0 = 1 /\ cell X 0 1 = 0 /\ cell X 1 0 = 0 /\ cell X 1 1 = 1.
Proof.
  unfold MultiShellDeconvModel.__init__.
  change (MultiShellResponse.sh_order pipeline_response) with 2%Z.
  rewrite (@multi_tissue_basis_returns pipeline_collaborators pipeline_gtab 2%Z 1%Z
             [(0, 0)%Z]) by (try lia; reflexivity).
  cbv beta iota delta [bind].
  change (@delta_functions pipeline_collaborators "basic")
    with (Some (@_basic_delta pipeline_collaborators)).
  cbv beta iota zeta delta [from_library _basic_delta bind].
  change (repeat SH_CONST (Z.to_nat (MultiShellResponse.iso pipeline_response))
          ++ @gen_dirac pipeline_collaborators (MultiShellResponse.m pipeline_response)
               (MultiShellResponse.n pipeline_response) 0 0)
    with [SH_CONST; SH_CONST; SH_CONST].
  change (map snd [(0%Z, 0%Z)]) with [0%Z].
  destruct pipeline_inflate as [M [HM [Hr [Hc [H00 [H01 [H10 H11]]]]]]].
  rewrite HM.
  simpl real_sym_sh_basis. cbv beta iota.
  unfold broadcast2. simpl nrows. simpl ncols. rewrite Hr, Hc.
  change (broadcast_len 2 2) with (Some 2%nat). cbv beta iota.
  assert (Hcells :
    forall X : ndarray2,
      X = {| nrows := 2; ncols := 2;
             cell := fun i j =>
               cell {| nrows := length pipeline_gtab;
                       ncols := (Z.to_nat 1 + length [(0%Z, 0%Z)])%nat;
                       cell := fun i0 j0 =>
                         if Nat.ltb j0 (Z.to_nat 1) then SH_CONST
                         else cell (assign_ix_mask
                                      (@real_sph_harm_grid pipeline_collaborators [(0%Z, 0%Z)]
                                         (@angles_of pipeline_collaborators
                                            (gradients pipeline_gtab)))
                                      (b0s_mask pipeline_gtab)
                                      (map (fun v : Z => (0 <? v)%Z) [0%Z]) 0)
                                   i0 (j0 - Z.to_nat 1)%nat |}
                    (broadcast_ix 2 i) (broadcast_ix 2 j)
               * cell M (broadcast_ix 2 i) (broadcast_ix 2 j) |} ->
      cell X 0 0 = 1 /\ cell X 0 1 = 0 /\ cell X 1 0 = 0 /\ cell X 1 1 = 1).
  { intros X ->. simpl. unfold broadcast_ix, sample_real_sph_harm. simpl.
    rewrite H00, H01, H10, H11.
    repeat split; field; exact SH_CONST_neq_0. }
  match goal with
  | |- context [@QpFitter.__init__ _ ?X ?reg] =>
      destruct (Hcells X eq_refl) as [X00 [X01 [X10 X11]]];
      rewrite (@QpFitter_init_returns pipeline_collaborators X reg)
  end.
  - eexists. eexists. split; [reflexivity|]. simpl.
    unfold angles_of. rewrite !length_map.
    repeat split; try reflexivity; assumption.
  - apply sample_rank_identity.
    + reflexivity.
    + unfold gram. reduce_arrays. fold (Z.to_nat 1). simpl in X00, X10.
      rewrite X00, X10. lra.
    + unfold gram. reduce_arrays. simpl in X00, X10, X01, X11.
      rewrite X00, X10, X01, X11. lra.
    + unfold gram. reduce_arrays. simpl in X01, X11.
      rewrite X01, X11. lra.
Qed.

Lemma model_construction_invariants_witness :
  MultiShellResponse.__init__ pipeline_response_array 2 pipeline_shells = Ok pipeline_response /\
  exists model,
    @MultiShellDeconvModel.__init__ pipeline_collaborators
      pipeline_gtab pipeline_response pipeline_sphere 1 "basic" = Ok model /\
    (1%Z = MultiShellResponse.iso pipeline_response /\
     (1 <= 1)%Z /\
     MultiShellDeconvModel.response model = pipeline_response /\
     MultiShellDeconvModel.sh_order model = 2%Z /\
     MultiShellDeconvModel.gtab model = pipeline_gtab /\
     MultiShellDeconvModel.n model <> [] /\
     length (MultiShellDeconvModel.m model) = length (MultiShellDeconvModel.n model) /\
     nrows (MultiShellDeconvModel._X model) = length pipeline_gtab /\
     ncols (MultiShellDeconvModel._X model)
     = (Z.to_nat 1 + length (MultiShellDeconvModel.n model))%nat /\
     QpFitter._X (MultiShellDeconvModel.fitter model) = MultiShellDeconvModel._X model /\
     @_rank pipeline_collaborators (gram (MultiShellDeconvModel._X model)) 1e-8
     = Ok (ncols (MultiShellDeconvModel._X model))).
Proof.
  split; [exact pipeline_response_init|].
  destruct (pipeline_model_built pipeline_sphere) as [model [X [Hmodel _]]].
  exists model. split; [exact Hmodel|].
  exact (@model_construction_invariants pipeline_collaborators
           pipeline_response_array 2%Z pipeline_shells pipeline_gtab pipeline_response
           pipeline_sphere 1%Z "basic" model pipeline_response_init Hmodel).
Defined.

(** ** What the model does with its arguments *)

Section ModelUse.
Context {C : Collaborators}.

(** X6. For a model built from a response that the constructor
    returned, predicting with the model's own gradient table passed
    explicitly gives the same result as predicting with the default
    ([gtab=None]). *)
Theorem predict_own_table
  (resp : ndarray2) (so : Z) (shells : list R)
  (gtab : GradientTable) (response : MultiShellResponse.t) (reg_sphere : Sphere)
  (iso : Z) (delta_form : string) (model : MultiShellDeconvModel.t)
  (params : list R) (S0 : option S0_value) :
  MultiShellResponse.__init__ resp so shells = Ok response ->
  MultiShellDeconvModel.__init__ gtab response reg_sphere iso delta_form = Ok model ->
  MultiShellDeconvModel.predict model params (Some gtab) S0
  = MultiShellDeconvModel.predict model params None S0.
Proof.
  intros Hresp Hmodel.
  destruct (model_init_shapes _ _ _ _ _ _ _ _ _ Hresp Hmodel) as [Hiso _].
  apply MultiShellDeconvModel_init_Ok_inv in Hmodel.
  destruct Hmodel as [B [m [n [delta_f [delta [mmat [odf [X [fitter
    [HB [_ [_ [Hm [_ [HX [_ ->]]]]]]]]]]]]]]]].
  unfold MultiShellDeconvModel.predict. simpl.
  rewrite <- Hiso, HB. simpl. rewrite Hm. simpl. rewrite HX. reflexivity.
Qed.

(** X7. The regularization sphere given to the constructor enters
    only the constraint matrix: two models built from the same gradient
    table, response, [iso] and delta form, on two spheres, have the same
    delta kernel, basis and forward operator, and predict the same
    signals. *)
Theorem model_forward_part_ignores_reg_sphere
  (gtab : GradientTable) (response : MultiShellResponse.t) (sphere1 sphere2 : Sphere)
  (iso : Z) (delta_form : string) (model1 model2 : MultiShellDeconvModel.t) :
  MultiShellDeconvModel.__init__ gtab response sphere1 iso delta_form = Ok model1 ->
  MultiShellDeconvModel.__init__ gtab response sphere2 iso delta_form = Ok model2 ->
  MultiShellDeconvModel.delta model1 = MultiShellDeconvModel.delta model2 /\
  MultiShellDeconvModel.B_dwi model1 = MultiShellDeconvModel.B_dwi model2 /\
  MultiShellDeconvModel._X model1 = MultiShellDeconvModel._X model2 /\
  MultiShellDeconvModel.m model1 = MultiShellDeconvModel.m model2 /\
  MultiShellDeconvModel.n model1 = MultiShellDeconvModel.n model2 /\
  forall params g S0,
    MultiShellDeconvModel.predict model1 params g S0
    = MultiShellDeconvModel.predict model2 params g S0.
Proof.
  intros H1 H2.
  apply MultiShellDeconvModel_init_Ok_inv in H1.
  destruct H1 as [B [m [n [delta_f [delta [mmat [odf [X [fitter
    [HB [Hf [Hd [Hm [_ [HX [_ ->]]]]]]]]]]]]]]]].
  apply MultiShellDeconvModel_init_Ok_inv in H2.
  destruct H2 as [B' [m' [n' [delta_f' [delta' [mmat' [odf' [X' [fitter'
    [HB' [Hf' [Hd' [Hm' [_ [HX' [_ ->]]]]]]]]]]]]]]]].
  rewrite HB in HB'. inversion HB'; subst B' m' n'.
  rewrite Hf in Hf'. inversion Hf'; subst delta_f'.
  rewrite Hd in Hd'. inversion Hd'; subst delta'.
  rewrite Hm in Hm'. inversion Hm'; subst mmat'.
  rewrite HX in HX'. inversion HX'; subst X'.
  simpl. repeat split; try reflexivity.
Qed.

End ModelUse.

Lemma predict_own_table_witness :
  MultiShellResponse.__init__ pipeline_response_array 2 pipeline_shells = Ok pipeline_response /\
  exists model,
    @MultiShellDeconvModel.__init__ pipeline_collaborators
      pipeline_gtab pipeline_response pipeline_sphere 1 "basic" = Ok model /\
    @MultiShellDeconvModel.predict pipeline_collaborators model [2; 3] (Some pipeline_gtab) None
    = @MultiShellDeconvModel.predict pipeline_collaborators model [2; 3] None None.
Proof.
  split; [exact pipeline_response_init|].
  destruct (pipeline_model_built pipeline_sphere) as [model [X [Hmodel _]]].
  exists model. split; [exact Hmodel|].
  exact (@predict_own_table pipeline_collaborators
           pipeline_response_array 2%Z pipeline_shells pipeline_gtab pipeline_response
           pipeline_sphere 1%Z "basic" model [2; 3] None pipeline_response_init Hmodel).
Defined.

Lemma model_forward_part_ignores_reg_sphere_witness :
  exists model1 model2,
    @MultiShellDeconvModel.__init__ pipeline_collaborators
      pipeline_gtab pipeline_response pipeline_sphere 1 "basic" = Ok model1 /\
    @MultiShellDeconvModel.__init__ pipeline_collaborators
      pipeline_gtab pipeline_response other_sphere 1 "basic" = Ok model2 /\
    MultiShellDeconvModel.delta model1 = MultiShellDeconvModel.delta model2 /\
    MultiShellDeconvModel.B_dwi model1 = MultiShellDeconvModel.B_dwi model2 /\
    MultiShellDeconvModel._X model1 = MultiShellDeconvModel._X model2 /\
    MultiShellDeconvModel.m model1 = MultiShellDeconvModel.m model2 /\
    MultiShellDeconvModel.n model1 = MultiShellDeconvModel.n model2 /\
    forall params g S0,
      @MultiShellDeconvModel.predict pipeline_collaborators model1 params g S0
      = @MultiShellDeconvModel.predict pipeline_collaborators model2 params g S0.
Proof.
  destruct (pipeline_model_built pipeline_sphere) as [model1 [X1 [H1 _]]].
  destruct (pipeline_model_built other_sphere) as [model2 [X2 [H2 _]]].
  exists model1, model2. split; [exact H1|]. split; [exact H2|].
  exact (@model_forward_part_ignores_reg_sphere pipeline_collaborators
           pipeline_gtab pipeline_response pipeline_sphere other_sphere 1%Z "basic"
           model1 model2 H1 H2).
Defined.

(** ** The cells of an inflated response *)

Lemma py_indices_nth (len : nat) (ks : list Z) (rs : list nat) (c : nat) (k : Z) :
  py_indices len ks = Some rs ->
  nth_error ks c = Some k ->
  py_index len k = Some (nth c rs 0%nat).
Proof.
  revert rs c. induction ks as [|k0 ks IH]; intros rs c H Hc.
  - destruct c; discriminate Hc.
  - simpl in H. destruct (py_index len k0) as [i|] eqn:Hi; [|discriminate H].
    destruct (py_indices len ks) as [is'|] eqn:His; [|discriminate H].
    inversion H; subst. destruct c as [|c]; simpl in *.
    + inversion Hc; subst. exact Hi.
    + apply (IH is' c eq_refl Hc).
Qed.

Lemma py_index_nonneg_inv (len : nat) (k : Z) (i : nat) :
  py_index len k = Some i -> (0 <= k)%Z -> i = Z.to_nat k /\ (i < len)%nat.
Proof.
  unfold py_index. intros H Hk.
  destruct (Z.leb_spec 0 k) as [_|Hneg]; [|lia].
  destruct (Z.ltb_spec k (Z.of_nat len)) as [Hlt|Hge]; simpl in H.
  - inversion H. split; [reflexivity | lia].
  - destruct (Z.ltb_spec k 0) as [Hlt|_]; [lia|]. simpl in H. discriminate H.
Qed.

Lemma kernel_rows (resp : ndarray2) (delta : list R) (kernal : ndarray2) :
  broadcast2 Rdiv resp (as_row delta) = Ok kernal ->
  nrows kernal = nrows resp /\
  (exists c, broadcast_len (ncols resp) (length delta) = Some c /\ ncols kernal = c) /\
  (forall i c, cell kernal i c
               = cell resp (broadcast_ix (nrows resp) i) (broadcast_ix (ncols resp) c)
                 / nth (broadcast_ix (length delta) c) delta 0).
Proof.
  unfold broadcast2. simpl.
  destruct (broadcast_len (nrows resp) 1) as [r|] eqn:Hr; [|discriminate].
  destruct (broadcast_len (ncols resp) (length delta)) as [c|] eqn:Hc; [|discriminate].
  intros H. inversion H; subst; simpl. split; [|split].
  - unfold broadcast_len in Hr.
    destruct (Nat.eqb_spec (nrows resp) 1) as [He|Hne].
    + inversion Hr. lia.
    + simpl in Hr. inversion Hr. reflexivity.
  - exists c. split; reflexivity.
  - reflexivity.
Qed.

(** [_inflate_response] seen from its result: the shell indices, the
    kernel and the resolved columns, with the bounds numpy checked. *)
Lemma inflate_response_Ok_bounds (response : MultiShellResponse.t) (gtab : GradientTable)
  (n : list Z) (delta : list R) (M : ndarray2) :
  _inflate_response response gtab n delta = Ok M ->
  gtab <> [] ->
  exists b_idx kernal cols,
    closest (MultiShellResponse.shells response) (bvals gtab) = Ok b_idx /\
    broadcast2 Rdiv (MultiShellResponse.response response) (as_row delta) = Ok kernal /\
    py_indices (ncols kernal) (n_idx (MultiShellResponse.iso response) n) = Some cols /\
    (forall j i, nth_error b_idx j = Some i ->
                 (i < nrows (MultiShellResponse.response response))%nat) /\
    (forall i j, cell M i j = cell kernal (nth i b_idx 0%nat) (nth j cols 0%nat)).
Proof.
  intros H Hne. pose proof (inflate_response_Ok_inv _ _ _ _ _ H)
    as [_ [b_idx [kernal [Hc [Hk [_ [_ Hsel]]]]]]].
  destruct (Hsel Hne) as [cols [Hrs [Hcols Hcell]]].
  exists b_idx, kernal, cols. repeat split; try assumption.
  intros j i Hj.
  assert (Hi : nth_error (map Z.of_nat b_idx) j = Some (Z.of_nat i)).
  { rewrite nth_error_map, Hj. reflexivity. }
  pose proof (py_indices_nth _ _ _ _ _ Hrs Hi) as Hpi.
  apply py_index_of_nat_inv in Hpi.
  destruct (kernel_rows _ _ _ Hk) as [Hrows _]. rewrite <- Hrows. apply Hpi.
Qed.

Lemma mismatch_false_inv (n : list Z) (sh_order : Z) :
  mismatch n sh_order = Ok false ->
  forall v, In v n -> (v mod 2 = 0)%Z /\ (v / 2 < sh_order)%Z.
Proof.
  unfold mismatch.
  destruct (existsb (fun v => negb (v mod 2 =? 0)%Z) n) eqn:Hodd; [discriminate|].
  destruct (max_list n) as [mx|] eqn:Hmax; simpl; [|discriminate].
  intros H v Hv. inversion H as [Hle]. apply Z.leb_gt in Hle.
  apply max_list_is_max in Hmax. destruct Hmax as [_ Hub].
  split.
  - destruct (Z.eq_dec (v mod 2) 0) as [He|Hn]; [exact He|]. exfalso.
    assert (Hex : existsb (fun v => negb (v mod 2 =? 0)%Z) n = true).
    { apply existsb_odd. exists v. split; assumption. }
    congruence.
  - specialize (Hub v Hv).
    assert ((v / 2 <= mx / 2)%Z) by (apply Z.div_le_mono; lia). lia.
Qed.

Lemma nth_n_idx_iso (iso : Z) (n : list Z) (c : nat) :
  (c < Z.to_nat iso)%nat -> nth_error (n_idx iso n) c = Some (Z.of_nat c).
Proof.
  intros Hc. unfold n_idx.
  rewrite nth_error_app1 by (rewrite length_map, length_seq; exact Hc).
  rewrite nth_error_map.
  rewrite (nth_error_nth' (seq 0 (Z.to_nat iso)) 0%nat) by (rewrite length_seq; exact Hc).
  rewrite seq_nth by exact Hc. reflexivity.
Qed.

Lemma nth_n_idx_degree (iso : Z) (n : list Z) (k : nat) (v : Z) :
  nth_error n k = Some v ->
  nth_error (n_idx iso n) (Z.to_nat iso + k) = Some (v / 2 + iso)%Z.
Proof.
  intros Hk. unfold n_idx.
  rewrite nth_error_app2 by (rewrite length_map, length_seq; lia).
  rewrite length_map, length_seq.
  replace (Z.to_nat iso + k - Z.to_nat iso)%nat with k by lia.
  rewrite nth_error_map, Hk. reflexivity.
Qed.

(** X8. For a response the constructor returned and a delta
    kernel with one entry per response column, a successful inflation
    has one row per measurement and [iso + len(n)] columns, and every
    target degree is even with [n // 2 < sh_order].  When the table has
    a measurement, numpy checks the column indices, so that
    [n // 2 <= sh_order // 2] for every degree that is not negative; on
    the row of a measurement the isotropic column [c] holds
    [response[i, c] / delta[c]] and the column of a non-negative degree
    [v] holds the same quotient at column [iso + v // 2], with [i] the
    nearest shell. *)
Theorem inflate_response_cells
  (resp : ndarray2) (so : Z) (shells : list R) (response : MultiShellResponse.t)
  (gtab : GradientTable) (n : list Z) (delta : list R) (M : ndarray2) :
  MultiShellResponse.__init__ resp so shells = Ok response ->
  length delta = ncols resp ->
  _inflate_response response gtab n delta = Ok M ->
  nrows M = length gtab /\
  ncols M = (Z.to_nat (MultiShellResponse.iso response) + length n)%nat /\
  (forall v, In v n -> (v mod 2 = 0)%Z /\ (v / 2 < so)%Z) /\
  (gtab <> [] -> forall v, In v n -> (0 <= v)%Z -> (v / 2 <= so / 2)%Z) /\
  forall j g, nth_error gtab j = Some g ->
    exists i,
      nearest_shell shells (bval g) i /\
      (i < nrows resp)%nat /\
      (forall c, (c < Z.to_nat (MultiShellResponse.iso response))%nat ->
                 cell M j c = cell resp i c / nth c delta 0) /\
      (forall k v, nth_error n k = Some v -> (0 <= v)%Z ->
         cell M j (Z.to_nat (MultiShellResponse.iso response) + k)
         = cell resp i (Z.to_nat (MultiShellResponse.iso response) + Z.to_nat (v / 2))
           / nth (Z.to_nat (MultiShellResponse.iso response) + Z.to_nat (v / 2)) delta 0).
Proof.
  intros Hinit Hdelta HM.
  destruct (inflate_response_shape _ _ _ _ _ HM) as [_ [Hrows Hcols]].
  pose proof (inflate_response_Ok_inv _ _ _ _ _ HM) as [Hguard _].
  apply MultiShellResponse_init_inv in Hinit.
  destruct Hinit as [Hresp [Hso [Hshells [_ [_ Hiso]]]]].
  rewrite Hso in Hguard.
  pose proof (mismatch_false_inv _ _ Hguard) as Hdeg.
  split; [exact Hrows|]. split; [exact Hcols|]. split; [exact Hdeg|].
  cut (gtab <> [] ->
       (forall v, In v n -> (0 <= v)%Z -> (v / 2 <= so / 2)%Z) /\
       forall j g, nth_error gtab j = Some g ->
         exists i,
           nearest_shell shells (bval g) i /\
           (i < nrows resp)%nat /\
           (forall c, (c < Z.to_nat (MultiShellResponse.iso response))%nat ->
                      cell M j c = cell resp i c / nth c delta 0) /\
           (forall k v, nth_error n k = Some v -> (0 <= v)%Z ->
              cell M j (Z.to_nat (MultiShellResponse.iso response) + k)
              = cell resp i (Z.to_nat (MultiShellResponse.iso response) + Z.to_nat (v / 2))
                / nth (Z.to_nat (MultiShellResponse.iso response) + Z.to_nat (v / 2))
                      delta 0)).
  { intros Hmain. split.
    - intros Hne. exact (proj1 (Hmain Hne)).
    - intros j g Hg.
      assert (Hne : gtab <> [])
        by (destruct gtab; [destruct j; discriminate Hg | discriminate]).
      exact (proj2 (Hmain Hne) j g Hg). }
  intros Hne.
  destruct (inflate_response_Ok_bounds _ _ _ _ _ HM Hne)
    as [b_idx [kernal [cols [Hc [Hk [Hpy [Hbound Hcell]]]]]]].
  rewrite Hresp in *. rewrite Hshells in *.
  set (iso := MultiShellResponse.iso response) in *.
  assert (Hisoeq : iso = (Z.of_nat (ncols resp) - so / 2 - 1)%Z).
  { unfold iso, MultiShellResponse.iso. rewrite Hresp, Hso. reflexivity. }
  destruct (kernel_rows _ _ _ Hk) as [Hkr [[c0 [Hbc Hkc]] Hkcell]].
  rewrite Hdelta, broadcast_len_same in Hbc.
  assert (Hkc' : ncols kernal = ncols resp) by congruence.
  clear Hbc Hkc c0. rename Hkc' into Hkc.
  assert (Hkernel : forall i c, (i < nrows resp)%nat -> (c < ncols resp)%nat ->
                                cell kernal i c = cell resp i c / nth c delta 0).
  { intros i c Hi Hcc. rewrite Hkcell, Hdelta.
    rewrite !broadcast_ix_in_range by assumption. reflexivity. }
  assert (Hcolumn : forall k v, nth_error n k = Some v -> (0 <= v)%Z ->
            nth (Z.to_nat iso + k) cols 0%nat = (Z.to_nat iso + Z.to_nat (v / 2))%nat /\
            (Z.to_nat iso + Z.to_nat (v / 2) < ncols resp)%nat).
  { intros k v Hkv Hv.
    pose proof (py_indices_nth _ _ _ _ _ Hpy (nth_n_idx_degree iso n k v Hkv)) as Hpi.
    assert (Hnn : (0 <= v / 2 + iso)%Z).
    { assert ((0 <= v / 2)%Z) by (apply Z.div_pos; lia). lia. }
    apply py_index_nonneg_inv in Hpi; [|exact Hnn].
    destruct Hpi as [He Hlt]. rewrite Hkc in Hlt.
    assert ((0 <= v / 2)%Z) by (apply Z.div_pos; lia).
    assert (Z.to_nat (v / 2 + iso) = (Z.to_nat iso + Z.to_nat (v / 2))%nat) by lia.
    split; [rewrite He; assumption | lia]. }
  split.
  - intros v Hv Hpos. apply In_nth_error in Hv. destruct Hv as [k Hkv].
    destruct (Hcolumn k v Hkv Hpos) as [_ Hlt].
    assert ((0 <= v / 2)%Z) by (apply Z.div_pos; lia). lia.
  - intros j g Hg.
    assert (Hb : nth_error (bvals gtab) j = Some (bval g)).
    { unfold bvals. rewrite nth_error_map, Hg. reflexivity. }
    destruct (closest_nearest_shell _ _ _ j _ Hc Hb) as [i [Hi Hnear]].
    exists i. split; [exact Hnear|].
    pose proof (Hbound j i Hi) as Hir. split; [exact Hir|].
    assert (Hnth : nth j b_idx 0%nat = i) by (apply nth_error_nth; exact Hi).
    split.
    + intros c Hcc.
      pose proof (py_indices_nth _ _ _ _ _ Hpy (nth_n_idx_iso iso n c Hcc)) as Hpi.
      apply py_index_of_nat_inv in Hpi. destruct Hpi as [He Hlt].
      rewrite Hkc in Hlt.
      rewrite Hcell, Hnth, He. apply Hkernel; assumption.
    + intros k v Hkv Hv.
      destruct (Hcolumn k v Hkv Hv) as [He Hlt].
      rewrite Hcell, Hnth, He. apply Hkernel; assumption.
Qed.

(** A table without measurements: numpy checks no index, and the
    inflation returns the empty selection even for degree 6, whose
    column the response of [sh_order = 4] with four columns does not
    have; with one measurement the same call raises. *)
Lemma inflate_response_empty_table_example :
  exists response M,
    MultiShellResponse.__init__ (of_rows 4 [[1; 1; 1; 1]]) 4 [0] = Ok response /\
    _inflate_response response [] [6%Z] [1; 1; 1; 1] = Ok M /\
    nrows M = 0%nat /\ ncols M = 2%nat /\
    _inflate_response response [sample_b0] [6%Z] [1; 1; 1; 1]
    = Raise (LibraryError "numpy: index out of bounds").
Proof.
  eexists. eexists. split; [reflexivity|]. split; [reflexivity|].
  split; [reflexivity|]. split; reflexivity.
Qed.

Lemma inflate_response_cells_witness :
  MultiShellResponse.__init__ sample_response_array 2 sample_shells = Ok sample_response /\
  length [1; 1; 1] = ncols sample_response_array /\
  exists M,
    _inflate_response sample_response sample_gtab [0%Z] [1; 1; 1] = Ok M /\
    nrows M = length sample_gtab /\
    ncols M = (Z.to_nat (MultiShellResponse.iso sample_response) + length [0%Z])%nat /\
    (forall v, In v [0%Z] -> (v mod 2 = 0)%Z /\ (v / 2 < 2)%Z) /\
    (sample_gtab <> [] -> forall v, In v [0%Z] -> (0 <= v)%Z -> (v / 2 <= 2 / 2)%Z) /\
    forall j g, nth_error sample_gtab j = Some g ->
      exists i,
        nearest_shell sample_shells (bval g) i /\
        (i < nrows sample_response_array)%nat /\
        (forall c, (c < Z.to_nat (MultiShellResponse.iso sample_response))%nat ->
                   cell M j c = cell sample_response_array i c / nth c [1; 1; 1] 0) /\
        (forall k v, nth_error [0%Z] k = Some v -> (0 <= v)%Z ->
           cell M j (Z.to_nat (MultiShellResponse.iso sample_response) + k)
           = cell sample_response_array i
               (Z.to_nat (MultiShellResponse.iso sample_response) + Z.to_nat (v / 2))
             / nth (Z.to_nat (MultiShellResponse.iso sample_response) + Z.to_nat (v / 2))
                   [1; 1; 1] 0).
Proof.
  split; [exact sample_response_init|]. split; [reflexivity|].
  destruct sample_inflate as [M HM]. exists M. split; [exact HM|].
  exact (inflate_response_cells sample_response_array 2%Z sample_shells sample_response
           sample_gtab [0%Z] [1; 1; 1] M sample_response_init eq_refl HM).
Defined.

(** ** The isotropic columns of the forward operator *)

Lemma nth_iso_prefix (iso : nat) (rest : list R) (c : nat) :
  (c < iso)%nat ->
  nth (broadcast_ix (length (repeat SH_CONST iso ++ rest)) c)
      (repeat SH_CONST iso ++ rest) 0 = SH_CONST.
Proof.
  intros Hc. unfold broadcast_ix.
  destruct (Nat.eqb_spec (length (repeat SH_CONST iso ++ rest)) 1) as [Hone|_].
  - destruct iso as [|iso]; [lia|]. reflexivity.
  - rewrite app_nth1 by (rewrite repeat_length; exact Hc).
    apply nth_repeat_lt. exact Hc.
Qed.

Section IsotropicColumns.
Context {C : Collaborators}.

(** X9. For a model built from a response of non-negative
    [sh_order] that the constructor returned, with either delta form:
    on the row of each measurement, the isotropic columns of the forward
    operator [X] hold the response's own isotropic entries at the shell
    nearest to the measurement's b-value. *)
Theorem forward_operator_isotropic_columns
  (resp : ndarray2) (so : Z) (shells : list R)
  (gtab : GradientTable) (response : MultiShellResponse.t) (reg_sphere : Sphere)
  (iso : Z) (delta_form : string) (model : MultiShellDeconvModel.t)
  (j : nat) (g : gradient) :
  MultiShellResponse.__init__ resp so shells = Ok response ->
  (0 <= so)%Z ->
  MultiShellDeconvModel.__init__ gtab response reg_sphere iso delta_form = Ok model ->
  nth_error gtab j = Some g ->
  exists i,
    nearest_shell shells (bval g) i /\
    (i < nrows resp)%nat /\
    forall c, (c < Z.to_nat iso)%nat ->
              cell (MultiShellDeconvModel._X model) j c = cell resp i c.
Proof.
  intros Hinit Hso Hmodel Hg.
  destruct (model_init_shapes _ _ _ _ _ _ _ _ _ Hinit Hmodel)
    as [Hiso [Hge [Hne [HXr HXc]]]].
  apply MultiShellResponse_init_inv in Hinit.
  destruct Hinit as [Hresp [Hso' [Hshells _]]].
  apply MultiShellDeconvModel_init_Ok_inv in Hmodel.
  destruct Hmodel as [B [m [n [delta_f [delta [mmat [odf [X [fitter
    [HB [Hf [Hd [Hm [_ [HX [_ ->]]]]]]]]]]]]]]]]. simpl in *.
  apply multi_tissue_basis_Ok_inv in HB.
  destruct HB as [_ [mn [_ [_ [Hnn [HBr [HBc HBcell]]]]]]].
  destruct (inflate_response_shape _ _ _ _ _ Hm) as [_ [Hmr Hmc]].
  assert (Hgne : gtab <> [])
    by (destruct gtab; [destruct j; discriminate Hg | discriminate]).
  destruct (inflate_response_Ok_bounds _ _ _ _ _ Hm Hgne)
    as [b_idx [kernal [cols [Hc [Hk [Hpy [Hbound Hcell]]]]]]].
  rewrite Hresp in *. rewrite Hshells in *. rewrite <- Hiso in *.
  destruct (delta_functions_iso_prefix _ _ _ _ _ _ _ _ Hf Hd) as [rest ->].
  assert (Hb : nth_error (bvals gtab) j = Some (bval g)).
  { unfold bvals. rewrite nth_error_map, Hg. reflexivity. }
  destruct (closest_nearest_shell _ _ _ j _ Hc Hb) as [i [Hi Hnear]].
  exists i. split; [exact Hnear|].
  pose proof (Hbound j i Hi) as Hir. split; [exact Hir|].
  intros c Hcc.
  assert (Hj : (j < length gtab)%nat) by (apply nth_error_Some; congruence).
  assert (Hlenn : length mn = length n) by (rewrite Hnn, length_map; reflexivity).
  assert (Hcol : (c < ncols B)%nat) by lia.
  unfold broadcast2 in HX.
  destruct (broadcast_len (nrows B) (nrows mmat)); [|discriminate HX].
  destruct (broadcast_len (ncols B) (ncols mmat)); [|discriminate HX].
  inversion HX; subst X; simpl.
  rewrite (broadcast_ix_in_range (nrows B) j) by lia.
  rewrite (broadcast_ix_in_range (nrows mmat) j) by lia.
  rewrite (broadcast_ix_in_range (ncols B) c) by lia.
  rewrite (broadcast_ix_in_range (ncols mmat) c) by lia.
  rewrite (HBcell j c Hcc).
  pose proof (py_indices_nth _ _ _ _ _ Hpy (nth_n_idx_iso iso n c Hcc)) as Hpi.
  apply py_index_of_nat_inv in Hpi. destruct Hpi as [He _].
  rewrite Hcell, (nth_error_nth _ _ 0%nat Hi), He.
  destruct (kernel_rows _ _ _ Hk) as [_ [_ Hkcell]].
  rewrite Hkcell.
  assert (Hncols : (c < ncols resp)%nat).
  { unfold MultiShellResponse.iso in Hiso. rewrite Hresp, Hso' in Hiso.
    assert ((0 <= so / 2)%Z) by (apply Z.div_pos; lia). lia. }
  rewrite (broadcast_ix_in_range (nrows resp) i Hir).
  rewrite (broadcast_ix_in_range (ncols resp) c Hncols).
  rewrite (nth_iso_prefix (Z.to_nat iso) rest c Hcc).
  field. exact SH_CONST_neq_0.
Qed.

End IsotropicColumns.

Lemma forward_operator_isotropic_columns_witness :
  MultiShellResponse.__init__ pipeline_response_array 2 pipeline_shells = Ok pipeline_response /\
  (0 <= 2)%Z /\
  nth_error pipeline_gtab 1 = Some {| direction := (0, 0, 1); bval := 1000; is_b0 := false |} /\
  exists model,
    @MultiShellDeconvModel.__init__ pipeline_collaborators
      pipeline_gtab pipeline_response pipeline_sphere 1 "basic" = Ok model /\
    exists i,
      nearest_shell pipeline_shells 1000 i /\
      (i < nrows pipeline_response_array)%nat /\
      forall c, (c < Z.to_nat 1)%nat ->
                cell (MultiShellDeconvModel._X model) 1 c = cell pipeline_response_array i c.
Proof.
  split; [exact pipeline_response_init|]. split; [lia|]. split; [reflexivity|].
  destruct (pipeline_model_built pipeline_sphere) as [model [X [Hmodel _]]].
  exists model. split; [exact Hmodel|].
  assert (Hso : (0 <= 2)%Z) by lia.
  exact (@forward_operator_isotropic_columns pipeline_collaborators
           pipeline_response_array 2%Z pipeline_shells pipeline_gtab pipeline_response
           pipeline_sphere 1%Z "basic" model 1%nat
           {| direction := (0, 0, 1); bval := 1000; is_b0 := false |}
           pipeline_response_init Hso Hmodel eq_refl).
Defined.

(** ** The constraints of the fit *)

Lemma sum_upto_app (a b : nat) (f : nat -> R) :
  sum_upto (a + b) f = sum_upto a f + sum_upto b (fun k => f (a + k)%nat).
Proof.
  induction b as [|b IH].
  - rewrite Nat.add_0_r. unfold sum_upto at 3. simpl. lra.
  - rewrite Nat.add_succ_r, !sum_upto_S, IH. lra.
Qed.

Lemma sum_upto_zero (k : nat) (f : nat -> R) :
  (forall i, (i < k)%nat -> f i = 0) -> sum_upto k f = 0.
Proof.
  intros H. rewrite (sum_upto_ext k f (fun _ => 0 * 0)) by (intros; rewrite H by assumption; lra).
  rewrite sum_upto_scal. lra.
Qed.

Lemma sum_upto_pick (k i : nat) (f : nat -> R) :
  (i < k)%nat ->
  (forall j, (j < k)%nat -> j <> i -> f j = 0) ->
  sum_upto k f = f i.
Proof.
  intros Hi Hz.
  replace k with (i + S (k - S i))%nat by lia.
  rewrite sum_upto_app.
  rewrite (sum_upto_zero i) by (intros j Hj; apply Hz; lia).
  replace (S (k - S i)) with (1 + (k - S i))%nat by lia.
  rewrite sum_upto_app.
  rewrite (sum_upto_zero (k - S i)) by (intros j Hj; apply Hz; lia).
  unfold sum_upto. simpl. rewrite Nat.add_0_r. lra.
Qed.

(** The rows of the block matrix [reg] applied to a vector: an isotropic
    row reads off one coefficient, a row of the sphere block applies
    [odf_reg] to the coefficients after the isotropic ones. *)
Lemma reg_matrix_rows (iso : nat) (odf_reg : ndarray2) (x : list R) :
  (forall i, (i < iso)%nat ->
     sum_upto (ncols (reg_matrix iso odf_reg))
       (fun k => cell (reg_matrix iso odf_reg) i k * nth k x 0) = nth i x 0) /\
  (forall r, (r < nrows odf_reg)%nat ->
     sum_upto (ncols (reg_matrix iso odf_reg))
       (fun k => cell (reg_matrix iso odf_reg) (iso + r) k * nth k x 0)
     = sum_upto (ncols odf_reg) (fun k => cell odf_reg r k * nth (iso + k) x 0)).
Proof.
  simpl. split.
  - intros i Hi.
    rewrite (sum_upto_pick _ i).
    + destruct (Nat.ltb_spec i iso); [|lia]. simpl.
      rewrite Nat.eqb_refl. lra.
    + lia.
    + intros j Hj Hne.
      destruct (Nat.ltb_spec i iso); [|lia].
      destruct (Nat.ltb_spec j iso); simpl.
      * destruct (Nat.eqb_spec i j); [lia | lra].
      * destruct (Nat.leb_spec iso i); [lia | simpl; lra].
  - intros r Hr.
    replace (ncols odf_reg + iso)%nat with (iso + ncols odf_reg)%nat by lia.
    rewrite sum_upto_app.
    rewrite (sum_upto_zero iso).
    + rewrite Rplus_0_l. apply sum_upto_ext. intros k Hk.
      destruct (Nat.ltb_spec (iso + r) iso); [lia|]. simpl.
      destruct (Nat.leb_spec iso (iso + r)); [|lia].
      destruct (Nat.leb_spec iso (iso + k)); [|lia]. simpl.
      replace (iso + r - iso)%nat with r by lia.
      replace (iso + k - iso)%nat with k by lia. reflexivity.
    + intros k Hk.
      destruct (Nat.ltb_spec (iso + r) iso); [lia|]. simpl.
      destruct (Nat.leb_spec iso k); [lia|].
      rewrite andb_false_r. lra.
Qed.

Section Constraints.
Context {C : Collaborators}.

(** X10. For a built model, the inequality constraints its
    fitter hands to the solver ([G x <= H] with [G = -reg], [H = [0]])
    hold for a vector [x] exactly when every isotropic coefficient of
    [x] is non-negative and the basis [odf_reg] of the regularization
    sphere, applied to the remaining coefficients, is non-negative at
    every vertex. *)
Theorem model_constraints_meaning
  (gtab : GradientTable) (response : MultiShellResponse.t) (reg_sphere : Sphere)
  (iso : Z) (delta_form : string) (model : MultiShellDeconvModel.t) :
  MultiShellDeconvModel.__init__ gtab response reg_sphere iso delta_form = Ok model ->
  exists odf_reg,
    real_sym_sh_basis (MultiShellResponse.sh_order response)
      (map fst (angles_of (vertices reg_sphere)))
      (map snd (angles_of (vertices reg_sphere))) = Some odf_reg /\
    QpFitter._h_mat (MultiShellDeconvModel.fitter model) = [0] /\
    forall x,
      qp_feasible (QpFitter._reg_mat (MultiShellDeconvModel.fitter model))
                  (QpFitter._h_mat (MultiShellDeconvModel.fitter model)) x
      <-> (forall c, (c < Z.to_nat iso)%nat -> 0 <= nth c x 0) /\
          (forall r, (r < nrows odf_reg)%nat ->
             0 <= sum_upto (ncols odf_reg)
                    (fun k => cell odf_reg r k * nth (Z.to_nat iso + k) x 0)).
Proof.
  intros Hmodel.
  apply MultiShellDeconvModel_init_Ok_inv in Hmodel.
  destruct Hmodel as [B [m [n [delta_f [delta [mmat [odf [X [fitter
    [_ [_ [_ [_ [Ho [_ [Hfit ->]]]]]]]]]]]]]]]]. simpl.
  apply QpFitter_init_Ok_inv in Hfit. destruct Hfit as [_ ->]. simpl.
  exists odf. split; [exact Ho|]. split; [reflexivity|].
  intros x. rewrite qp_feasible_neg. unfold nonneg_on.
  destruct (reg_matrix_rows (Z.to_nat iso) odf x) as [Hiso Hodf].
  split.
  - intros H. split.
    + intros c Hc. rewrite <- (Hiso c Hc). apply H. simpl. lia.
    + intros r Hr. rewrite <- (Hodf r Hr). apply H. simpl. lia.
  - intros [H1 H2] i Hi. simpl in Hi.
    destruct (Nat.lt_ge_cases i (Z.to_nat iso)) as [Hlt|Hge].
    + rewrite (Hiso i Hlt). apply H1. exact Hlt.
    + replace i with (Z.to_nat iso + (i - Z.to_nat iso))%nat by lia.
      rewrite Hodf by lia. apply H2. lia.
Qed.

End Constraints.

Lemma model_constraints_meaning_witness :
  exists model,
    @MultiShellDeconvModel.__init__ pipeline_collaborators
      pipeline_gtab pipeline_response pipeline_sphere 1 "basic" = Ok model /\
    exists odf_reg,
      @real_sym_sh_basis pipeline_collaborators (MultiShellResponse.sh_order pipeline_response)
        (map fst (@angles_of pipeline_collaborators (vertices pipeline_sphere)))
        (map snd (@angles_of pipeline_collaborators (vertices pipeline_sphere)))
      = Some odf_reg /\
      QpFitter._h_mat (MultiShellDeconvModel.fitter model) = [0] /\
      forall x,
        qp_feasible (QpFitter._reg_mat (MultiShellDeconvModel.fitter model))
                    (QpFitter._h_mat (MultiShellDeconvModel.fitter model)) x
        <-> (forall c, (c < Z.to_nat 1)%nat -> 0 <= nth c x 0) /\
            (forall r, (r < nrows odf_reg)%nat ->
               0 <= sum_upto (ncols odf_reg)
                      (fun k => cell odf_reg r k * nth (Z.to_nat 1 + k) x 0)).
Proof.
  destruct (pipeline_model_built pipeline_sphere) as [model [X [Hmodel _]]].
  exists model. split; [exact Hmodel|].
  exact (@model_constraints_meaning pipeline_collaborators
           pipeline_gtab pipeline_response pipeline_sphere 1%Z "basic" model Hmodel).
Defined.

(** ** Prediction *)

Lemma dot_vm_Ok_inv (v : list R) (A : ndarray2) (out : list R) :
  dot_vm v A = Ok out ->
  length v = nrows A /\
  out = map (fun j => sum_upto (nrows A) (fun k => nth k v 0 * cell A k j))
            (seq 0 (ncols A)).
Proof.
  unfold dot_vm. destruct (Nat.eqb_spec (length v) (nrows A)) as [He|]; intros H.
  - inversion H. split; [exact He | reflexivity].
  - discriminate H.
Qed.

Lemma nth_axpy (c : R) (u v : list R) (k : nat) :
  length u = length v -> (k < length u)%nat ->
  nth k (axpy c u v) 0 = c * nth k u 0 + nth k v 0.
Proof.
  intros Hlen Hk. unfold axpy.
  rewrite (nth_indep _ 0 ((fun ab : R * R => c * fst ab + snd ab) (0, 0)))
    by (rewrite length_map, length_combine; lia).
  rewrite (map_nth (fun ab : R * R => c * fst ab + snd ab)).
  rewrite combine_nth by exact Hlen. reflexivity.
Qed.

Lemma axpy_maps {A : Type} (c : R) (f g : A -> R) (l : list A) :
  axpy c (map f l) (map g l) = map (fun a => c * f a + g a) l.
Proof.
  unfold axpy. induction l as [|a l IH]; simpl; [reflexivity|].
  rewrite IH. reflexivity.
Qed.

Lemma dot_vm_axpy (c : R) (p q yp yq : list R) (A : ndarray2) :
  dot_vm p A = Ok yp -> dot_vm q A = Ok yq ->
  dot_vm (axpy c p q) A = Ok (axpy c yp yq).
Proof.
  intros Hp Hq. apply dot_vm_Ok_inv in Hp. apply dot_vm_Ok_inv in Hq.
  destruct Hp as [Hlp ->]. destruct Hq as [Hlq ->].
  unfold dot_vm.
  assert (Hl : length (axpy c p q) = nrows A).
  { unfold axpy. rewrite length_map, length_combine. lia. }
  rewrite Hl, Nat.eqb_refl. f_equal. rewrite axpy_maps.
  apply map_ext. intros j.
  rewrite <- sum_upto_scal, <- sum_upto_plus.
  apply sum_upto_ext. intros k Hk.
  rewrite nth_axpy by lia. ring.
Qed.

Section Prediction.
Context {C : Collaborators}.

(** X11. [predict] returns one value per measurement of the
    gradient table it uses: the model's own one by default, else the one
    passed; by default the coefficient vector must have one entry per
    column of [X], and any other length raises numpy's shape error. *)
Theorem predict_one_value_per_measurement
  (self : MultiShellDeconvModel.t) (params : list R) (S0 : option S0_value) :
  (forall out, MultiShellDeconvModel.predict self params None S0 = Ok out ->
     length params = ncols (MultiShellDeconvModel._X self) /\
     length out = nrows (MultiShellDeconvModel._X self)) /\
  (forall g out, MultiShellDeconvModel.predict self params (Some g) S0 = Ok out ->
     length out = length g) /\
  (length params <> ncols (MultiShellDeconvModel._X self) ->
   MultiShellDeconvModel.predict self params None S0
   = Raise (LibraryError "numpy.dot: shapes not aligned")).
Proof.
  unfold MultiShellDeconvModel.predict. split; [|split].
  - intros out H. simpl in H. apply dot_vm_Ok_inv in H. destruct H as [Hl ->].
    simpl in *. split; [exact Hl|]. rewrite length_map, length_seq. reflexivity.
  - intros g out H. bind_ok H X HX.
    bind_ok HX Bmn HB. destruct Bmn as [[B m] n]. simpl in HX.
    bind_ok HX mmat Hm.
    apply multi_tissue_basis_Ok_inv in HB.
    destruct HB as [_ [mn [_ [_ [_ [HBr _]]]]]].
    apply inflate_response_shape in Hm. destruct Hm as [_ [Hmr _]].
    unfold broadcast2 in HX. rewrite HBr, Hmr, broadcast_len_same in HX.
    destruct (broadcast_len (ncols B) (ncols mmat)); [|discriminate HX].
    inversion HX; subst X.
    apply dot_vm_Ok_inv in H. destruct H as [_ ->]. simpl.
    rewrite length_map, length_seq. reflexivity.
  - intros Hne. simpl. unfold dot_vm. simpl.
    destruct (Nat.eqb_spec (length params) (ncols (MultiShellDeconvModel._X self)));
      [contradiction | reflexivity].
Qed.

(** X12. [predict] is linear in the coefficients: with the
    same gradient table, the prediction of [c * p + q] is [c] times the
    prediction of [p] plus the prediction of [q]. *)
Theorem predict_linear
  (self : MultiShellDeconvModel.t) (gtab : option GradientTable) (S0 : option S0_value)
  (c : R) (p q yp yq : list R) :
  MultiShellDeconvModel.predict self p gtab S0 = Ok yp ->
  MultiShellDeconvModel.predict self q gtab S0 = Ok yq ->
  MultiShellDeconvModel.predict self (axpy c p q) gtab S0 = Ok (axpy c yp yq).
Proof.
  unfold MultiShellDeconvModel.predict. intros Hp Hq.
  destruct (match gtab with
            | Some g =>
                ' (B, _, n) <-
                multi_tissue_basis g (MultiShellDeconvModel.sh_order self)
                  (MultiShellResponse.iso (MultiShellDeconvModel.response self));;
                multiplier_matrix <-
                _inflate_response (MultiShellDeconvModel.response self) g n
                  (MultiShellDeconvModel.delta self);;
                broadcast2 Rmult B multiplier_matrix
            | None => Ok (MultiShellDeconvModel._X self)
            end) as [X|e|]; simpl in *.
  - apply dot_vm_axpy; assumption.
  - discriminate Hp.
  - discriminate Hp.
Qed.

End Prediction.

Lemma sample_predictions :
  @MultiShellDeconvModel.predict sample_collaborators sample_model [2] None None
  = Ok [2 * 1 + 0] /\
  @MultiShellDeconvModel.predict sample_collaborators sample_model [3] None None
  = Ok [3 * 1 + 0].
Proof. split; reflexivity. Qed.

Lemma predict_one_value_per_measurement_witness :
  @MultiShellDeconvModel.predict sample_collaborators sample_model [2] None None
  = Ok [2 * 1 + 0] /\
  length [2] = ncols (MultiShellDeconvModel._X sample_model) /\
  length [2 * 1 + 0] = nrows (MultiShellDeconvModel._X sample_model).
Proof.
  split; [exact (proj1 sample_predictions)|].
  exact (proj1 (@predict_one_value_per_measurement sample_collaborators
                  sample_model [2] None)
               [2 * 1 + 0] (proj1 sample_predictions)).
Defined.

Lemma predict_linear_witness :
  @MultiShellDeconvModel.predict sample_collaborators sample_model [2] None None
  = Ok [2 * 1 + 0] /\
  @MultiShellDeconvModel.predict sample_collaborators sample_model [3] None None
  = Ok [3 * 1 + 0] /\
  @MultiShellDeconvModel.predict sample_collaborators sample_model (axpy 5 [2] [3]) None None
  = Ok (axpy 5 [2 * 1 + 0] [3 * 1 + 0]).
Proof.
  split; [exact (proj1 sample_predictions)|].
  split; [exact (proj2 sample_predictions)|].
  exact (@predict_linear sample_collaborators sample_model None None 5
           [2] [3] [2 * 1 + 0] [3 * 1 + 0]
           (proj1 sample_predictions) (proj2 sample_predictions)).
Defined.

(** ** Fitting a predicted signal *)

Lemma sum_upto_nonneg (k : nat) (f : nat -> R) :
  (forall i, (i < k)%nat -> 0 <= f i) -> 0 <= sum_upto k f.
Proof.
  induction k as [|k IH]; intros H; [unfold sum_upto; simpl; lra|].
  rewrite sum_upto_S. specialize (IH (fun i Hi => H i (Nat.lt_lt_succ_r _ _ Hi))).
  specialize (H k (Nat.lt_succ_diag_r k)). lra.
Qed.

Lemma sum_upto_nonneg_zero (k : nat) (f : nat -> R) :
  (forall i, (i < k)%nat -> 0 <= f i) -> sum_upto k f = 0 ->
  forall i, (i < k)%nat -> f i = 0.
Proof.
  induction k as [|k IH]; intros H Hz i Hi; [lia|].
  rewrite sum_upto_S in Hz.
  pose proof (sum_upto_nonneg k f (fun i Hi => H i (Nat.lt_lt_succ_r _ _ Hi))) as Hs.
  pose proof (H k (Nat.lt_succ_diag_r k)) as Hk.
  destruct (Nat.eq_dec i k) as [->|Hne]; [lra|].
  apply IH; [intros; apply H; lia | lra | lia].
Qed.

Lemma residual2_nonneg (X : ndarray2) (signal x : list R) : 0 <= residual2 X signal x.
Proof.
  unfold residual2. apply sum_upto_nonneg. intros i _. apply pow2_ge_0.
Qed.

Section RoundTrip.
Context {C : Collaborators}.

(** X13. A model whose fitter was built from its forward
    operator [X] and a constraint matrix [reg]: when a signal is the
    prediction of coefficients that satisfy the constraints
    [reg . params >= 0], and the solver is sound on the program the fit
    hands it, a fit of that signal that returns carries the model, no
    mask, and coefficients that predict the very same signal. *)
Theorem fit_reproduces_feasible_prediction
  (model : MultiShellDeconvModel.t) (reg : ndarray2)
  (params signal : list R) (S0 : option S0_value) (f : MSDeconvFit.t) :
  QpFitter.__init__ (MultiShellDeconvModel._X model) reg
  = Ok (MultiShellDeconvModel.fitter model) ->
  MultiShellDeconvModel.predict model params None S0 = Ok signal ->
  nonneg_on reg params ->
  (forall Q, dot_mv (transpose (MultiShellDeconvModel._X model)) signal = Ok Q ->
             solver_sound_on (gram (MultiShellDeconvModel._X model)) (map Ropp Q)
                             (neg reg) [0]) ->
  MSDeconvFit.fit model signal = Ok f ->
  MSDeconvFit.model f = model /\
  MSDeconvFit.mask f = None /\
  MultiShellDeconvModel.predict model (MSDeconvFit._shm_coef f) None S0 = Ok signal.
Proof.
  intros Hinit Hpred Hnn Hsound Hfit.
  unfold MSDeconvFit.fit in Hfit. bind_ok Hfit xs Hcall.
  inversion Hfit; subst f; clear Hfit. simpl.
  split; [reflexivity|]. split; [reflexivity|].
  set (X := MultiShellDeconvModel._X model) in *.
  unfold MultiShellDeconvModel.predict in *. simpl in Hpred. simpl. fold X in Hpred.
  apply dot_vm_Ok_inv in Hpred. simpl in Hpred. destruct Hpred as [Hlp Hsig].
  assert (Hcall' := Hcall).
  unfold QpFitter.__call__ in Hcall'. bind_ok Hcall' Q HQ. clear Hcall'.
  assert (HX : QpFitter._X (MultiShellDeconvModel.fitter model) = X).
  { apply QpFitter_init_Ok_inv in Hinit. destruct Hinit as [_ ->]. reflexivity. }
  rewrite HX in HQ.
  destruct (QpFitter_call_minimizer X reg _ signal Q xs Hinit HQ Hcall (Hsound Q HQ))
    as [Hlen [HlenQ [Hxs [_ Hmin]]]].
  rewrite length_map in Hxs, Hmin. rewrite HlenQ in Hxs, Hmin.
  specialize (Hmin params Hlp (proj2 (qp_feasible_neg reg params) Hnn)).
  rewrite (fit_objective_is_least_squares X signal xs Q Hlen Hxs HQ) in Hmin.
  rewrite (fit_objective_is_least_squares X signal params Q Hlen Hlp HQ) in Hmin.
  fold (residual2 X signal xs) in Hmin. fold (residual2 X signal params) in Hmin.
  assert (Hnth : forall i, (i < nrows X)%nat ->
            nth i signal 0 = sum_upto (ncols X) (fun k => nth k params 0 * cell X i k)).
  { intros i Hi. rewrite Hsig.
    rewrite (nth_indep _ 0
      ((fun j => sum_upto (ncols X) (fun k => nth k params 0 * cell X j k)) 0%nat))
      by (rewrite length_map, length_seq; exact Hi).
    rewrite (map_nth (fun j => sum_upto (ncols X) (fun k => nth k params 0 * cell X j k))).
    rewrite seq_nth by exact Hi. reflexivity. }
  assert (Hzero : residual2 X signal params = 0).
  { unfold residual2. apply sum_upto_zero. intros i Hi. rewrite (Hnth i Hi).
    rewrite (sum_upto_ext (ncols X) (fun j => cell X i j * nth j params 0)
                          (fun k => nth k params 0 * cell X i k))
      by (intros; ring).
    ring. }
  pose proof (residual2_nonneg X signal xs) as Hge.
  assert (Hres : residual2 X signal xs = 0) by lra.
  unfold dot_vm. simpl. fold X. rewrite Hxs, Nat.eqb_refl. f_equal.
  rewrite Hsig. apply map_ext_in. intros i Hi. apply in_seq in Hi.
  rewrite <- (Hnth i) by lia.
  unfold residual2 in Hres.
  pose proof (sum_upto_nonneg_zero (nrows X) _ (fun i _ => pow2_ge_0 _) Hres i
                ltac:(lia)) as Hi0.
  simpl in Hi0.
  rewrite (sum_upto_ext (ncols X) (fun k => nth k xs 0 * cell X i k)
                        (fun j => cell X i j * nth j xs 0)) by (intros; ring).
  nra.
Qed.

End RoundTrip.

Lemma sample_solver_sound_any (q : R) :
  @solver_sound_on sample_collaborators (gram sample_X) [q] (neg sample_reg) [0].
Proof.
  intros sol xs Hsol Hprimal. simpl cvx_solve in Hsol.
  rewrite sample_solve_qp in Hsol; reduce_arrays; try reflexivity; try lra.
  inversion Hsol; subst sol. simpl in Hprimal. inversion Hprimal; subst xs. clear Hsol Hprimal.
  reduce_arrays.
  replace (Rmax (- 0) (- q / (1 * 1 + 0))) with (Rmax 0 (- q)) by (f_equal; [lra | field]).
  split; [reflexivity|]. split.
  - intros i Hi. simpl in Hi. assert (i = 0%nat) by lia. subst.
    unfold sum_upto. simpl. pose proof (Rmax_l 0 (- q)). lra.
  - intros y Hy Hf. destruct y as [|y0 [|y1 y]]; try discriminate Hy.
    specialize (Hf 0%nat ltac:(simpl; lia)). reduce_arrays_in Hf.
    unfold qp_objective, quad_form, dot_vv. reduce_arrays.
    destruct (Rle_dec 0 (- q)) as [Hq|Hq].
    + rewrite Rmax_right by exact Hq.
      pose proof (Rle_0_sqr (y0 + q)) as Hsq. unfold Rsqr in Hsq. lra.
    + rewrite Rmax_left by lra. nra.
Qed.

Lemma sample_model_fit :
  @MSDeconvFit.fit sample_collaborators sample_model [2 * 1 + 0]
  = Ok (MSDeconvFit.__init__ sample_model [2] None).
Proof.
  unfold MSDeconvFit.fit, QpFitter.__call__. simpl.
  unfold quadprog. simpl cvx_solve.
  rewrite sample_solve_qp; reduce_arrays; try reflexivity; try lra.
  replace (Rmax (- 0) (- - (1 * (2 * 1 + 0) + 0) / (1 * 1 + 0))) with 2; [reflexivity|].
  rewrite Rmax_right; [field | ].
  replace (- - (1 * (2 * 1 + 0) + 0) / (1 * 1 + 0)) with 2 by field. lra.
Qed.

Lemma sample_nonneg : nonneg_on sample_reg [2].
Proof.
  intros i Hi. simpl in Hi. assert (i = 0%nat) by lia. subst.
  unfold sum_upto. simpl. lra.
Qed.

Lemma sample_model_solver_sound (Q : list R) :
  dot_mv (transpose (MultiShellDeconvModel._X sample_model)) [2 * 1 + 0] = Ok Q ->
  @solver_sound_on sample_collaborators (gram (MultiShellDeconvModel._X sample_model))
     (map Ropp Q) (neg sample_reg) [0].
Proof.
  intros HQ. inversion HQ; subst Q. apply sample_solver_sound_any.
Qed.

Lemma fit_reproduces_feasible_prediction_witness :
  @QpFitter.__init__ sample_collaborators (MultiShellDeconvModel._X sample_model) sample_reg
  = Ok (MultiShellDeconvModel.fitter sample_model) /\
  @MultiShellDeconvModel.predict sample_collaborators sample_model [2] None None
  = Ok [2 * 1 + 0] /\
  nonneg_on sample_reg [2] /\
  @MSDeconvFit.fit sample_collaborators sample_model [2 * 1 + 0]
  = Ok (MSDeconvFit.__init__ sample_model [2] None) /\
  MSDeconvFit.model (MSDeconvFit.__init__ sample_model [2] None) = sample_model /\
  MSDeconvFit.mask (MSDeconvFit.__init__ sample_model [2] None) = None /\
  @MultiShellDeconvModel.predict sample_collaborators sample_model
     (MSDeconvFit._shm_coef (MSDeconvFit.__init__ sample_model [2] None)) None None
  = Ok [2 * 1 + 0].
Proof.
  split; [exact sample_fitter_init|].
  split; [exact (proj1 sample_predictions)|].
  split; [exact sample_nonneg|].
  split; [exact sample_model_fit|].
  exact (@fit_reproduces_feasible_prediction sample_collaborators sample_model sample_reg
           [2] [2 * 1 + 0] None (MSDeconvFit.__init__ sample_model [2] None)
           sample_fitter_init (proj1 sample_predictions) sample_nonneg
           sample_model_solver_sound sample_model_fit).
Defined.

(** ** A response inflated at its own degrees *)

Lemma broadcast_len_1_r (a : nat) : broadcast_len a 1 = Some a.
Proof.
  unfold broadcast_len.
  destruct (Nat.eqb_spec a 1) as [->|Hne]; [reflexivity|].
  reflexivity.
Qed.

Lemma py_indices_of_nat (len : nat) (l : list nat) :
  (forall k, In k l -> (k < len)%nat) ->
  py_indices len (map Z.of_nat l) = Some l.
Proof.
  induction l as [|k l IH]; intros H; simpl; [reflexivity|].
  rewrite (py_index_of_nat len k) by (apply H; left; reflexivity).
  rewrite IH by (intros k' Hk'; apply H; right; exact Hk').
  reflexivity.
Qed.

Lemma arange_step2_even (stop v : Z) : In v (arange_step2 stop) -> (v mod 2 = 0)%Z.
Proof.
  unfold arange_step2. intros H. apply in_map_iff in H.
  destruct H as [k [<- _]].
  rewrite Z.mul_comm. apply Z_mod_mult.
Qed.

Lemma arange_step2_bound (stop v : Z) :
  In v (arange_step2 stop) -> (0 <= v / 2 < (stop + 1) / 2)%Z.
Proof.
  unfold arange_step2. intros H. apply in_map_iff in H.
  destruct H as [k [<- Hk]]. apply in_seq in Hk.
  replace (2 * Z.of_nat k / 2)%Z with (Z.of_nat k)
    by (rewrite Z.mul_comm, Z_div_mult by lia; reflexivity).
  lia.
Qed.

Lemma mismatch_own_degrees (so : Z) :
  (1 <= so)%Z -> mismatch (arange_step2 (so + 1)) so = Ok false.
Proof.
  intros Hso. unfold mismatch.
  destruct (existsb (fun v => negb (v mod 2 =? 0)%Z) (arange_step2 (so + 1))) eqn:Hodd.
  { apply existsb_odd in Hodd. destruct Hodd as [v [Hin Hv]].
    apply arange_step2_even in Hin. contradiction. }
  destruct (max_list (arange_step2 (so + 1))) as [mx|] eqn:Hmax.
  - apply max_list_is_max in Hmax. destruct Hmax as [Hin _].
    apply arange_step2_bound in Hin. simpl.
    replace (so <=? mx / 2)%Z with false; [reflexivity|].
    symmetry. apply Z.leb_gt.
    Z.div_mod_to_equations. lia.
  - exfalso. unfold max_list in Hmax.
    destruct (arange_step2 (so + 1)) as [|x l] eqn:Hl; [|discriminate Hmax].
    apply (f_equal (@length Z)) in Hl. unfold arange_step2 in Hl.
    rewrite length_map, length_seq in Hl. simpl in Hl.
    Z.div_mod_to_equations. lia.
Qed.

Lemma py_indices_app (len : nat) (a b : list Z) (ra rb : list nat) :
  py_indices len a = Some ra -> py_indices len b = Some rb ->
  py_indices len (a ++ b) = Some (ra ++ rb).
Proof.
  revert ra. induction a as [|k a IH]; intros ra Ha Hb; simpl in *.
  - inversion Ha; subst. exact Hb.
  - destruct (py_index len k) as [i|]; [|discriminate Ha].
    destruct (py_indices len a) as [ra'|]; [|discriminate Ha].
    inversion Ha; subst. rewrite (IH ra' eq_refl Hb). reflexivity.
Qed.

Lemma n_idx_own_degrees (len : nat) (iso so : Z) :
  (0 <= iso)%Z ->
  (Z.to_nat iso + Z.to_nat ((so + 1 + 1) / 2) <= len)%nat ->
  exists cols,
    py_indices len (n_idx iso (arange_step2 (so + 1))) = Some cols /\
    length cols = (Z.to_nat iso + Z.to_nat ((so + 1 + 1) / 2))%nat.
Proof.
  intros Hiso Hlen. unfold n_idx, arange_step2.
  set (c := Z.to_nat ((so + 1 + 1) / 2)) in *.
  exists (seq 0 (Z.to_nat iso) ++ map (fun k => (k + Z.to_nat iso)%nat) (seq 0 c)).
  split.
  - apply py_indices_app.
    + apply py_indices_of_nat. intros k Hk. apply in_seq in Hk. lia.
    + rewrite map_map.
      rewrite (map_ext_in (fun k => (2 * Z.of_nat k / 2 + iso)%Z)
                          (fun k => Z.of_nat (k + Z.to_nat iso))).
      * rewrite <- (map_map (fun k => (k + Z.to_nat iso)%nat) Z.of_nat).
        apply py_indices_of_nat. intros k Hk. apply in_map_iff in Hk.
        destruct Hk as [k' [<- Hk']]. apply in_seq in Hk'. lia.
      * intros k _.
        replace (2 * Z.of_nat k / 2)%Z with (Z.of_nat k)
          by (rewrite Z.mul_comm, Z_div_mult by lia; reflexivity).
        lia.
  - rewrite length_app, length_map, !length_seq. reflexivity.
Qed.

Section OwnDegrees.

(** X14. A response accepted by the constructor, with one
    shell value per row (at least one) and a delta kernel with one entry
    per column, inflated at its own list of degrees [response.n]:
    for [sh_order >= 1] the inflation returns a matrix with one row per
    measurement and one column per column of the response; for
    [sh_order = 0] it raises "Response and n do not match"; for a
    negative [sh_order] the degree list is empty and [n.max()] raises. *)
Theorem inflate_response_own_degrees
  (resp : ndarray2) (so : Z) (shells : list R) (response : MultiShellResponse.t)
  (gtab : GradientTable) (delta : list R) :
  MultiShellResponse.__init__ resp so shells = Ok response ->
  length shells = nrows resp ->
  (1 <= nrows resp)%nat ->
  length delta = ncols resp ->
  ((1 <= so)%Z ->
   exists M,
     _inflate_response response gtab (MultiShellResponse.n response) delta = Ok M /\
     nrows M = length gtab /\ ncols M = ncols resp) /\
  (so = 0%Z ->
   _inflate_response response gtab (MultiShellResponse.n response) delta
   = Raise (ValueError "Response and n do not match")) /\
  ((so < 0)%Z ->
   _inflate_response response gtab (MultiShellResponse.n response) delta
   = Raise (LibraryError "numpy.max: zero-size array")).
Proof.
  intros Hinit Hshells Hrows Hdelta.
  apply MultiShellResponse_init_inv in Hinit.
  destruct Hinit as [Hresp [Hso [Hsh [Hn [_ Hiso]]]]].
  unfold _inflate_response. rewrite Hn, Hso, Hsh, Hresp.
  split; [|split].
  - intros Hge. rewrite (mismatch_own_degrees so Hge).
    cbv beta iota delta [bind].
    destruct shells as [|s0 shells']; [simpl in Hshells; lia|].
    set (shells := s0 :: shells') in *.
    change (closest shells (bvals gtab))
      with (@Ok (list nat) (map (fun b => argmin (map (fun h => Rabs (h - b)) shells))
                                (bvals gtab))).
    cbv beta iota.
    unfold broadcast2. change (nrows (as_row delta)) with 1%nat.
    change (ncols (as_row delta)) with (length delta).
    rewrite broadcast_len_1_r, Hdelta, broadcast_len_same.
    unfold ix_. cbn [nrows ncols].
    rewrite py_indices_of_nat.
    2:{ intros k Hk. apply in_map_iff in Hk. destruct Hk as [b [<- _]].
        rewrite <- Hshells.
        assert (Hne : map (fun h => Rabs (h - b)) shells <> []) by discriminate.
        pose proof (argmin_first_minimum _ Hne) as [Hlt _].
        rewrite length_map in Hlt. exact Hlt. }
    assert (Hiso' : MultiShellResponse.iso response
                    = (Z.of_nat (ncols resp) - so / 2 - 1)%Z).
    { unfold MultiShellResponse.iso. rewrite Hresp, Hso. reflexivity. }
    destruct (n_idx_own_degrees (ncols resp) (MultiShellResponse.iso response) so)
      as [cols [Hcols Hlen]]; [lia | rewrite Hiso' in *; Z.div_mod_to_equations; lia |].
    rewrite Hcols.
    pose proof (py_indices_length _ _ _ Hcols) as Hcl.
    assert (Hfull : length cols = ncols resp).
    { rewrite Hlen, Hiso'. rewrite Hiso' in Hiso. Z.div_mod_to_equations. lia. }
    destruct (Nat.eqb _ 0); (eexists; split; [reflexivity|]; simpl; split;
      [unfold bvals; rewrite !length_map; reflexivity|]).
    + rewrite <- Hcl. exact Hfull.
    + exact Hfull.
  - intros ->. reflexivity.
  - intros Hneg.
    assert (Hnil : arange_step2 (so + 1) = []).
    { unfold arange_step2.
      replace (Z.to_nat ((so + 1 + 1) / 2)) with 0%nat
        by (Z.div_mod_to_equations; lia).
      reflexivity. }
    rewrite Hnil. reflexivity.
Qed.

End OwnDegrees.

Lemma inflate_response_own_degrees_witness :
  MultiShellResponse.__init__ sample_response_array 2 sample_shells = Ok sample_response /\
  length sample_shells = nrows sample_response_array /\
  (1 <= nrows sample_response_array)%nat /\
  length [1; 1; 1] = ncols sample_response_array /\
  exists M,
    _inflate_response sample_response sample_gtab (MultiShellResponse.n sample_response)
                      [1; 1; 1] = Ok M /\
    nrows M = length sample_gtab /\ ncols M = ncols sample_response_array.
Proof.
  split; [exact sample_response_init|]. split; [reflexivity|].
  split; [simpl; lia|]. split; [reflexivity|].
  apply (proj1 (inflate_response_own_degrees sample_response_array 2 sample_shells
                  sample_response sample_gtab [1; 1; 1]
                  sample_response_init eq_refl ltac:(simpl; lia) eq_refl)).
  lia.
Defined.

(** ** What the model constructor can raise *)

Section ConstructorErrors.
Context {C : Collaborators}.

Lemma inflate_response_Raise_inv (response : MultiShellResponse.t) (gtab : GradientTable)
  (n : list Z) (delta : list R) (e : exn) :
  _inflate_response response gtab n delta = Raise e ->
  e = ValueError "Response and n do not match" \/ exists origin, e = LibraryError origin.
Proof.
  unfold _inflate_response. intros H.
  apply bind_Raise_inv in H. destruct H as [H|[bad [_ H]]].
  { right. unfold mismatch in H. destruct (existsb _ n); [discriminate H|].
    apply bind_Raise_inv in H. destruct H as [H|[mx [_ H]]]; [|discriminate H].
    apply from_library_Raise_inv in H. eauto. }
  destruct bad; [left; inversion H; reflexivity | right].
  apply bind_Raise_inv in H. destruct H as [H|[b_idx [_ H]]].
  { unfold closest in H. destruct (MultiShellResponse.shells response);
      inversion H; eauto. }
  apply bind_Raise_inv in H. destruct H as [H|[kernal [_ H]]].
  { unfold broadcast2 in H.
    destruct (broadcast_len _ _); [destruct (broadcast_len _ _)|]; inversion H; eauto. }
  unfold ix_ in H. destruct (Nat.eqb _ 0); [discriminate H|].
  destruct (py_indices _ _); [destruct (py_indices _ _)|]; inversion H; eauto.
Qed.

Lemma pos_constrained_delta_Raise_inv (iso : Z) (m n : list Z) (theta phi : R)
  (reg_sphere : Sphere) (e : exn) :
  _pos_constrained_delta iso m n theta phi reg_sphere = Raise e ->
  exists origin, e = LibraryError origin.
Proof.
  unfold _pos_constrained_delta. intros H.
  apply bind_Raise_inv in H. destruct H as [H|[[[[x B] G_temp] c_temp] [_ H]]].
  { unfold lp_data in H. destruct (sphere2cart 1 theta phi) as [[x0 y0] z0].
    apply bind_Raise_inv in H. destruct H as [H|[v0 [_ H]]].
    { apply from_library_Raise_inv in H. eauto. }
    apply bind_Raise_inv in H. destruct H as [H|[mn [_ H]]].
    { apply from_library_Raise_inv in H. eauto. }
    apply bind_Raise_inv in H. destruct H as [H|[G [_ H]]].
    { unfold select_columns in H. destruct (Nat.eqb _ _); inversion H; eauto. }
    destruct (Nat.eqb (nrows G) 0); inversion H; eauto. }
  destruct (Nat.eqb (nrows c_temp) 0); [inversion H; eauto|].
  apply bind_Raise_inv in H. destruct H as [H|[sol [_ H]]].
  { apply from_library_Raise_inv in H. eauto. }
  apply bind_Raise_inv in H. destruct H as [H|[out [_ H]]].
  { unfold assign_mask in H. destruct (Nat.eqb _ _); inversion H; eauto. }
  apply bind_Raise_inv in H. destruct H as [H|[out' [_ H]]].
  { unfold assign_mask in H. destruct (Nat.eqb _ _); inversion H; eauto. }
  discriminate H.
Qed.

Lemma QpFitter_init_Raise_inv (X reg : ndarray2) (e : exn) :
  QpFitter.__init__ X reg = Raise e ->
  e = AssertionError \/ exists origin, e = LibraryError origin.
Proof.
  unfold QpFitter.__init__. intros H.
  apply bind_Raise_inv in H. destruct H as [H|[P [_ H]]].
  { right. unfold dot in H. destruct (Nat.eqb _ _); inversion H; eauto. }
  apply bind_Raise_inv in H. destruct H as [H|[rnk [_ H]]].
  { right. apply rank_Raise_inv in H. exact H. }
  destruct (Nat.eqb rnk (nrows P)); inversion H. left. reflexivity.
Qed.

Lemma model_init_Raise_inv
  (gtab : GradientTable) (response : MultiShellResponse.t) (reg_sphere : Sphere)
  (iso : Z) (delta_form : string) (e : exn) :
  MultiShellDeconvModel.__init__ gtab response reg_sphere iso delta_form = Raise e ->
  ((iso < 1)%Z /\
   e = ValueError "Multi-tissue CSD requires at least 2 tissue compartments") \/
  ((1 <= iso)%Z /\
   (e = ValueError "Response and n do not match" \/
    e = AssertionError \/
    exists origin, e = LibraryError origin)).
Proof.
  unfold MultiShellDeconvModel.__init__. intros H.
  apply bind_Raise_inv in H. destruct H as [H|[[[B m] n] [HB H]]].
  { apply multi_tissue_basis_Raise_inv in H.
    destruct H as [[Hlt ->]|[Hge ->]]; [left; auto | right; eauto]. }
  right. apply multi_tissue_basis_Ok_inv in HB. destruct HB as [Hge _].
  split; [exact Hge|].
  apply bind_Raise_inv in H. destruct H as [H|[delta_f [Hdf H]]].
  { apply from_library_Raise_inv in H. eauto. }
  apply bind_Raise_inv in H. destruct H as [H|[delta [_ H]]].
  { apply from_library_Ok_inv in Hdf. unfold delta_functions in Hdf.
    destruct (String.eqb delta_form "basic").
    - inversion Hdf; subst delta_f. discriminate H.
    - destruct (String.eqb delta_form "positivity_constrained"); [|discriminate Hdf].
      inversion Hdf; subst delta_f.
      apply bind_Raise_inv in H. destruct H as [H|[kernel [_ H]]].
      * apply pos_constrained_delta_Raise_inv in H. eauto.
      * apply real_entries_Raise_inv in H. contradiction. }
  apply bind_Raise_inv in H. destruct H as [H|[mmat [_ H]]].
  { apply inflate_response_Raise_inv in H. destruct H as [->|H]; eauto. }
  apply bind_Raise_inv in H. destruct H as [H|[odf_reg [_ H]]].
  { apply from_library_Raise_inv in H. eauto. }
  apply bind_Raise_inv in H. destruct H as [H|[X [_ H]]].
  { unfold broadcast2 in H.
    destruct (broadcast_len _ _); [destruct (broadcast_len _ _)|]; inversion H; eauto. }
  apply bind_Raise_inv in H. destruct H as [H|[fitter [_ H]]].
  { apply QpFitter_init_Raise_inv in H. destruct H as [->|H]; eauto. }
  discriminate H.
Qed.

(** X15. What [MultiShellDeconvModel.__init__] can
    raise.  The error about tissue compartments is raised exactly when
    the argument [iso] is below 1, whatever the other arguments are.
    Any other failure happens with [iso >= 1] and is the error
    "Response and n do not match", the failed rank assertion, or an
    error of a library call.  With [iso >= 1] and a harmonic index list,
    a [delta_form] other than the two known ones is a [KeyError]; and a
    model is only ever built for one of the two known forms. *)
Theorem model_constructor_errors
  (gtab : GradientTable) (response : MultiShellResponse.t) (reg_sphere : Sphere)
  (iso : Z) (delta_form : string) :
  (MultiShellDeconvModel.__init__ gtab response reg_sphere iso delta_form
   = Raise (ValueError "Multi-tissue CSD requires at least 2 tissue compartments")
   <-> (iso < 1)%Z) /\
  (forall e,
     MultiShellDeconvModel.__init__ gtab response reg_sphere iso delta_form = Raise e ->
     e <> ValueError "Multi-tissue CSD requires at least 2 tissue compartments" ->
     (1 <= iso)%Z /\
     (e = ValueError "Response and n do not match" \/
      e = AssertionError \/
      exists origin, e = LibraryError origin)) /\
  ((1 <= iso)%Z ->
   sph_harm_ind_list (MultiShellResponse.sh_order response) <> None ->
   delta_form <> "basic" -> delta_form <> "positivity_constrained" ->
   MultiShellDeconvModel.__init__ gtab response reg_sphere iso delta_form
   = Raise (LibraryError "KeyError: delta_functions")) /\
  (forall model,
     MultiShellDeconvModel.__init__ gtab response reg_sphere iso delta_form = Ok model ->
     delta_form = "basic" \/ delta_form = "positivity_constrained").
Proof.
  split; [|split; [|split]].
  - split.
    + intros H. apply model_init_Raise_inv in H.
      destruct H as [[Hlt _]|[_ [H|[H|[origin H]]]]]; [exact Hlt | | |]; discriminate H.
    + intros Hlt. unfold MultiShellDeconvModel.__init__, multi_tissue_basis.
      replace (iso <? 1)%Z with true by (symmetry; apply Z.ltb_lt; exact Hlt).
      reflexivity.
  - intros e H Hne. apply model_init_Raise_inv in H.
    destruct H as [[_ ->]|H]; [contradiction | exact H].
  - intros Hge Hmn Hb Hp. unfold MultiShellDeconvModel.__init__.
    destruct (sph_harm_ind_list (MultiShellResponse.sh_order response)) as [mn|] eqn:Emn;
      [|contradiction].
    rewrite (multi_tissue_basis_returns gtab _ iso mn Hge Emn).
    cbv beta iota delta [bind]. unfold delta_functions.
    apply String.eqb_neq in Hb. apply String.eqb_neq in Hp. rewrite Hb, Hp.
    reflexivity.
  - intros model H. apply MultiShellDeconvModel_init_Ok_inv in H.
    destruct H as [B [m [n [delta_f [delta [mmat [odf_reg [X [fitter [_ [Hdf _]]]]]]]]]]].
    unfold delta_functions in Hdf.
    destruct (String.eqb_spec delta_form "basic") as [->|_]; [left; reflexivity|].
    destruct (String.eqb_spec delta_form "positivity_constrained") as [->|_];
      [right; reflexivity | discriminate Hdf].
Qed.

End ConstructorErrors.

Lemma model_constructor_errors_witness :
  @MultiShellDeconvModel.__init__ pipeline_collaborators pipeline_gtab pipeline_response
     pipeline_sphere 0 "basic"
  = Raise (ValueError "Multi-tissue CSD requires at least 2 tissue compartments") /\
  @MultiShellDeconvModel.__init__ pipeline_collaborators pipeline_gtab pipeline_response
     pipeline_sphere 1 "dirac"
  = Raise (LibraryError "KeyError: delta_functions").
Proof.
  split.
  - apply (proj1 (@model_constructor_errors pipeline_collaborators pipeline_gtab
                    pipeline_response pipeline_sphere 0 "basic")).
    lia.
  - apply (proj1 (proj2 (proj2 (@model_constructor_errors pipeline_collaborators
                    pipeline_gtab pipeline_response pipeline_sphere 1 "dirac")))).
    + lia.
    + discriminate.
    + discriminate.
    + discriminate.
Defined.

(** ** Measurements without diffusion weighting *)

Section B0Rows.
Context {C : Collaborators}.

(** The forward operator over a gradient table, as [predict] builds it:
    its shape, and the zeros on the rows flagged b0. *)
Lemma forward_operator_b0_zero
  (self : MultiShellDeconvModel.t) (gtab : GradientTable) (mn : list (Z * Z))
  (B : ndarray2) (m n : list Z) (mmat X : ndarray2) :
  sph_harm_ind_list (MultiShellDeconvModel.sh_order self) = Some mn ->
  multi_tissue_basis gtab (MultiShellDeconvModel.sh_order self)
    (MultiShellResponse.iso (MultiShellDeconvModel.response self)) = Ok (B, m, n) ->
  _inflate_response (MultiShellDeconvModel.response self) gtab n
    (MultiShellDeconvModel.delta self) = Ok mmat ->
  broadcast2 Rmult B mmat = Ok X ->
  nrows X = length gtab /\
  ncols X = (Z.to_nat (MultiShellResponse.iso (MultiShellDeconvModel.response self))
             + length mn)%nat /\
  forall j g k mk v,
    nth_error gtab j = Some g -> is_b0 g = true ->
    nth_error mn k = Some (mk, v) -> (0 < v)%Z ->
    cell X j (Z.to_nat (MultiShellResponse.iso (MultiShellDeconvModel.response self)) + k) = 0.
Proof.
  intros Hmn HB Hm HX.
  set (iso := MultiShellResponse.iso (MultiShellDeconvModel.response self)) in *.
  assert (Hiso : (1 <= iso)%Z).
  { apply multi_tissue_basis_Ok_inv in HB. tauto. }
  rewrite (multi_tissue_basis_returns gtab _ iso mn Hiso Hmn) in HB.
  inversion HB as [[HBeq Hmeq Hneq]]. clear HB.
  apply inflate_response_shape in Hm. destruct Hm as [_ [Hmr Hmc]]. fold iso in Hmc.
  assert (Hlen : length n = length mn) by (rewrite <- Hneq, length_map; reflexivity).
  unfold broadcast2 in HX. rewrite <- HBeq in HX. cbn [nrows ncols] in HX.
  rewrite Hmr, Hmc, Hlen, !broadcast_len_same in HX.
  inversion HX as [HXeq]. clear HX. cbn [nrows ncols cell].
  split; [reflexivity|]. split; [reflexivity|].
  intros j g k mk v Hg Hb0 Hk Hv.
  assert (Hj : (j < length gtab)%nat) by (apply nth_error_Some; congruence).
  assert (Hkl : (k < length mn)%nat) by (apply nth_error_Some; congruence).
  rewrite (broadcast_ix_in_range (length gtab) j Hj).
  rewrite (broadcast_ix_in_range (Z.to_nat iso + length mn) (Z.to_nat iso + k)) by lia.
  replace (Nat.ltb (Z.to_nat iso + k) (Z.to_nat iso)) with false
    by (symmetry; apply Nat.ltb_ge; lia).
  replace (Z.to_nat iso + k - Z.to_nat iso)%nat with k by lia.
  unfold assign_ix_mask. cbn [cell].
  assert (Hrow : nth j (b0s_mask gtab) false = true).
  { unfold b0s_mask. apply nth_error_nth. rewrite nth_error_map, Hg. simpl.
    f_equal. exact Hb0. }
  assert (Hcol : nth k (map (fun v => (0 <? v)%Z) (map snd mn)) false = true).
  { apply nth_error_nth. rewrite !nth_error_map, Hk. simpl. f_equal.
    apply Z.ltb_lt. exact Hv. }
  rewrite Hrow, Hcol. simpl. ring.
Qed.

(** X16. Prediction over a gradient table passed to [predict]: at a
    measurement flagged b0, the predicted value depends only on the
    isotropic coefficients and on the coefficients of the harmonics of
    degree 0 (or below); two coefficient vectors that agree on those
    predict the same value there. *)
Theorem predict_b0_ignores_higher_degrees
  (self : MultiShellDeconvModel.t) (gtab : GradientTable) (mn : list (Z * Z))
  (p q yp yq : list R) (S0 : option S0_value) (j : nat) (g : gradient) :
  sph_harm_ind_list (MultiShellDeconvModel.sh_order self) = Some mn ->
  MultiShellDeconvModel.predict self p (Some gtab) S0 = Ok yp ->
  MultiShellDeconvModel.predict self q (Some gtab) S0 = Ok yq ->
  nth_error gtab j = Some g -> is_b0 g = true ->
  (forall c,
     (c < Z.to_nat (MultiShellResponse.iso (MultiShellDeconvModel.response self)))%nat ->
     nth c p 0 = nth c q 0) ->
  (forall k mk v,
     nth_error mn k = Some (mk, v) -> (v <= 0)%Z ->
     nth (Z.to_nat (MultiShellResponse.iso (MultiShellDeconvModel.response self)) + k) p 0
     = nth (Z.to_nat (MultiShellResponse.iso (MultiShellDeconvModel.response self)) + k) q 0) ->
  nth j yp 0 = nth j yq 0.
Proof.
  intros Hmn Hp Hq Hg Hb0 Hiso_eq Hdeg_eq.
  unfold MultiShellDeconvModel.predict in Hp, Hq.
  bind_ok Hp X HX. rewrite HX in Hq. cbv beta iota delta [bind] in Hq.
  bind_ok HX Bmn HB. destruct Bmn as [[B m] n]. cbv beta iota in HX.
  bind_ok HX mmat Hm.
  destruct (forward_operator_b0_zero self gtab mn B m n mmat X Hmn HB Hm HX)
    as [HXr [HXc Hzero]].
  set (iso := Z.to_nat (MultiShellResponse.iso (MultiShellDeconvModel.response self))) in *.
  assert (Hj : (j < length gtab)%nat) by (apply nth_error_Some; congruence).
  apply dot_vm_Ok_inv in Hp. apply dot_vm_Ok_inv in Hq.
  destruct Hp as [_ ->]. destruct Hq as [_ ->]. cbn [nrows ncols cell transpose].
  rewrite HXr, HXc.
  set (row := fun (x : list R) (r : nat) =>
                sum_upto (iso + length mn) (fun k => nth k x 0 * cell X r k)).
  change (nth j (map (row p) (seq 0 (length gtab))) 0
          = nth j (map (row q) (seq 0 (length gtab))) 0).
  rewrite (nth_indep _ 0 (row p 0%nat)) by (rewrite length_map, length_seq; exact Hj).
  rewrite (nth_indep (map (row q) _) 0 (row q 0%nat))
    by (rewrite length_map, length_seq; exact Hj).
  rewrite !map_nth, seq_nth by exact Hj. simpl. unfold row.
  apply sum_upto_ext. intros c Hc.
  destruct (Nat.lt_ge_cases c iso) as [Hlt|Hge].
  - rewrite (Hiso_eq c Hlt). reflexivity.
  - replace c with (iso + (c - iso))%nat by lia.
    destruct (nth_error mn (c - iso)) as [[mk v]|] eqn:Hk.
    + destruct (Z.lt_ge_cases 0 v) as [Hpos|Hnp].
      * rewrite (Hzero j g (c - iso)%nat mk v Hg Hb0 Hk Hpos). ring.
      * rewrite (Hdeg_eq (c - iso)%nat mk v Hk Hnp). reflexivity.
    + apply nth_error_None in Hk. lia.
Qed.

End B0Rows.

Lemma sample_predict_table (params : list R) :
  length params = 7%nat ->
  exists out,
    @MultiShellDeconvModel.predict sample_collaborators sample_model params
      (Some sample_gtab) None = Ok out.
Proof.
  intros Hlen. unfold MultiShellDeconvModel.predict.
  change (MultiShellDeconvModel.sh_order sample_model) with 2%Z.
  change (MultiShellResponse.iso (MultiShellDeconvModel.response sample_model)) with 1%Z.
  rewrite (@multi_tissue_basis_returns sample_collaborators sample_gtab 2%Z 1%Z
             [(0, 0); (-2, 2); (-1, 2); (0, 2); (1, 2); (2, 2)]%Z)
    by (try lia; reflexivity).
  cbv beta iota delta [bind].
  unfold _inflate_response.
  change (mismatch (map snd [(0, 0); (-2, 2); (-1, 2); (0, 2); (1, 2); (2, 2)]%Z)
            (MultiShellResponse.sh_order (MultiShellDeconvModel.response sample_model)))
    with (@Ok bool false).
  cbv beta iota delta [bind].
  change (MultiShellResponse.shells (MultiShellDeconvModel.response sample_model))
    with sample_shells.
  rewrite closest_sample. cbv beta iota.
  unfold broadcast2, ix_. simpl. unfold dot_vm. simpl. rewrite Hlen. simpl.
  eexists. reflexivity.
Qed.

Lemma predict_b0_ignores_higher_degrees_witness :
  exists yp yq,
    @sph_harm_ind_list sample_collaborators (MultiShellDeconvModel.sh_order sample_model)
    = Some [(0, 0); (-2, 2); (-1, 2); (0, 2); (1, 2); (2, 2)]%Z /\
    @MultiShellDeconvModel.predict sample_collaborators sample_model
      [1; 2; 3; 4; 5; 6; 7] (Some sample_gtab) None = Ok yp /\
    @MultiShellDeconvModel.predict sample_collaborators sample_model
      [1; 2; 0; 0; 0; 0; 0] (Some sample_gtab) None = Ok yq /\
    nth_error sample_gtab 0 = Some sample_b0 /\ is_b0 sample_b0 = true /\
    nth 0 yp 0 = nth 0 yq 0.
Proof.
  destruct (sample_predict_table [1; 2; 3; 4; 5; 6; 7] eq_refl) as [yp Hp].
  destruct (sample_predict_table [1; 2; 0; 0; 0; 0; 0] eq_refl) as [yq Hq].
  exists yp, yq.
  split; [reflexivity|]. split; [exact Hp|]. split; [exact Hq|].
  split; [reflexivity|]. split; [reflexivity|].
  apply (@predict_b0_ignores_higher_degrees sample_collaborators sample_model sample_gtab
           [(0, 0); (-2, 2); (-1, 2); (0, 2); (1, 2); (2, 2)]%Z
           [1; 2; 3; 4; 5; 6; 7] [1; 2; 0; 0; 0; 0; 0] yp yq None 0%nat sample_b0
           eq_refl Hp Hq eq_refl eq_refl).
  - intros c Hc. change (Z.to_nat (MultiShellResponse.iso
                                     (MultiShellDeconvModel.response sample_model)))
      with 1%nat in Hc.
    assert (c = 0%nat) by lia. subst c. reflexivity.
  - intros k mk v Hk Hv.
    destruct k as [|[|[|[|[|[|k]]]]]]; simpl in Hk; inversion Hk; subst; try lia.
    + reflexivity.
    + destruct k; discriminate.
Defined.

(** ** The runs the model follows *)

(** [BeyondReals] comes from one place only, a positivity-constrained
    kernel with [nan] on its way into the model constructor: every
    other function of [mcsd.py] is followed to its return or to the
    exception it raises. *)

Lemma bind_BeyondReals_inv {A B : Type} (c : result A) (k : A -> result B) :
  bind c k = BeyondReals -> c = BeyondReals \/ exists a, c = Ok a /\ k a = BeyondReals.
Proof.
  destruct c as [a|e|]; simpl; intros H.
  - right; exists a; split; [reflexivity | exact H].
  - discriminate H.
  - left; reflexivity.
Qed.

Lemma real_entries_BeyondReals_iff (l : list nanfloat) :
  real_entries l = BeyondReals <-> In Nan l.
Proof.
  induction l as [|[r|] l IH]; simpl.
  - split; [discriminate | intros []].
  - split.
    + intros H. apply bind_BeyondReals_inv in H.
      destruct H as [H|[rs [_ H]]]; [right; apply IH; exact H | discriminate H].
    + intros [H|H]; [discriminate H|]. apply IH in H. rewrite H. reflexivity.
  - split; [intros _; left; reflexivity | reflexivity].
Qed.

Create HintDb followed.

Ltac followed_step H :=
  first
    [ discriminate H
    | solve [exfalso; eauto with followed]
    | apply bind_BeyondReals_inv in H; destruct H as [H|[? [_ H]]]
    | match type of H with
      | (if ?b then _ else _) = _ => destruct b
      | (match ?x with _ => _ end) = _ => destruct x
      end ].

Ltac followed H := repeat followed_step H.

Lemma from_library_followed {A : Type} (origin : string) (o : option A) :
  from_library origin o = BeyondReals -> False.
Proof. unfold from_library. intros H. followed H. Qed.
#[local] Hint Resolve from_library_followed : followed.

Lemma dot_followed (A B : ndarray2) : dot A B = BeyondReals -> False.
Proof. unfold dot. intros H. followed H. Qed.

Lemma dot_mv_followed (A : ndarray2) (v : list R) : dot_mv A v = BeyondReals -> False.
Proof. unfold dot_mv. intros H. followed H. Qed.

Lemma dot_vm_followed (v : list R) (A : ndarray2) : dot_vm v A = BeyondReals -> False.
Proof. unfold dot_vm. intros H. followed H. Qed.

Lemma broadcast2_followed (f : R -> R -> R) (A B : ndarray2) :
  broadcast2 f A B = BeyondReals -> False.
Proof. unfold broadcast2. intros H. followed H. Qed.

Lemma concatenate_axis1_followed (A B : ndarray2) :
  concatenate_axis1 A B = BeyondReals -> False.
Proof. unfold concatenate_axis1. intros H. followed H. Qed.

Lemma ix_followed (A : ndarray2) (rows cols : list Z) : ix_ A rows cols = BeyondReals -> False.
Proof. unfold ix_. intros H. followed H. Qed.

Lemma closest_followed (haystack needle : list R) :
  closest haystack needle = BeyondReals -> False.
Proof. unfold closest. intros H. followed H. Qed.

Lemma assign_mask_followed {A : Type} (out : list A) (mask : list bool) (v : A) :
  assign_mask out mask v = BeyondReals -> False.
Proof. unfold assign_mask. intros H. followed H. Qed.

Lemma select_columns_followed (B : ndarray2) (mask : list bool) :
  select_columns B mask = BeyondReals -> False.
Proof. unfold select_columns. intros H. followed H. Qed.

#[local] Hint Resolve dot_followed dot_mv_followed dot_vm_followed broadcast2_followed
  concatenate_axis1_followed ix_followed closest_followed assign_mask_followed
  select_columns_followed : followed.

Lemma mismatch_followed (n : list Z) (sh_order : Z) : mismatch n sh_order = BeyondReals -> False.
Proof. unfold mismatch. intros H. followed H. Qed.
#[local] Hint Resolve mismatch_followed : followed.

Lemma MultiShellResponse_init_followed (resp : ndarray2) (so : Z) (shells : list R) :
  MultiShellResponse.__init__ resp so shells = BeyondReals -> False.
Proof. unfold MultiShellResponse.__init__. intros H. followed H. Qed.

Lemma inflate_response_followed (response : MultiShellResponse.t) (gtab : GradientTable)
  (n : list Z) (delta : list R) :
  _inflate_response response gtab n delta = BeyondReals -> False.
Proof. unfold _inflate_response. intros H. followed H. Qed.
#[local] Hint Resolve inflate_response_followed : followed.

Section FollowedRuns.
Context {C : Collaborators}.

Lemma multi_tissue_basis_followed (gtab : GradientTable) (sh_order iso_comp : Z) :
  multi_tissue_basis gtab sh_order iso_comp = BeyondReals -> False.
Proof. unfold multi_tissue_basis. intros H. followed H. Qed.

Lemma basic_delta_followed (iso : Z) (m n : list Z) (theta phi : R) :
  _basic_delta iso m n theta phi = BeyondReals -> False.
Proof. unfold _basic_delta. intros H. followed H. Qed.

Lemma lp_data_followed (m n : list Z) (theta phi : R) (reg_sphere : Sphere) :
  lp_data m n theta phi reg_sphere = BeyondReals -> False.
Proof.
  unfold lp_data. destruct (sphere2cart 1 theta phi) as [[x y] z]. intros H. followed H.
Qed.

Lemma pos_constrained_delta_followed (iso : Z) (m n : list Z) (theta phi : R)
  (reg_sphere : Sphere) :
  _pos_constrained_delta iso m n theta phi reg_sphere = BeyondReals -> False.
Proof.
  unfold _pos_constrained_delta. intros H.
  apply bind_BeyondReals_inv in H. destruct H as [H|[[[[x B] G_temp] c_temp] [_ H]]].
  - exact (lp_data_followed _ _ _ _ _ H).
  - followed H.
Qed.

Lemma rank_followed (A : ndarray2) (tol : R) : _rank A tol = BeyondReals -> False.
Proof. unfold _rank. intros H. followed H. Qed.

Lemma quadprog_followed (P : ndarray2) (Q : list R) (G : ndarray2) (H : list R) :
  quadprog P Q G H = BeyondReals -> False.
Proof. unfold quadprog. intros H0. followed H0. Qed.

Lemma QpFitter_init_followed (X reg : ndarray2) :
  QpFitter.__init__ X reg = BeyondReals -> False.
Proof.
  unfold QpFitter.__init__. intros H.
  apply bind_BeyondReals_inv in H. destruct H as [H|[P [_ H]]]; [followed H|].
  apply bind_BeyondReals_inv in H. destruct H as [H|[rnk [_ H]]].
  - exact (rank_followed _ _ H).
  - followed H.
Qed.

Lemma QpFitter_call_followed (fitter : QpFitter.t) (signal : list R) :
  QpFitter.__call__ fitter signal = BeyondReals -> False.
Proof.
  unfold QpFitter.__call__. intros H.
  apply bind_BeyondReals_inv in H. destruct H as [H|[Q [_ H]]]; [followed H|].
  exact (quadprog_followed _ _ _ _ H).
Qed.

Lemma predict_followed (self : MultiShellDeconvModel.t) (params : list R)
  (gtab : option GradientTable) (S0 : option S0_value) :
  MultiShellDeconvModel.predict self params gtab S0 = BeyondReals -> False.
Proof.
  unfold MultiShellDeconvModel.predict. intros H.
  apply bind_BeyondReals_inv in H. destruct H as [H|[X [_ H]]]; [|followed H].
  destruct gtab as [g|]; [|discriminate H].
  apply bind_BeyondReals_inv in H. destruct H as [H|[[[B m] n] [_ H]]].
  - exact (multi_tissue_basis_followed _ _ _ H).
  - followed H.
Qed.

Lemma fit_followed (self : MultiShellDeconvModel.t) (data : list R) :
  MSDeconvFit.fit self data = BeyondReals -> False.
Proof.
  unfold MSDeconvFit.fit. intros H.
  apply bind_BeyondReals_inv in H. destruct H as [H|[coeff [_ H]]].
  - exact (QpFitter_call_followed _ _ H).
  - discriminate H.
Qed.

(** The model constructor is not followed exactly when it is given the
    positivity-constrained form, the basis is built, and the kernel is
    returned with a [nan]. *)
Lemma model_init_BeyondReals_iff
  (gtab : GradientTable) (response : MultiShellResponse.t) (reg_sphere : Sphere)
  (iso : Z) (delta_form : string) :
  MultiShellDeconvModel.__init__ gtab response reg_sphere iso delta_form = BeyondReals
  <-> (exists Bmn, multi_tissue_basis gtab (MultiShellResponse.sh_order response) iso
                   = Ok Bmn) /\
      delta_form = "positivity_constrained" /\
      exists kernel,
        _pos_constrained_delta (MultiShellResponse.iso response)
          (MultiShellResponse.m response) (MultiShellResponse.n response) 0 0
          default_sphere = Ok kernel /\
        In Nan kernel.
Proof.
  unfold MultiShellDeconvModel.__init__. split.
  - intros H.
    apply bind_BeyondReals_inv in H. destruct H as [H|[[[B m] n] [HB H]]].
    { exfalso. exact (multi_tissue_basis_followed _ _ _ H). }
    split; [eexists; exact HB|].
    apply bind_BeyondReals_inv in H. destruct H as [H|[delta_f [Hdf H]]].
    { exfalso. exact (from_library_followed _ _ H). }
    apply from_library_Ok_inv in Hdf. unfold delta_functions in Hdf.
    apply bind_BeyondReals_inv in H. destruct H as [H|[delta [_ H]]].
    + destruct (String.eqb_spec delta_form "basic") as [->|_].
      { inversion Hdf; subst delta_f. exfalso. exact (basic_delta_followed _ _ _ _ _ H). }
      destruct (String.eqb_spec delta_form "positivity_constrained") as [->|_];
        [|discriminate Hdf].
      inversion Hdf; subst delta_f. split; [reflexivity|].
      apply bind_BeyondReals_inv in H. destruct H as [H|[kernel [Hk H]]].
      { exfalso. exact (pos_constrained_delta_followed _ _ _ _ _ _ H). }
      exists kernel. split; [exact Hk|]. apply real_entries_BeyondReals_iff. exact H.
    + exfalso.
      apply bind_BeyondReals_inv in H. destruct H as [H|[mmat [_ H]]].
      { exact (inflate_response_followed _ _ _ _ H). }
      apply bind_BeyondReals_inv in H. destruct H as [H|[odf_reg [_ H]]].
      { exact (from_library_followed _ _ H). }
      apply bind_BeyondReals_inv in H. destruct H as [H|[X [_ H]]].
      { exact (broadcast2_followed _ _ _ H). }
      apply bind_BeyondReals_inv in H. destruct H as [H|[fitter [_ H]]].
      { exact (QpFitter_init_followed _ _ H). }
      discriminate H.
  - intros [[Bmn HB] [-> [kernel [Hk Hnan]]]].
    rewrite HB. destruct Bmn as [[B m] n]. cbv beta iota delta [bind].
    unfold delta_functions. simpl String.eqb. cbv beta iota delta [from_library bind].
    rewrite Hk. cbv beta iota.
    apply real_entries_BeyondReals_iff in Hnan. rewrite Hnan. reflexivity.
Qed.

(** The constructor asks for the kernel at [theta = phi = 0].  Where
    that orientation has the Cartesian x-coordinate 0 (as [sin 0 = 0]
    makes it) the constraint of the program reads [0 <= SH_CONST^2];
    with a solver that returns a number for such a program, the
    constructor is followed. *)
Lemma model_init_followed_at_origin
  (gtab : GradientTable) (response : MultiShellResponse.t) (reg_sphere : Sphere)
  (iso : Z) (delta_form : string) :
  fst (fst (sphere2cart 1 0 0)) = 0 ->
  (forall G_temp c_temp sol,
     cvx_solve (lp_prob 0 G_temp c_temp) = Some sol -> value sol <> None) ->
  MultiShellDeconvModel.__init__ gtab response reg_sphere iso delta_form <> BeyondReals.
Proof.
  intros Hx Hsolver H. apply model_init_BeyondReals_iff in H.
  destruct H as [_ [_ [kernel [Hk Hnan]]]].
  apply pos_constrained_delta_Ok_inv in Hk.
  destruct Hk as [x [B [G_temp [c_temp [sol [Hdata [_ [Hsol ->]]]]]]]].
  apply lp_data_Ok_inv in Hdata. destruct Hdata as [Hx' _].
  rewrite Hx in Hx'. subst x.
  apply in_app_or in Hnan. destruct Hnan as [Hnan|Hnan].
  - apply repeat_spec in Hnan. discriminate Hnan.
  - apply in_map_iff in Hnan. destruct Hnan as [v [Hv _]].
    destruct (v =? 0)%Z; [discriminate Hv|].
    destruct (value sol) as [r|] eqn:Hval; [discriminate Hv|].
    exact (Hsolver _ _ _ Hsol Hval).
Qed.

End FollowedRuns.
